(** * MouseOverlay: a shallow embedding of [src/MouseOverlay/index.tsx]

    The plugin keeps four module-level variables ([style], [cursor], [trail],
    [boundUpdateMousePosition]) and mutates the document.  The embedding
    threads one [state] record through every handler: the four variables, the
    part of the document the plugin touches, the pending timeouts and the
    settings store.  Handlers that can end in a JavaScript exception return a
    [completion].

    A JavaScript number is an IEEE-754 binary64 value.  The numbers the
    plugin computes with ([cursorSize] and the pointer coordinates) are
    Rocq's primitive floats, whose subtraction, multiplication and division
    round as the language's do.  [trailLength] is only ever compared with the
    length of the queue, which is exact, and is kept as the rational it
    denotes.  The conversion of a number to text inside a template literal is
    the language runtime's and is taken as a parameter, [num_to_string]. *)

From Stdlib Require Import Ascii String QArith Qreduction Floats.
From stdpp Require Import base option list gmap strings pretty.

Local Open Scope string_scope.

(** ** Numbers *)

Module Num.
(** [a - b], [a * b] and [a / b] on binary64 values. *)
Definition sub (a b : float) : float := PrimFloat.sub a b.
Definition mul (a b : float) : float := PrimFloat.mul a b.
Definition div (a b : float) : float := PrimFloat.div a b.
(** [a > b] for a length [a] and the setting [b]. *)
Definition gt (a b : Q) : bool := negb (Qle_bool a b).
Definition of_nat (n : nat) : Q := inject_Z (Z.of_nat n).
End Num.

(** ** Settings *)

(** [interface MouseOverlaySettings]; a field of the stored object can be
    missing, which is what the [??] fallbacks of the source are for. *)
Record MouseOverlaySettings := {
  cursorSize : option float;
  cursorColor : option string;
  trailEnabled : option bool;
  trailColor : option string;
  trailLength : option Q;
  cursorStyle : option string
}.

Definition CURSOR_URL : string :=
  "https://github.com/Aitoner/MouseOverlay-Cursors/blob/main/Cursors/ntts.png?raw=true".

Module defaultSettings.
Definition cursorSize : float := 20%float.
Definition cursorColor : string := "#ffffff".
Definition trailEnabled : bool := false.
Definition trailColor : string := "#ffffff".
Definition trailLength : Q := 5%Q.
Definition cursorStyle : string := "circle".
End defaultSettings.

(** [a ?? b] *)
Definition nullish {A : Type} (a : option A) (b : A) : A :=
  match a with Some v => v | None => b end.
Infix "??" := nullish (at level 45, left associativity).

(** Truthiness of [settings.trailEnabled]. *)
Definition truthy (b : option bool) : bool :=
  match b with Some true => true | _ => false end.

(** ** The option schema *)

Inductive OptionKey :=
  | KcursorStyle | KcursorSize | KcursorColor
  | KtrailEnabled | KtrailColor | KtrailLength.

(** The only callback body that occurs: [function() { this.updateStyles(); }]. *)
Inductive Callback := CallUpdateStyles.

(** What such a function can be called on: the plugin object, the descriptor
    of an option (the receiver of [options.<key>.onChange(v)]), or nothing
    ([this] is then [undefined], the module being in strict mode). *)
Inductive Receiver := ThePlugin | TheOption (k : OptionKey) | Undefined.

(** [options.<key>.onChange], when the descriptor has one. *)
Definition onChange (k : OptionKey) : option Callback :=
  match k with
  | KcursorStyle => Some CallUpdateStyles
  | KcursorSize => Some CallUpdateStyles
  | KcursorColor => Some CallUpdateStyles
  | KtrailEnabled => None
  | KtrailColor => Some CallUpdateStyles
  | KtrailLength => None
  end.

(** The property names of the object literals: the plugin (lines 49-218) and
    the option descriptors (lines 58-92). *)
Definition properties (this : Receiver) : list string :=
  match this with
  | ThePlugin =>
      [ "name"; "description"; "authors"; "options"; "updateStyles";
        "updateMousePosition"; "start"; "stop" ]
  | TheOption k =>
      [ "type"; "description" ]
      ++ match k with KcursorStyle => [ "options" ] | _ => [] end
      ++ [ "default" ]
      ++ match onChange k with Some _ => [ "onChange" ] | None => [] end
  | Undefined => []
  end.

(** ** Template text *)

Definition nl : string := String "010"%char EmptyString.
Definition dq : string := String "034"%char EmptyString.

(** Joins the pieces of a template literal. *)
Definition template (pieces : list string) : string :=
  foldr String.append EmptyString pieces.

(** The runtime's conversion of a number inside [${...}]. *)
Class Runtime := { num_to_string : float -> string }.

Section Stylesheet.
Context `{Runtime}.

Definition px (n : float) : string := num_to_string n +:+ "px".

(** The two inner templates of the overlay rule. *)
Definition circle_block (cursorColor : string) : string :=
  template [ nl;
    "                    background-color: "; cursorColor; ";"; nl;
    "                    border-radius: 50%;"; nl;
    "                " ].

Definition image_block : string :=
  template [ nl;
    "                    background-image: url('"; CURSOR_URL; "');"; nl;
    "                    background-size: contain;"; nl;
    "                    background-repeat: no-repeat;"; nl;
    "                    background-position: center;"; nl;
    "                " ].

(** The nested template of the overlay rule: the conditional expression
    [cursorStyle === 'circle' ? `...` : `...`]. *)
Definition overlay_visual (cursorStyle cursorColor : string) : string :=
  if String.eqb cursorStyle "circle" then circle_block cursorColor
  else image_block.

(** The template literal assigned to [style.textContent]. *)
Definition css_text (cursorSize : float) (cursorColor trailColor cursorStyle : string)
  : string :=
  template [ nl;
    "            * {"; nl;
    "                cursor: none !important;"; nl;
    "            }"; nl;
    "            a, button, [role="; dq; "button"; dq; "], [class*=";
      dq; "clickable"; dq; "], [class*="; dq; "interactive"; dq; "],"; nl;
    "            [class*="; dq; "control"; dq;
      "], input, textarea, select, [class*="; dq; "slider"; dq; "],"; nl;
    "            [class*="; dq; "scrollbar"; dq; "], [class*="; dq; "icon"; dq;
      "], [class*="; dq; "menu"; dq; "],"; nl;
    "            [class*="; dq; "option"; dq; "], [class*="; dq; "item"; dq;
      "], [class*="; dq; "attachment"; dq; "],"; nl;
    "            [class*="; dq; "card"; dq; "], [class*="; dq; "container"; dq;
      "], [class*="; dq; "wrapper"; dq; "] {"; nl;
    "                cursor: none !important;"; nl;
    "            }"; nl;
    "            #vencord-mouse-overlay {"; nl;
    "                position: fixed;"; nl;
    "                width: "; px cursorSize; ";"; nl;
    "                height: "; px cursorSize; ";"; nl;
    "                pointer-events: none;"; nl;
    "                z-index: 999999;"; nl;
    "                transition: transform 0.1s ease;"; nl;
    "                will-change: transform;"; nl;
    "                "; overlay_visual cursorStyle cursorColor; nl;
    "            }"; nl;
    "            .mouse-trail {"; nl;
    "                position: fixed;"; nl;
    "                width: "; px (Num.mul cursorSize 0.5%float); ";"; nl;
    "                height: "; px (Num.mul cursorSize 0.5%float); ";"; nl;
    "                background-color: "; trailColor; ";"; nl;
    "                border-radius: 50%;"; nl;
    "                pointer-events: none;"; nl;
    "                z-index: 999998;"; nl;
    "                opacity: 0.5;"; nl;
    "            }"; nl;
    "        " ].

(** Lines 101-145 of [updateStyles]: the four reads with their fallbacks and
    the text built from them. *)
Definition stylesheet (settings : MouseOverlaySettings) : string :=
  let cursorSize := settings.(cursorSize) ?? defaultSettings.cursorSize in
  let cursorColor := settings.(cursorColor) ?? defaultSettings.cursorColor in
  let trailColor := settings.(trailColor) ?? defaultSettings.trailColor in
  let cursorStyle := settings.(cursorStyle) ?? defaultSettings.cursorStyle in
  css_text cursorSize cursorColor trailColor cursorStyle.

(** [`translate(${a}px, ${b}px)`] *)
Definition css_translate (a b : float) : string :=
  template [ "translate("; px a; ", "; px b; ")" ].

End Stylesheet.

(** ** The document and the module state *)

(** An element object, with the properties the plugin writes. *)
Record Element := {
  tagName : string;
  elem_id : string;
  className : string;
  textContent : string;
  style_transform : string;
  style_left : string;
  style_top : string
}.

Definition blank (tag : string) : Element :=
  {| tagName := tag; elem_id := EmptyString; className := EmptyString;
     textContent := EmptyString; style_transform := EmptyString;
     style_left := EmptyString; style_top := EmptyString |}.

Definition with_id (v : string) (e : Element) : Element :=
  {| tagName := tagName e; elem_id := v; className := className e;
     textContent := textContent e; style_transform := style_transform e;
     style_left := style_left e; style_top := style_top e |}.
Definition with_className (v : string) (e : Element) : Element :=
  {| tagName := tagName e; elem_id := elem_id e; className := v;
     textContent := textContent e; style_transform := style_transform e;
     style_left := style_left e; style_top := style_top e |}.
Definition with_textContent (v : string) (e : Element) : Element :=
  {| tagName := tagName e; elem_id := elem_id e; className := className e;
     textContent := v; style_transform := style_transform e;
     style_left := style_left e; style_top := style_top e |}.
Definition with_transform (v : string) (e : Element) : Element :=
  {| tagName := tagName e; elem_id := elem_id e; className := className e;
     textContent := textContent e; style_transform := v;
     style_left := style_left e; style_top := style_top e |}.
Definition with_left (v : string) (e : Element) : Element :=
  {| tagName := tagName e; elem_id := elem_id e; className := className e;
     textContent := textContent e; style_transform := style_transform e;
     style_left := v; style_top := style_top e |}.
Definition with_top (v : string) (e : Element) : Element :=
  {| tagName := tagName e; elem_id := elem_id e; className := className e;
     textContent := textContent e; style_transform := style_transform e;
     style_left := style_left e; style_top := v |}.

(** The two parents the plugin appends to. *)
Inductive Container := Head | Body.

(** Objects (elements, bound functions) are named by a [nat]; [fresh] is the
    next unused name.  [head_children] and [body_children] are [None] when
    [document.head], [document.body] is null. *)
Record state := {
  style : option nat;
  cursor : option nat;
  trail : list nat;
  boundUpdateMousePosition : option nat;
  head_children : option (list nat);
  body_children : option (list nat);
  elements : gmap nat Element;
  fresh : nat;
  mousemove : list nat;
  timeouts : list (nat * nat);
  clock : nat;
  store : option MouseOverlaySettings
}.

Definition set_style v s :=
  {| style := v; cursor := cursor s; trail := trail s;
     boundUpdateMousePosition := boundUpdateMousePosition s;
     head_children := head_children s; body_children := body_children s;
     elements := elements s; fresh := fresh s; mousemove := mousemove s;
     timeouts := timeouts s; clock := clock s; store := store s |}.
Definition set_cursor v s :=
  {| style := style s; cursor := v; trail := trail s;
     boundUpdateMousePosition := boundUpdateMousePosition s;
     head_children := head_children s; body_children := body_children s;
     elements := elements s; fresh := fresh s; mousemove := mousemove s;
     timeouts := timeouts s; clock := clock s; store := store s |}.
Definition set_trail v s :=
  {| style := style s; cursor := cursor s; trail := v;
     boundUpdateMousePosition := boundUpdateMousePosition s;
     head_children := head_children s; body_children := body_children s;
     elements := elements s; fresh := fresh s; mousemove := mousemove s;
     timeouts := timeouts s; clock := clock s; store := store s |}.
Definition set_bound v s :=
  {| style := style s; cursor := cursor s; trail := trail s;
     boundUpdateMousePosition := v;
     head_children := head_children s; body_children := body_children s;
     elements := elements s; fresh := fresh s; mousemove := mousemove s;
     timeouts := timeouts s; clock := clock s; store := store s |}.
Definition set_head v s :=
  {| style := style s; cursor := cursor s; trail := trail s;
     boundUpdateMousePosition := boundUpdateMousePosition s;
     head_children := v; body_children := body_children s;
     elements := elements s; fresh := fresh s; mousemove := mousemove s;
     timeouts := timeouts s; clock := clock s; store := store s |}.
Definition set_body v s :=
  {| style := style s; cursor := cursor s; trail := trail s;
     boundUpdateMousePosition := boundUpdateMousePosition s;
     head_children := head_children s; body_children := v;
     elements := elements s; fresh := fresh s; mousemove := mousemove s;
     timeouts := timeouts s; clock := clock s; store := store s |}.
Definition set_elements v s :=
  {| style := style s; cursor := cursor s; trail := trail s;
     boundUpdateMousePosition := boundUpdateMousePosition s;
     head_children := head_children s; body_children := body_children s;
     elements := v; fresh := fresh s; mousemove := mousemove s;
     timeouts := timeouts s; clock := clock s; store := store s |}.
Definition set_fresh v s :=
  {| style := style s; cursor := cursor s; trail := trail s;
     boundUpdateMousePosition := boundUpdateMousePosition s;
     head_children := head_children s; body_children := body_children s;
     elements := elements s; fresh := v; mousemove := mousemove s;
     timeouts := timeouts s; clock := clock s; store := store s |}.
Definition set_mousemove v s :=
  {| style := style s; cursor := cursor s; trail := trail s;
     boundUpdateMousePosition := boundUpdateMousePosition s;
     head_children := head_children s; body_children := body_children s;
     elements := elements s; fresh := fresh s; mousemove := v;
     timeouts := timeouts s; clock := clock s; store := store s |}.
Definition set_timeouts v s :=
  {| style := style s; cursor := cursor s; trail := trail s;
     boundUpdateMousePosition := boundUpdateMousePosition s;
     head_children := head_children s; body_children := body_children s;
     elements := elements s; fresh := fresh s; mousemove := mousemove s;
     timeouts := v; clock := clock s; store := store s |}.
Definition set_clock v s :=
  {| style := style s; cursor := cursor s; trail := trail s;
     boundUpdateMousePosition := boundUpdateMousePosition s;
     head_children := head_children s; body_children := body_children s;
     elements := elements s; fresh := fresh s; mousemove := mousemove s;
     timeouts := timeouts s; clock := v; store := store s |}.
Definition set_store v s :=
  {| style := style s; cursor := cursor s; trail := trail s;
     boundUpdateMousePosition := boundUpdateMousePosition s;
     head_children := head_children s; body_children := body_children s;
     elements := elements s; fresh := fresh s; mousemove := mousemove s;
     timeouts := timeouts s; clock := clock s; store := v |}.

(** How a call ends: normally, or by an exception that leaves the function at
    that point.  Both carry the state reached. *)
Inductive completion := Normal (s : state) | Throw (s : state).

Definition settle (c : completion) : state :=
  match c with Normal s => s | Throw s => s end.

Definition and_then (c : completion) (k : state -> completion) : completion :=
  match c with Normal s => k s | Throw s => Throw s end.

(** ** DOM operations *)

Definition without (n : nat) (l : list nat) : list nat :=
  filter (λ d, d ≠ n) l.

Definition children (p : Container) (s : state) : option (list nat) :=
  match p with Head => head_children s | Body => body_children s end.

Definition set_children (p : Container) (l : list nat) (s : state) : state :=
  match p with Head => set_head (Some l) s | Body => set_body (Some l) s end.

Definition head_nodes (s : state) : list nat := default [] (head_children s).
Definition body_nodes (s : state) : list nat := default [] (body_children s).

(** [n.parentNode] *)
Definition parentNode (n : nat) (s : state) : option Container :=
  if decide (n ∈ head_nodes s) then Some Head
  else if decide (n ∈ body_nodes s) then Some Body
  else None.

(** The test [if (n?.parentNode)]. *)
Definition hasParent (n : nat) (s : state) : bool :=
  match parentNode n s with Some _ => true | None => false end.

(** [document.createElement(tag)] *)
Definition createElement (tag : string) (s : state) : nat * state :=
  (fresh s,
   set_fresh (S (fresh s)) (set_elements (<[fresh s := blank tag]> (elements s)) s)).

(** A property write on the object [n]. *)
Definition update (n : nat) (f : Element -> Element) (s : state) : state :=
  set_elements (alter f n (elements s)) s.

(** [n.remove()]: detaches [n] from its parent, if it has one. *)
Definition remove (n : nat) (s : state) : state :=
  set_body (without n <$> body_children s)
    (set_head (without n <$> head_children s) s).

(** The idiom [if (n?.parentNode) n.remove()]. *)
Definition detach (n : nat) (s : state) : state :=
  if hasParent n s then remove n s else s.

(** [p.appendChild(n)] on [document.head] or [document.body]: a null receiver
    is a TypeError; a node that has a parent is moved. *)
Definition appendChild (p : Container) (n : nat) (s : state) : completion :=
  match children p s with
  | None => Throw s
  | Some _ =>
      let s := remove n s in
      Normal (set_children p (default [] (children p s) ++ [n]) s)
  end.

(** [p.removeChild(n)]: NotFoundError when [n] is not a child of [p]. *)
Definition removeChild (p : Container) (n : nat) (s : state) : completion :=
  match children p s with
  | None => Throw s
  | Some l => if decide (n ∈ l) then Normal (set_children p (without n l) s)
              else Throw s
  end.

(** [document.addEventListener("mousemove", f)]: a listener already
    registered is not added again. *)
Definition addEventListener (f : nat) (s : state) : state :=
  if decide (f ∈ mousemove s) then s else set_mousemove (mousemove s ++ [f]) s.

Definition removeEventListener (f : nat) (s : state) : state :=
  set_mousemove (without f (mousemove s)) s.

(** [setTimeout(callback, delay)] for the callback that closes over [dot]. *)
Definition setTimeout (dot delay : nat) (s : state) : state :=
  set_timeouts (timeouts s ++ [(clock s + delay, dot)]) s.

Record MouseEvent := { clientX : float; clientY : float }.

(** ** The plugin *)

Section Plugin.
Context `{Runtime}.

Definition updateStyles (s : state) : state :=
  match style s with
  | None => s
  | Some st =>
      match store s with
      | None => s
      | Some settings =>
          update st (with_textContent (stylesheet settings)) s
      end
  end.

(** The arrow function handed to [setTimeout] in [updateMousePosition]. *)
Definition expire (dot : nat) (s : state) : state :=
  let s := detach dot s in
  set_trail (filter (λ d, d ≠ dot) (trail s)) s.

(** Lines 165-170: the length check after the push. *)
Definition evict (settings : MouseOverlaySettings) (s : state) : state :=
  if Num.gt (Num.of_nat (length (trail s)))
            (settings.(trailLength) ?? defaultSettings.trailLength)
  then
    let s := match trail s with
             | d0 :: _ => detach d0 s
             | [] => s
             end in
    set_trail (tail (trail s)) s
  else s.

Definition updateMousePosition (e : MouseEvent) (s : state) : completion :=
  match cursor s with
  | None => Normal s
  | Some c =>
      match store s with
      | None => Normal s
      | Some settings =>
          let cursorSize := settings.(cursorSize) ?? defaultSettings.cursorSize in
          let s := update c (with_transform
                     (css_translate
                        (Num.sub (clientX e) (Num.div cursorSize 2))
                        (Num.sub (clientY e) (Num.div cursorSize 2)))) s in
          if truthy settings.(trailEnabled) then
            let '(dot, s) := createElement "div" s in
            let s := update dot (with_className "mouse-trail") s in
            let s := update dot (with_left
                       (px (Num.sub (clientX e) (Num.div cursorSize 4)))) s in
            let s := update dot (with_top
                       (px (Num.sub (clientY e) (Num.div cursorSize 4)))) s in
            and_then (appendChild Body dot s) (λ s,
              let s := set_trail (trail s ++ [dot]) s in
              let s := evict settings s in
              Normal (setTimeout dot 100 s))
          else Normal s
      end
  end.

(** The objects after the overlay was moved and a dot created and styled
    (lines 155-161). *)
Definition spawned_elements (e : MouseEvent) (settings : MouseOverlaySettings)
    (c : nat) (s : state) : gmap nat Element :=
  let cursorSize := settings.(cursorSize) ?? defaultSettings.cursorSize in
  elements
    (update (fresh s) (with_top
               (px (Num.sub (clientY e) (Num.div cursorSize 4))))
    (update (fresh s) (with_left
               (px (Num.sub (clientX e) (Num.div cursorSize 4))))
    (update (fresh s) (with_className "mouse-trail")
    (createElement "div"
      (update c (with_transform
         (css_translate (Num.sub (clientX e) (Num.div cursorSize 2))
                        (Num.sub (clientY e) (Num.div cursorSize 2)))) s)).2))).

(** The state after lines 185-187 of [start]: both elements created and
    stored, the overlay named. *)
Definition created (s : state) : state :=
  update (S (fresh s)) (with_id "vencord-mouse-overlay")
    (set_cursor (Some (S (fresh s)))
       (createElement "div"
          (set_style (Some (fresh s)) (createElement "style" s).2)).2).

Definition start (s : state) : completion :=
  match body_children s with
  | None => Normal s
  | Some _ =>
      let '(st, s) := createElement "style" s in
      let s := set_style (Some st) s in
      let '(c, s) := createElement "div" s in
      let s := set_cursor (Some c) s in
      let s := update c (with_id "vencord-mouse-overlay") s in
      and_then (appendChild Head st s) (λ s,
      and_then (appendChild Body c s) (λ s,
        let s := updateStyles s in
        (* [bind] makes a new function object *)
        let f := fresh s in
        let s := set_bound (Some f) (set_fresh (S f) s) in
        Normal (match boundUpdateMousePosition s with
                | Some f => addEventListener f s
                | None => s
                end)))
  end.

(** [trail.forEach(dot => dot?.parentNode?.removeChild(dot))] *)
Fixpoint forEach_removeChild (dots : list nat) (s : state) : completion :=
  match dots with
  | [] => Normal s
  | dot :: rest =>
      and_then (match parentNode dot s with
                | Some p => removeChild p dot s
                | None => Normal s
                end)
               (forEach_removeChild rest)
  end.

Definition stop (s : state) : completion :=
  let s := match boundUpdateMousePosition s with
           | Some f => set_bound None (removeEventListener f s)
           | None => s
           end in
  let s := match style s with
           | Some st => detach st s
           | None => s
           end in
  let s := match cursor s with
           | Some c => detach c s
           | None => s
           end in
  and_then (forEach_removeChild (trail s) s) (λ s,
    let s := set_trail [] s in
    let s := set_style None s in
    Normal (set_cursor None s)).

(** What [stop] does before it touches the document and the nodes it then
    takes off the surface, in that order. *)
Definition unbind (s : state) : state :=
  match boundUpdateMousePosition s with
  | Some f => set_bound None (removeEventListener f s)
  | None => s
  end.

Definition doomed (s : state) : list nat :=
  option_list (style s) ++ option_list (cursor s) ++ trail s.

Definition remove_all (ns : list nat) (s : state) : state :=
  foldl (λ s n, remove n s) s ns.

(** A call of a callback body with [this] bound to the receiver.  The call
    [this.updateStyles()] is a TypeError when [this] has no such property;
    the one object that has it is the plugin, and its method is
    [updateStyles]. *)
Definition call (cb : Callback) (this : Receiver) (s : state) : completion :=
  match cb with
  | CallUpdateStyles =>
      if bool_decide ("updateStyles" ∈ properties this)
      then Normal (updateStyles s)
      else Throw s
  end.

(** The change callback of the option [k], when its descriptor has one,
    called on [this]. *)
Definition notify (this : Receiver) (k : OptionKey) (s : state) : completion :=
  match onChange k with
  | Some cb => call cb this s
  | None => Normal s
  end.

(** ** The event loop *)

(** [Start] and [Stop] are the host's calls [plugin.start()] and
    [plugin.stop()], whose [this] is the plugin object.  [OptionChanged this k]
    is a call of the change callback of option [k] on [this]: the callbacks
    are stored on the descriptors, and on what they are called is the
    caller's choice. *)
Inductive event :=
  | Start
  | Stop
  | MouseMove (e : MouseEvent)
  | Timeout (i : nat)
  | Elapse (dt : nat)
  | SettingsWrite (v : option MouseOverlaySettings)
  | OptionChanged (this : Receiver) (k : OptionKey).

(** A mousemove event reaches every registered listener; each of them is a
    bound copy of [updateMousePosition].  An exception in one listener is
    reported and the next one still runs. *)
Fixpoint dispatch (e : MouseEvent) (listeners : list nat) (s : state)
  : completion :=
  match listeners with
  | [] => Normal s
  | _ :: rest =>
      match updateMousePosition e s with
      | Normal s => dispatch e rest s
      | Throw s => Throw (settle (dispatch e rest s))
      end
  end.

Definition handle (ev : event) (s : state) : completion :=
  match ev with
  | Start => start s
  | Stop => stop s
  | MouseMove e => dispatch e (mousemove s) s
  | Timeout i =>
      match timeouts s !! i with
      | Some (_, dot) => Normal (expire dot (set_timeouts (delete i (timeouts s)) s))
      | None => Normal s
      end
  | Elapse dt => Normal (set_clock (clock s + dt) s)
  | SettingsWrite v => Normal (set_store v s)
  | OptionChanged this k => notify this k s
  end.

Definition step (ev : event) (s : state) : state := settle (handle ev s).

Definition exec (evs : list event) (s : state) : state :=
  foldl (λ s ev, step ev s) s evs.

(** The state when the module is loaded: [style = null], [cursor = null],
    [trail = []], no listener; [has_head] and [has_body] say whether the
    document has a head and a body. *)
Definition initial (has_head has_body : bool)
    (settings : option MouseOverlaySettings) : state :=
  {| style := None; cursor := None; trail := [];
     boundUpdateMousePosition := None;
     head_children := if has_head then Some [] else None;
     body_children := if has_body then Some [] else None;
     elements := ∅; fresh := 0; mousemove := [];
     timeouts := []; clock := 0; store := settings |}.

End Plugin.

(** ** What is on the surface *)

(** Everything attached to the document head or body. *)
Definition attached_nodes (s : state) : list nat := head_nodes s ++ body_nodes s.

Definition is_trail_dot (s : state) (n : nat) : Prop :=
  className <$> elements s !! n = Some "mouse-trail".
Definition is_overlay (s : state) (n : nat) : Prop :=
  elem_id <$> elements s !! n = Some "vencord-mouse-overlay".
Definition is_stylesheet (s : state) (n : nat) : Prop :=
  tagName <$> elements s !! n = Some "style".

#[global] Instance is_trail_dot_dec s n : Decision (is_trail_dot s n).
Proof. unfold is_trail_dot. apply _. Defined.
#[global] Instance is_overlay_dec s n : Decision (is_overlay s n).
Proof. unfold is_overlay. apply _. Defined.
#[global] Instance is_stylesheet_dec s n : Decision (is_stylesheet s n).
Proof. unfold is_stylesheet. apply _. Defined.

Definition trail_dot_nodes (s : state) : list nat :=
  filter (is_trail_dot s) (attached_nodes s).
Definition overlay_nodes (s : state) : list nat :=
  filter (is_overlay s) (attached_nodes s).
Definition stylesheet_nodes (s : state) : list nat :=
  filter (is_stylesheet s) (attached_nodes s).

(** ** Invariants of the reachable states *)

(** Names in use are below [fresh]; the body lists no node twice; the trail
    dots on the surface are exactly the queue, in queue order; an overlay
    node that exists is a registered object, and the document then has a
    body. *)
Record wf (s : state) : Prop := {
  wf_fresh : Forall (λ n, n < fresh s) (attached_nodes s);
  wf_nodup : NoDup (body_nodes s);
  wf_body_dots : filter (is_trail_dot s) (body_nodes s) = trail s;
  wf_head_dots : filter (is_trail_dot s) (head_nodes s) = [];
  wf_cursor : ∀ c, cursor s = Some c →
      c < fresh s ∧ is_Some (elements s !! c) ∧ is_Some (body_children s)
}.

(** What holds in addition when the host starts the plugin only while no
    listener is subscribed: the head holds at most the current stylesheet
    node, the body besides the queue at most the current overlay node, the
    only listener is the stored one, and without a stored listener nothing is
    attached. *)
Record tidy (s : state) : Prop := {
  tidy_head : ∀ n, n ∈ head_nodes s → style s = Some n;
  tidy_body : ∀ n, n ∈ body_nodes s → cursor s = Some n ∨ n ∈ trail s;
  tidy_listeners : ∀ f, f ∈ mousemove s → boundUpdateMousePosition s = Some f;
  tidy_idle : boundUpdateMousePosition s = None →
      attached_nodes s = [] ∧ trail s = []
}.

(** [s'] differs from [s] at most in the [style.transform] of the overlay
    node. *)
Record transform_only (s s' : state) : Prop := {
  to_style : style s' = style s;
  to_cursor : cursor s' = cursor s;
  to_trail : trail s' = trail s;
  to_bound : boundUpdateMousePosition s' = boundUpdateMousePosition s;
  to_head : head_children s' = head_children s;
  to_body : body_children s' = body_children s;
  to_fresh : fresh s' = fresh s;
  to_mousemove : mousemove s' = mousemove s;
  to_timeouts : timeouts s' = timeouts s;
  to_clock : clock s' = clock s;
  to_store : store s' = store s;
  to_others : ∀ n, cursor s ≠ Some n → elements s' !! n = elements s !! n;
  to_overlay : ∀ n, with_transform EmptyString <$> elements s' !! n
                    = with_transform EmptyString <$> elements s !! n
}.

(** A state in which pointer moves feed a queue capped at [N]. *)
Definition armed (N : nat) (s : state) : Prop :=
  wf s ∧ is_Some (cursor s)
  ∧ ∃ settings, store s = Some settings
      ∧ truthy settings.(trailEnabled) = true
      ∧ settings.(trailLength) = Some (Num.of_nat N).

Section Protocols.
Context `{Runtime}.

(** The host's pairing of [start] and [stop]: [start] is called only while
    the plugin holds no listener. *)
Definition host_allows (ev : event) (s : state) : bool :=
  match ev with
  | Start => bool_decide (boundUpdateMousePosition s = None)
  | _ => true
  end.

(** The event loop runs a timeout callback no later than its due time: the
    clock does not move past a pending timeout. *)
Definition punctual (ev : event) (s : state) : bool :=
  match ev with
  | Elapse dt => forallb (λ t, (clock s + dt <=? t.1)%nat) (timeouts s)
  | _ => true
  end.

(** [allowed ok evs s]: every event of the run [evs] from [s] satisfies
    [ok] in the state it is delivered to. *)
Fixpoint allowed (ok : event -> state -> bool) (evs : list event) (s : state)
  : bool :=
  match evs with
  | [] => true
  | ev :: rest => ok ev s && allowed ok rest (step ev s)
  end.

(** Every settings object of the run keeps [trailLength] at or below [B]. *)
Definition length_capped (B : Q) (v : option MouseOverlaySettings) : Prop :=
  match v with
  | Some settings => (settings.(trailLength) ?? defaultSettings.trailLength <= B)%Q
  | None => True
  end.

Definition writes_capped (B : Q) (ev : event) : Prop :=
  match ev with
  | SettingsWrite v => length_capped B v
  | _ => True
  end.
End Protocols.

(** The bound kept by every step: the settings in force and the queue are
    both within [B]. *)
Definition within (B : Q) (s : state) : Prop :=
  length_capped B (store s) ∧ (Num.of_nat (length (trail s)) <= B)%Q.

(** From [s] to [s'] nodes were attached or queued only under new names, no
    pending timeout was dropped and the clock stood still. *)
Record grows (s s' : state) : Prop := {
  grows_attached : ∀ n, n ∈ attached_nodes s' →
      n ∈ attached_nodes s ∨ (fresh s ≤ n)%nat;
  grows_trail : ∀ n, n ∈ trail s' → n ∈ trail s ∨ (fresh s ≤ n)%nat;
  grows_timeouts : ∀ t, t ∈ timeouts s → t ∈ timeouts s';
  grows_clock : clock s' = clock s;
  grows_fresh : (fresh s ≤ fresh s')%nat
}.

(** The dot [dot] is an old name and, while it is on the surface or in the
    queue, its timeout due at [T] is pending and [T] has not passed. *)
Definition pending (T dot : nat) (s : state) : Prop :=
  (dot < fresh s)%nat
  ∧ (dot ∈ attached_nodes s ∨ dot ∈ trail s →
     (T, dot) ∈ timeouts s ∧ (clock s ≤ T)%nat).

Definition with_cursorColor (v : option string) (c : MouseOverlaySettings)
  : MouseOverlaySettings :=
  {| cursorSize := cursorSize c; cursorColor := v;
     trailEnabled := trailEnabled c; trailColor := trailColor c;
     trailLength := trailLength c; cursorStyle := cursorStyle c |}.

(** ** Worked scenarios *)

(** The rational a finite binary64 value denotes. *)
Definition rational (sign : bool) (m : positive) (e : Z) : Q :=
  Qred (inject_Z (if sign then Z.neg m else Z.pos m) * 2 ^ e).

(** A rendering of numbers for the scenarios below; it is the runtime's on
    the integers below 10^21, which is all they use. *)
Definition decimal (n : float) : string :=
  match Prim2SF n with
  | S754_zero _ => "0"
  | S754_infinity sign => if sign then "-Infinity" else "Infinity"
  | S754_nan => "NaN"
  | S754_finite sign m e =>
      let q := rational sign m e in
      if (Z.pos (Qden q) =? 1)%Z then pretty (Qnum q)
      else pretty (Qnum q) +:+ "/" +:+ pretty (Z.pos (Qden q))
  end.

Definition demo_runtime : Runtime := {| num_to_string := decimal |}.

Definition demo_settings (enabled : bool) (len : Q) (sty : string)
  : MouseOverlaySettings :=
  {| cursorSize := Some 20%float; cursorColor := Some "#ff0000";
     trailEnabled := Some enabled; trailColor := Some "#00ff00";
     trailLength := Some len; cursorStyle := Some sty |}.

Definition move (x y : float) : event := MouseMove {| clientX := x; clientY := y |}.


(** The settings of the scenarios with the trail on and [trailLength = len]. *)
Definition trail_on (len : Q) : option MouseOverlaySettings :=
  Some (demo_settings true len "circle").

(** Three fast moves under [trailLength = 3], then the setting is lowered to
    1 and the pointer moves once more. *)
Definition lowered_run : list event :=
  [Start; move 10 10; move 20 20; move 30 30;
   SettingsWrite (trail_on 1); move 40 40].

(** Three fast moves under [trailLength = 2]: the first dot is evicted. *)
Definition overflow_run : list event :=
  [Start; move 10 10; move 20 20; move 30 30].

(** A started plugin whose cursor colour was then changed in the store. *)
Definition recoloured : state :=
  exec (H := demo_runtime)
    [Start; SettingsWrite (Some (demo_settings false 5 "circle"))]
    (initial true true (Some (demo_settings false 5 "custom"))).

(** ** Further invariants of the reachable states *)

(** The tag, the id and the class of an object; none of them is written after
    the lines that create the object. *)
Definition kind_of (m : gmap nat Element) (n : nat)
  : option (string * string * string) :=
  (λ e, (tagName e, elem_id e, className e)) <$> m !! n.

Definition kind (s : state) (n : nat) : option (string * string * string) :=
  kind_of (elements s) n.

Definition dot_kind : string * string * string :=
  ("div", EmptyString, "mouse-trail").
Definition overlay_kind : string * string * string :=
  ("div", "vencord-mouse-overlay", EmptyString).
Definition style_kind : string * string * string :=
  ("style", EmptyString, EmptyString).

(** Queued dots and the targets of pending timeouts are [div.mouse-trail]
    objects, the stored stylesheet node is a [style] element and the stored
    overlay node is the [div] with the overlay id. *)
Record shaped (s : state) : Prop := {
  shaped_trail : ∀ d, d ∈ trail s → kind s d = Some dot_kind;
  shaped_timeouts : ∀ t, t ∈ timeouts s →
      kind s t.2 = Some dot_kind ∧ (t.2 < fresh s)%nat;
  shaped_style : ∀ st, style s = Some st →
      (st < fresh s)%nat ∧ kind s st = Some style_kind;
  shaped_cursor : ∀ c, cursor s = Some c → kind s c = Some overlay_kind
}.

(** While a listener is held, the head holds the stored stylesheet node and
    nothing else, the stored overlay node is in the body and the held
    listener is the only one subscribed. *)
Definition anchored (s : state) : Prop :=
  ∀ f, boundUpdateMousePosition s = Some f →
    ∃ st c, style s = Some st ∧ cursor s = Some c
            ∧ head_nodes s = [st] ∧ c ∈ body_nodes s ∧ mousemove s = [f].

(** Every queued dot has a pending timeout, and no pending timeout is due
    more than 100 ms from now. *)
Definition scheduled (s : state) : Prop :=
  (∀ d, d ∈ trail s → ∃ due, (due, d) ∈ timeouts s)
  ∧ (∀ t, t ∈ timeouts s → (t.1 ≤ clock s + 100)%nat).

(** A list of names in strictly increasing order, which is the order of
    creation. *)
Fixpoint ascending (l : list nat) : Prop :=
  match l with
  | [] => True
  | x :: rest => Forall (λ y, (x < y)%nat) rest ∧ ascending rest
  end.

(** * Properties *)

Local Open Scope nat_scope.
Local Open Scope list_scope.

(** The template texts stay folded during simplification. *)
Arguments stylesheet : simpl never.
Arguments css_text : simpl never.
Arguments css_translate : simpl never.
Arguments px : simpl never.
Arguments updateStyles : simpl never.
Arguments notify : simpl never.

(** ** Lists *)

Lemma without_notin (n : nat) (l : list nat) : n ∉ l → without n l = l.
Proof.
  induction l as [|x l IH]; intros Hn; [done|].
  unfold without in *. rewrite filter_cons.
  apply not_elem_of_cons in Hn as [Hx Hl].
  rewrite decide_True by congruence. by rewrite IH.
Qed.

Lemma without_cons_nodup (d : nat) (l : list nat) :
  NoDup (d :: l) → without d (d :: l) = l.
Proof.
  intros [Hd _]%NoDup_cons. unfold without. rewrite filter_cons.
  rewrite decide_False by (intros ?; congruence).
  by apply without_notin.
Qed.

Lemma filter_without (P : nat → Prop) `{∀ x, Decision (P x)} n l :
  filter P (without n l) = without n (filter P l).
Proof.
  unfold without. induction l as [|x l IH]; [done|].
  rewrite !filter_cons.
  destruct (decide (x ≠ n)), (decide (P x)); rewrite ?filter_cons;
    rewrite ?decide_True by done; rewrite ?decide_False by done;
    by rewrite IH.
Qed.

Lemma filter_agree (P Q : nat → Prop) `{∀ x, Decision (P x)}
    `{∀ x, Decision (Q x)} (l : list nat) :
  Forall (λ x, P x ↔ Q x) l → filter P l = filter Q l.
Proof.
  induction 1 as [|x l Hx _ IH]; [done|].
  rewrite !filter_cons, IH.
  destruct (decide (P x)), (decide (Q x)); tauto.
Qed.

Lemma elem_of_without (n x : nat) (l : list nat) :
  x ∈ without n l ↔ x ∈ l ∧ x ≠ n.
Proof. unfold without. rewrite list_elem_of_filter. tauto. Qed.

Lemma length_without (n : nat) (l : list nat) : length (without n l) ≤ length l.
Proof. apply length_filter. Qed.

Lemma Forall_without (P : nat → Prop) (n : nat) (l : list nat) :
  Forall P l → Forall P (without n l).
Proof.
  rewrite !Forall_forall. intros Hl x [Hx _]%elem_of_without. by apply Hl.
Qed.

(** Reads of the node lists through a write to another field. *)
Ltac frame :=
  repeat match goal with
  | |- context [head_nodes (?g ?v ?s)] =>
      change (head_nodes (g v s)) with (head_nodes s)
  | |- context [body_nodes (?g ?v ?s)] =>
      change (body_nodes (g v s)) with (body_nodes s)
  | |- context [attached_nodes (?g ?v ?s)] =>
      change (attached_nodes (g v s)) with (attached_nodes s)
  end.

Section Facts.
Context `{Runtime}.

(** ** The stylesheet *)

Lemma overlay_visual_image (sty col : string) :
  sty ≠ "circle" → overlay_visual sty col = image_block.
Proof.
  intros Hs. unfold overlay_visual.
  destruct (String.eqb_spec sty "circle"); [done|reflexivity].
Qed.

(** C9.  When the effective cursor style is not the circle (in particular
    when it is the custom image style), the stylesheet text is the same for
    any two values of cursorColor, so is the document after [updateStyles],
    and the overlay rule carries the fixed image block built from
    [CURSOR_URL]. *)
Theorem custom_image_ignores_cursorColor
    (settings : MouseOverlaySettings) (c1 c2 : option string) (s : state) :
  settings.(cursorStyle) ?? defaultSettings.cursorStyle ≠ "circle" →
  stylesheet (with_cursorColor c1 settings)
    = stylesheet (with_cursorColor c2 settings)
  ∧ elements (updateStyles (set_store (Some (with_cursorColor c1 settings)) s))
    = elements (updateStyles (set_store (Some (with_cursorColor c2 settings)) s))
  ∧ overlay_visual (settings.(cursorStyle) ?? defaultSettings.cursorStyle)
      (c1 ?? defaultSettings.cursorColor) = image_block.
Proof.
  intros Hsty.
  assert (Heq : stylesheet (with_cursorColor c1 settings)
                = stylesheet (with_cursorColor c2 settings)).
  { unfold stylesheet, css_text; simpl.
    by rewrite !(overlay_visual_image _ _ Hsty). }
  split; [exact Heq|split].
  - unfold updateStyles; simpl. destruct (style s); [|done].
    unfold update; simpl. by rewrite Heq.
  - by apply overlay_visual_image.
Qed.

(** C10.  Two settings objects whose cursorSize, cursorColor, trailColor
    and cursorStyle agree after the fallback to the defaults give the same
    stylesheet text, whatever their trailEnabled and trailLength; and
    [updateStyles] then leaves the same objects behind. *)
Theorem stylesheet_depends_on_four_fields
    (a b : MouseOverlaySettings) (s : state) :
  a.(cursorSize) ?? defaultSettings.cursorSize
    = b.(cursorSize) ?? defaultSettings.cursorSize →
  a.(cursorColor) ?? defaultSettings.cursorColor
    = b.(cursorColor) ?? defaultSettings.cursorColor →
  a.(trailColor) ?? defaultSettings.trailColor
    = b.(trailColor) ?? defaultSettings.trailColor →
  a.(cursorStyle) ?? defaultSettings.cursorStyle
    = b.(cursorStyle) ?? defaultSettings.cursorStyle →
  stylesheet a = stylesheet b
  ∧ elements (updateStyles (set_store (Some a) s))
    = elements (updateStyles (set_store (Some b) s)).
Proof.
  intros Hsize Hcol Htrail Hsty.
  assert (Heq : stylesheet a = stylesheet b).
  { unfold stylesheet. by rewrite Hsize, Hcol, Htrail, Hsty. }
  split; [exact Heq|].
  unfold updateStyles; simpl. destruct (style s); [|done].
  unfold update; simpl. by rewrite Heq.
Qed.

(** ** Change callbacks *)

Lemma properties_updateStyles (this : Receiver) :
  "updateStyles" ∈ properties this ↔ this = ThePlugin.
Proof.
  split; [|by intros ->; apply (bool_decide_unpack _)].
  destruct this as [|k|]; [done| |by intros ?%elem_of_nil].
  intros Hin. exfalso. revert Hin. apply (bool_decide_unpack _).
  by destruct k.
Qed.

(** A callback called on the plugin object is a call of [updateStyles]; on
    anything else it throws before it has done anything. *)
Lemma call_cases (cb : Callback) (this : Receiver) (s : state) :
  (this = ThePlugin ∧ call cb this s = Normal (updateStyles s))
  ∨ (this ≠ ThePlugin ∧ call cb this s = Throw s).
Proof.
  destruct cb. unfold call. case_bool_decide as Hin.
  - left. by apply properties_updateStyles in Hin.
  - right. by rewrite properties_updateStyles in Hin.
Qed.

Lemma settle_notify (this : Receiver) (k : OptionKey) (s : state) :
  settle (notify this k s) = s ∨ settle (notify this k s) = updateStyles s.
Proof.
  unfold notify. destruct (onChange k) as [cb|]; [|by left].
  destruct (call_cases cb this s) as [[_ ->]|[_ ->]]; [by right|by left].
Qed.

(** Called the way a method of its descriptor is called,
    [options.<key>.onChange(v)], a callback throws before it has done
    anything: the descriptor has no [updateStyles]. *)
Lemma callback_on_descriptor_throws (k : OptionKey) (s : state) :
  is_Some (onChange k) → handle (OptionChanged (TheOption k) k) s = Throw s.
Proof.
  intros [cb Hcb]. cbn [handle]. unfold notify. rewrite Hcb.
  by destruct (call_cases cb (TheOption k) s) as [[? _]|[_ ->]].
Qed.

(** C1 (amended).  The descriptors of cursorStyle, cursorSize, cursorColor
    and trailColor carry a change callback whose body calls [updateStyles]
    on the object the callback is called on.  Called on the plugin object
    it completes normally and is a call of [updateStyles]: once new settings
    are stored and the callback has run, the stylesheet node holds the text
    of the new settings and is otherwise what it was, and no other object
    has changed.  The descriptors of trailEnabled and trailLength carry no
    callback, so a change of either, whatever it is notified on, only
    replaces the stored settings and leaves the rest of the plugin state as
    it is. *)
Theorem change_callbacks
    (k : OptionKey) (s : state) (v : MouseOverlaySettings) (st : nat)
    (sheet : Element) :
  style s = Some st → elements s !! st = Some sheet →
  match k with
  | KtrailEnabled | KtrailLength =>
      ∀ this,
        handle (OptionChanged this k) (set_store (Some v) s)
          = Normal (set_store (Some v) s)
        ∧ exec [SettingsWrite (Some v); OptionChanged this k] s
          = set_store (Some v) s
  | _ =>
      ∃ s',
        handle (OptionChanged ThePlugin k) (set_store (Some v) s) = Normal s'
        ∧ exec [SettingsWrite (Some v); OptionChanged ThePlugin k] s = s'
        ∧ s' = updateStyles (set_store (Some v) s)
        ∧ (∃ sheet', elements s' !! st = Some sheet'
             ∧ textContent sheet' = stylesheet v
             ∧ tagName sheet' = tagName sheet
             ∧ elem_id sheet' = elem_id sheet
             ∧ className sheet' = className sheet)
        ∧ (∀ n, n ≠ st → elements s' !! n = elements s !! n)
  end.
Proof.
  intros Hst Hel.
  assert (Hup : updateStyles (set_store (Some v) s)
                = update st (with_textContent (stylesheet v))
                    (set_store (Some v) s)).
  { unfold updateStyles. cbn [style store set_store]. by rewrite Hst. }
  assert (Hcall : ∀ k', is_Some (onChange k') →
            notify ThePlugin k' (set_store (Some v) s)
            = Normal (updateStyles (set_store (Some v) s))).
  { intros k' [cb Hcb]. unfold notify. rewrite Hcb.
    by destruct (call_cases cb ThePlugin (set_store (Some v) s))
      as [[_ ->]|[? _]]. }
  assert (Hrun : ∀ k', is_Some (onChange k') →
            exec [SettingsWrite (Some v); OptionChanged ThePlugin k'] s
            = updateStyles (set_store (Some v) s)).
  { intros k' Hk. unfold exec. cbn [foldl]. unfold step at 1. cbn [handle].
    by rewrite Hcall. }
  assert (Hnew : ∃ sheet',
            elements (updateStyles (set_store (Some v) s)) !! st = Some sheet'
            ∧ textContent sheet' = stylesheet v
            ∧ tagName sheet' = tagName sheet
            ∧ elem_id sheet' = elem_id sheet
            ∧ className sheet' = className sheet).
  { exists (with_textContent (stylesheet v) sheet). rewrite Hup.
    unfold update. cbn [elements set_elements set_store].
    by rewrite lookup_alter_eq, Hel. }
  assert (Hrest : ∀ n, n ≠ st →
            elements (updateStyles (set_store (Some v) s)) !! n
            = elements s !! n).
  { intros n Hn. rewrite Hup. unfold update.
    cbn [elements set_elements set_store]. by rewrite lookup_alter_ne. }
  destruct k;
    first [ intros this; split; reflexivity
          | eexists; split; [apply Hcall; by eexists|];
            split; [apply Hrun; by eexists|];
            split; [reflexivity|]; split; [exact Hnew|exact Hrest] ].
Qed.

(** ** Primitive operations *)

Lemma hasParent_spec (n : nat) (s : state) :
  hasParent n s = true ↔ n ∈ attached_nodes s.
Proof.
  unfold hasParent, parentNode, attached_nodes. rewrite elem_of_app.
  repeat case_decide; split; intros; try done; tauto.
Qed.

Lemma hasParent_false (n : nat) (s : state) :
  hasParent n s = false ↔ (n ∉ head_nodes s) ∧ (n ∉ body_nodes s).
Proof.
  unfold hasParent, parentNode.
  repeat case_decide; split; intros; try done; tauto.
Qed.

Lemma without_kids_notin (n : nat) (o : option (list nat)) :
  n ∉ default [] o → without n <$> o = o.
Proof. destruct o; simpl; [|done]. intros ?. by rewrite without_notin. Qed.

Lemma default_without (n : nat) (o : option (list nat)) :
  default [] (without n <$> o) = without n (default [] o).
Proof. by destruct o. Qed.

Lemma remove_not_attached (n : nat) (s : state) :
  hasParent n s = false → remove n s = s.
Proof.
  intros [Hh Hb]%hasParent_false. destruct s. unfold remove; simpl in *.
  unfold head_nodes, body_nodes in *; simpl in *.
  unfold set_body, set_head; simpl.
  by rewrite !without_kids_notin.
Qed.

Lemma detach_remove (n : nat) (s : state) : detach n s = remove n s.
Proof.
  unfold detach. destruct (hasParent n s) eqn:E; [done|].
  by rewrite remove_not_attached.
Qed.

Lemma head_nodes_remove n s : head_nodes (remove n s) = without n (head_nodes s).
Proof. apply default_without. Qed.

Lemma body_nodes_remove n s : body_nodes (remove n s) = without n (body_nodes s).
Proof. apply default_without. Qed.

Lemma is_trail_dot_elements (s1 s2 : state) (n : nat) :
  elements s1 !! n = elements s2 !! n → is_trail_dot s1 n ↔ is_trail_dot s2 n.
Proof. unfold is_trail_dot. by intros ->. Qed.

Lemma is_trail_dot_update (f : Element → Element) (m n : nat) (s : state) :
  (∀ e, className (f e) = className e) →
  is_trail_dot (update m f s) n ↔ is_trail_dot s n.
Proof.
  intros Hf. unfold is_trail_dot, update; simpl.
  destruct (decide (m = n)) as [->|Hne].
  - rewrite lookup_alter_eq. destruct (elements s !! n); simpl; [|done].
    by rewrite Hf.
  - by rewrite lookup_alter_ne.
Qed.

Lemma dots_same (s1 s2 : state) (l : list nat) :
  (∀ n, n ∈ l → is_trail_dot s1 n ↔ is_trail_dot s2 n) →
  filter (is_trail_dot s1) l = filter (is_trail_dot s2) l.
Proof. intros Hl. apply filter_agree. by apply Forall_forall. Qed.

(** ** The invariant [wf] *)

Lemma wf_initial hh hb settings : wf (initial hh hb settings).
Proof.
  split; unfold attached_nodes, head_nodes, body_nodes; simpl;
    destruct hh, hb; simpl; try done; try constructor.
Qed.

Lemma wf_trail_attached (s : state) (d : nat) :
  wf s → d ∈ trail s → d ∈ body_nodes s.
Proof.
  intros Hwf Hd. rewrite <- (wf_body_dots s Hwf) in Hd.
  by apply list_elem_of_filter in Hd as [_ ?].
Qed.

Lemma wf_trail_nodup (s : state) : wf s → NoDup (trail s).
Proof.
  intros Hwf. rewrite <- (wf_body_dots s Hwf).
  apply NoDup_filter, (wf_nodup s Hwf).
Qed.

(** Detaching a node and dropping it from the queue. *)
Lemma wf_drop (d : nat) (s : state) :
  wf s → wf (set_trail (without d (trail s)) (remove d s)).
Proof.
  intros Hwf. split.
  - unfold attached_nodes.
    change (Forall (λ n, n < fresh s)
              (head_nodes (remove d s) ++ body_nodes (remove d s))).
    rewrite head_nodes_remove, body_nodes_remove.
    pose proof (wf_fresh s Hwf) as Hf. unfold attached_nodes in Hf.
    apply Forall_app in Hf as [Hh Hb].
    apply Forall_app; split; by apply Forall_without.
  - change (NoDup (body_nodes (remove d s))).
    rewrite body_nodes_remove. apply NoDup_filter, (wf_nodup s Hwf).
  - rewrite (dots_same _ s) by done. frame. simpl.
    rewrite body_nodes_remove, filter_without. by rewrite (wf_body_dots s Hwf).
  - rewrite (dots_same _ s) by done. frame.
    rewrite head_nodes_remove, filter_without. by rewrite (wf_head_dots s Hwf).
  - intros c Hc. simpl in Hc. destruct (wf_cursor s Hwf c Hc) as (?&?&Hb).
    repeat split; try done. simpl. destruct Hb as [l ->]. by eexists.
Qed.

Lemma wf_expire (d : nat) (s : state) : wf s → wf (expire d s).
Proof. intros Hwf. unfold expire. rewrite detach_remove. exact (wf_drop d s Hwf). Qed.


(** [wf] reads six fields only, and [fresh] may grow. *)
Lemma wf_frame (s s' : state) :
  head_children s' = head_children s →
  body_children s' = body_children s →
  trail s' = trail s →
  elements s' = elements s →
  cursor s' = cursor s →
  fresh s ≤ fresh s' →
  wf s → wf s'.
Proof.
  intros Hh Hb Ht He Hc Hf Hwf.
  assert (Hhn : head_nodes s' = head_nodes s) by (unfold head_nodes; by rewrite Hh).
  assert (Hbn : body_nodes s' = body_nodes s) by (unfold body_nodes; by rewrite Hb).
  assert (Hd : ∀ n, is_trail_dot s' n ↔ is_trail_dot s n)
    by (intros n; apply is_trail_dot_elements; by rewrite He).
  split.
  - unfold attached_nodes. rewrite Hhn, Hbn.
    eapply Forall_impl; [apply (wf_fresh s Hwf)|]. simpl; lia.
  - rewrite Hbn. apply (wf_nodup s Hwf).
  - rewrite (dots_same s' s) by (intros; apply Hd).
    rewrite Hbn, Ht. apply (wf_body_dots s Hwf).
  - rewrite (dots_same s' s) by (intros; apply Hd).
    rewrite Hhn. apply (wf_head_dots s Hwf).
  - intros c Hc'. rewrite Hc in Hc'. rewrite He, Hb.
    destruct (wf_cursor s Hwf c Hc') as (?&?&?). repeat split; try done. lia.
Qed.

Lemma wf_update_keep (f : Element → Element) (m : nat) (s : state) :
  (∀ e, className (f e) = className e) → wf s → wf (update m f s).
Proof.
  intros Hf Hwf. split; frame.
  - apply (wf_fresh s Hwf).
  - apply (wf_nodup s Hwf).
  - rewrite (dots_same _ s) by (intros; by apply is_trail_dot_update).
    apply (wf_body_dots s Hwf).
  - rewrite (dots_same _ s) by (intros; by apply is_trail_dot_update).
    apply (wf_head_dots s Hwf).
  - intros c Hc. destruct (wf_cursor s Hwf c Hc) as (?&?&?).
    repeat split; try done. unfold update; simpl.
    by apply lookup_alter_is_Some.
Qed.

Lemma wf_updateStyles (s : state) : wf s → wf (updateStyles s).
Proof.
  intros Hwf. unfold updateStyles.
  destruct (style s); [|done]. destruct (store s); [|done].
  by apply wf_update_keep.
Qed.

Lemma wf_not_attached (s : state) (n : nat) :
  wf s → fresh s ≤ n → n ∉ attached_nodes s.
Proof.
  intros Hwf Hn Hin. pose proof (wf_fresh s Hwf) as Hf.
  rewrite Forall_forall in Hf. specialize (Hf n Hin). simpl in Hf. lia.
Qed.

(** A property write on an object that is not attached. *)
Lemma wf_update_detached (f : Element → Element) (m : nat) (s : state) :
  m ∉ attached_nodes s → wf s → wf (update m f s).
Proof.
  intros Hm Hwf.
  assert (Hd : ∀ n, n ∈ attached_nodes s →
                    is_trail_dot (update m f s) n ↔ is_trail_dot s n).
  { intros n Hn. apply is_trail_dot_elements. unfold update; simpl.
    apply lookup_alter_ne. intros ->. done. }
  split; frame.
  - apply (wf_fresh s Hwf).
  - apply (wf_nodup s Hwf).
  - rewrite (dots_same _ s).
    + apply (wf_body_dots s Hwf).
    + intros n Hn. apply Hd. unfold attached_nodes. rewrite elem_of_app. tauto.
  - rewrite (dots_same _ s).
    + apply (wf_head_dots s Hwf).
    + intros n Hn. apply Hd. unfold attached_nodes. rewrite elem_of_app. tauto.
  - intros c Hc. destruct (wf_cursor s Hwf c Hc) as (?&?&?).
    repeat split; try done. unfold update; simpl.
    by apply lookup_alter_is_Some.
Qed.

Lemma wf_createElement (tag : string) (s : state) :
  wf s → wf (createElement tag s).2.
Proof.
  intros Hwf. unfold createElement; simpl.
  assert (Hd : ∀ n, n ∈ attached_nodes s →
    is_trail_dot (set_fresh (S (fresh s))
      (set_elements (<[fresh s:=blank tag]> (elements s)) s)) n
    ↔ is_trail_dot s n).
  { intros n Hn. apply is_trail_dot_elements; simpl.
    apply lookup_insert_ne. intros Heq.
    apply (wf_not_attached s (fresh s) Hwf); [lia|]. by rewrite Heq. }
  split; frame.
  - eapply Forall_impl; [apply (wf_fresh s Hwf)|]. simpl; lia.
  - apply (wf_nodup s Hwf).
  - rewrite (dots_same _ s).
    + apply (wf_body_dots s Hwf).
    + intros n Hn. apply Hd. unfold attached_nodes. rewrite elem_of_app. tauto.
  - rewrite (dots_same _ s).
    + apply (wf_head_dots s Hwf).
    + intros n Hn. apply Hd. unfold attached_nodes. rewrite elem_of_app. tauto.
  - intros c Hc. destruct (wf_cursor s Hwf c Hc) as (?&?&?).
    repeat split; simpl; try done; [lia|].
    rewrite lookup_insert_ne by lia. done.
Qed.

Lemma set_trail_same (s : state) : set_trail (trail s) s = s.
Proof. by destruct s. Qed.

Lemma wf_evict (settings : MouseOverlaySettings) (s : state) :
  wf s → wf (evict settings s).
Proof.
  intros Hwf. unfold evict.
  destruct (Num.gt _ _); [|done].
  destruct (trail s) as [|d0 t] eqn:Ht.
  - rewrite Ht. simpl. rewrite <- Ht. by rewrite set_trail_same.
  - rewrite detach_remove.
    pose proof (wf_trail_nodup s Hwf) as Hnd. rewrite Ht in Hnd.
    pose proof (wf_drop d0 s Hwf) as Hdrop.
    rewrite Ht, without_cons_nodup in Hdrop by done.
    change (trail (remove d0 s)) with (trail s). rewrite Ht. exact Hdrop.
Qed.


(** Appending a detached node that is not a trail dot. *)
Lemma wf_appendChild (p : Container) (n : nat) (s : state) :
  wf s → n < fresh s → n ∉ attached_nodes s → ¬ is_trail_dot s n →
  wf (settle (appendChild p n s)).
Proof.
  intros Hwf Hn Hout Hnd. unfold appendChild.
  destruct (children p s) as [l|] eqn:Hl; [|done].
  assert (Hrem : remove n s = s).
  { apply remove_not_attached. apply not_true_is_false.
    by rewrite hasParent_spec. }
  cbv zeta. rewrite Hrem, Hl. simpl.
  unfold attached_nodes in Hout. rewrite elem_of_app in Hout.
  pose proof (wf_fresh s Hwf) as Hf. unfold attached_nodes in Hf.
  apply Forall_app in Hf as [Hfh Hfb].
  destruct p; simpl in Hl; unfold set_children.
  - assert (Hhn : head_nodes s = l) by (unfold head_nodes; by rewrite Hl).
    split; unfold attached_nodes; frame.
    + change (head_nodes (set_head (Some (l ++ [n])) s)) with (l ++ [n]).
      rewrite Hhn in Hfh. repeat (apply Forall_app; split); try done.
      by repeat constructor.
    + apply (wf_nodup s Hwf).
    + rewrite (dots_same _ s) by done. apply (wf_body_dots s Hwf).
    + rewrite (dots_same _ s) by done.
      change (head_nodes (set_head (Some (l ++ [n])) s)) with (l ++ [n]).
      rewrite filter_app, <- Hhn, (wf_head_dots s Hwf). simpl.
      rewrite filter_cons, decide_False by done. done.
    + intros c Hc. apply (wf_cursor s Hwf c Hc).
  - assert (Hbn : body_nodes s = l) by (unfold body_nodes; by rewrite Hl).
    split; unfold attached_nodes; frame.
    + change (body_nodes (set_body (Some (l ++ [n])) s)) with (l ++ [n]).
      rewrite Hbn in Hfb. repeat (apply Forall_app; split); try done.
      by repeat constructor.
    + change (body_nodes (set_body (Some (l ++ [n])) s)) with (l ++ [n]).
      apply NoDup_app. rewrite <- Hbn. split; [apply (wf_nodup s Hwf)|].
      split; [|apply NoDup_singleton].
      intros x Hx ->%list_elem_of_singleton. tauto.
    + rewrite (dots_same _ s) by done.
      change (body_nodes (set_body (Some (l ++ [n])) s)) with (l ++ [n]).
      rewrite filter_app, <- Hbn, (wf_body_dots s Hwf). simpl.
      rewrite filter_cons, decide_False by done.
      change (trail s ++ filter (is_trail_dot s) [] = trail s).
      by rewrite filter_nil, app_nil_r.
    + rewrite (dots_same _ s) by done. apply (wf_head_dots s Hwf).
    + intros c Hc. destruct (wf_cursor s Hwf c Hc) as (?&?&?).
      repeat split; try done; simpl; by eexists.
Qed.

(** Appending a detached trail dot to the body and pushing it on the
    queue. *)
Lemma wf_append_push (n : nat) (s : state) :
  wf s → n < fresh s → n ∉ attached_nodes s → is_trail_dot s n →
  wf (settle (and_then (appendChild Body n s)
                (λ s, Normal (set_trail (trail s ++ [n]) s)))).
Proof.
  intros Hwf Hn Hout Hdot. unfold appendChild.
  destruct (children Body s) as [l|] eqn:Hl; [|done].
  assert (Hrem : remove n s = s).
  { apply remove_not_attached. apply not_true_is_false.
    by rewrite hasParent_spec. }
  cbv zeta. rewrite Hrem, Hl. simpl in Hl. simpl. unfold set_children.
  unfold attached_nodes in Hout. rewrite elem_of_app in Hout.
  pose proof (wf_fresh s Hwf) as Hf. unfold attached_nodes in Hf.
  apply Forall_app in Hf as [Hfh Hfb].
  assert (Hbn : body_nodes s = l) by (unfold body_nodes; by rewrite Hl).
  split; unfold attached_nodes; frame.
  - change (body_nodes (set_body (Some (l ++ [n])) s)) with (l ++ [n]).
    rewrite Hbn in Hfb. repeat (apply Forall_app; split); try done.
    by repeat constructor.
  - change (body_nodes (set_body (Some (l ++ [n])) s)) with (l ++ [n]).
    apply NoDup_app. rewrite <- Hbn. split; [apply (wf_nodup s Hwf)|].
    split; [|apply NoDup_singleton].
    intros x Hx ->%list_elem_of_singleton. tauto.
  - rewrite (dots_same _ s) by done.
    change (body_nodes (set_body (Some (l ++ [n])) s)) with (l ++ [n]).
    rewrite filter_app, <- Hbn, (wf_body_dots s Hwf). simpl.
    rewrite filter_cons, decide_True by done. done.
  - rewrite (dots_same _ s) by done. apply (wf_head_dots s Hwf).
  - intros c Hc. destruct (wf_cursor s Hwf c Hc) as (?&?&?).
    repeat split; try done; simpl; by eexists.
Qed.


Lemma appendChild_fresh (p : Container) (n : nat) (s : state) (l : list nat) :
  n ∉ attached_nodes s → children p s = Some l →
  appendChild p n s = Normal (set_children p (l ++ [n]) s).
Proof.
  intros Hout Hl. unfold appendChild. rewrite Hl. cbv zeta.
  rewrite remove_not_attached, Hl; [done|].
  apply not_true_is_false. by rewrite hasParent_spec.
Qed.

Lemma appendChild_null (p : Container) (n : nat) (s : state) :
  children p s = None → appendChild p n s = Throw s.
Proof. intros Hl. unfold appendChild. by rewrite Hl. Qed.

(** ** The shape of a pointer move *)

Lemma evict_cases (settings : MouseOverlaySettings) (s : state) :
  (evict settings s = s
   ∧ (Num.gt (Num.of_nat (length (trail s)))
        (settings.(trailLength) ?? defaultSettings.trailLength) = false
      ∨ trail s = []))
  ∨ (∃ d0 t, trail s = d0 :: t
      ∧ Num.gt (Num.of_nat (length (trail s)))
          (settings.(trailLength) ?? defaultSettings.trailLength) = true
      ∧ evict settings s = set_trail t (remove d0 s)).
Proof.
  unfold evict. destruct (Num.gt _ _); [|left; auto].
  destruct (trail s) as [|d0 t] eqn:Ht.
  - left. split; [|by right]. rewrite Ht. simpl. rewrite <- Ht.
    apply set_trail_same.
  - right. exists d0, t. rewrite detach_remove.
    change (trail (remove d0 s)) with (trail s). by rewrite Ht.
Qed.

Lemma updateMousePosition_idle (e : MouseEvent) (s : state) :
  cursor s = None ∨ store s = None → updateMousePosition e s = Normal s.
Proof.
  unfold updateMousePosition. intros [-> | Hs]; [done|].
  rewrite Hs. by destruct (cursor s).
Qed.

Lemma updateMousePosition_plain (e : MouseEvent) (s : state) c settings :
  cursor s = Some c → store s = Some settings →
  truthy settings.(trailEnabled) = false →
  updateMousePosition e s =
    Normal (update c (with_transform
       (css_translate
          (Num.sub (clientX e)
             (Num.div (settings.(cursorSize) ?? defaultSettings.cursorSize) 2))
          (Num.sub (clientY e)
             (Num.div (settings.(cursorSize) ?? defaultSettings.cursorSize) 2))))
       s).
Proof.
  intros Hc Hs Ht. unfold updateMousePosition.
  rewrite Hc. change (store (update c _ s)) with (store s).
  by rewrite Hs, Ht.
Qed.

Lemma updateMousePosition_spawn (e : MouseEvent) (s : state) c settings l :
  cursor s = Some c → store s = Some settings →
  truthy settings.(trailEnabled) = true →
  body_children s = Some l → fresh s ∉ attached_nodes s →
  updateMousePosition e s =
    Normal (setTimeout (fresh s) 100
              (evict settings
                 (set_trail (trail s ++ [fresh s])
                    (set_body (Some (l ++ [fresh s]))
                       (set_fresh (S (fresh s))
                          (set_elements (spawned_elements e settings c s) s)))))).
Proof.
  intros Hc Hs Ht Hl Hout. unfold updateMousePosition.
  rewrite Hc, Hs, Ht. unfold createElement. cbv zeta beta iota.
  erewrite appendChild_fresh; [reflexivity| |exact Hl].
  exact Hout.
Qed.

Lemma updateMousePosition_no_body (e : MouseEvent) (s : state) c settings :
  cursor s = Some c → store s = Some settings →
  truthy settings.(trailEnabled) = true →
  body_children s = None →
  updateMousePosition e s =
    Throw (set_fresh (S (fresh s))
             (set_elements (spawned_elements e settings c s) s)).
Proof.
  intros Hc Hs Ht Hl. unfold updateMousePosition.
  rewrite Hc, Hs, Ht. unfold createElement. cbv zeta beta iota.
  by rewrite appendChild_null.
Qed.


Lemma spawned_elements_dot e settings c s :
  spawned_elements e settings c s !! fresh s =
    Some (with_top
            (px (Num.sub (clientY e)
                   (Num.div (settings.(cursorSize) ?? defaultSettings.cursorSize) 4)))
         (with_left
            (px (Num.sub (clientX e)
                   (Num.div (settings.(cursorSize) ?? defaultSettings.cursorSize) 4)))
         (with_className "mouse-trail" (blank "div")))).
Proof.
  unfold spawned_elements, update, createElement; simpl.
  by rewrite !lookup_alter_eq, lookup_insert_eq.
Qed.

Lemma spawned_elements_other e settings c s n :
  n ≠ fresh s →
  spawned_elements e settings c s !! n =
    elements (update c (with_transform
       (css_translate
          (Num.sub (clientX e)
             (Num.div (settings.(cursorSize) ?? defaultSettings.cursorSize) 2))
          (Num.sub (clientY e)
             (Num.div (settings.(cursorSize) ?? defaultSettings.cursorSize) 2))))
       s) !! n.
Proof.
  intros Hn. unfold spawned_elements, update, createElement; simpl.
  do 3 (rewrite lookup_alter_ne by congruence).
  by rewrite lookup_insert_ne by congruence.
Qed.

Lemma wf_spawned e settings c s :
  wf s →
  wf (set_fresh (S (fresh s))
        (set_elements (spawned_elements e settings c s) s))
  ∧ is_trail_dot (set_fresh (S (fresh s))
        (set_elements (spawned_elements e settings c s) s)) (fresh s).
Proof.
  intros Hwf. split.
  - pose proof (wf_not_attached s (fresh s) Hwf (le_n _)) as Hout.
    unfold spawned_elements.
    set (s1 := update c _ s).
    assert (Hwf1 : wf (createElement "div" s1).2).
    { apply wf_createElement. by apply wf_update_keep. }
    change (fresh s) with (fresh s1) at 1 2 3 4.
    change (wf (update (fresh s1) (with_top
               (px (Num.sub (clientY e)
                 (Num.div (settings.(cursorSize) ?? defaultSettings.cursorSize) 4))))
             (update (fresh s1) (with_left
               (px (Num.sub (clientX e)
                 (Num.div (settings.(cursorSize) ?? defaultSettings.cursorSize) 4))))
             (update (fresh s1) (with_className "mouse-trail")
                (createElement "div" s1).2)))).
    repeat apply wf_update_detached; try done.
  - unfold is_trail_dot; simpl. by rewrite spawned_elements_dot.
Qed.

Lemma wf_append_push_eq (n : nat) (s s' : state) :
  wf s → n < fresh s → n ∉ attached_nodes s → is_trail_dot s n →
  appendChild Body n s = Normal s' →
  wf (set_trail (trail s' ++ [n]) s').
Proof.
  intros Hwf Hn Hout Hdot Heq.
  pose proof (wf_append_push n s Hwf Hn Hout Hdot) as P.
  by rewrite Heq in P.
Qed.

Lemma wf_updateMousePosition (e : MouseEvent) (s : state) :
  wf s → wf (settle (updateMousePosition e s)).
Proof.
  intros Hwf.
  destruct (cursor s) as [c|] eqn:Hc;
    [|by rewrite updateMousePosition_idle by auto].
  destruct (store s) as [settings|] eqn:Hs;
    [|by rewrite updateMousePosition_idle by auto].
  destruct (truthy settings.(trailEnabled)) eqn:Ht.
  - destruct (wf_cursor s Hwf c Hc) as (_ & _ & [l Hl]).
    pose proof (wf_not_attached s (fresh s) Hwf (le_n _)) as Hout.
    rewrite (updateMousePosition_spawn e s c settings l) by done. simpl.
    destruct (wf_spawned e settings c s Hwf) as [Hwf3 Hdot].
    match goal with
    | |- wf (setTimeout _ _ ?x) => apply (wf_frame x); try reflexivity
    end.
    apply wf_evict.
    match goal with
    | |- wf (set_trail _ ?x) =>
        apply (wf_append_push_eq (fresh s) _ x Hwf3);
          [simpl; lia|exact Hout|exact Hdot|]
    end.
    by apply (appendChild_fresh Body).
  - rewrite (updateMousePosition_plain e s c settings) by done. simpl.
    by apply wf_update_keep.
Qed.


(** ** The shape of [start] *)

Lemma fresh_updateStyles (s : state) : fresh (updateStyles s) = fresh s.
Proof. unfold updateStyles. by repeat case_match. Qed.

Lemma start_no_body (s : state) : body_children s = None → start s = Normal s.
Proof. intros Hb. unfold start. by rewrite Hb. Qed.

Lemma start_no_head (s : state) (lb : list nat) :
  body_children s = Some lb → head_children s = None →
  start s = Throw (created s).
Proof.
  intros Hb Hh. unfold start. rewrite Hb.
  unfold createElement. cbv zeta beta iota.
  by rewrite appendChild_null.
Qed.

Lemma start_ok (s : state) (lh lb : list nat) :
  head_children s = Some lh → body_children s = Some lb →
  fresh s ∉ attached_nodes s → S (fresh s) ∉ attached_nodes s →
  start s =
    Normal (addEventListener (S (S (fresh s)))
      (set_bound (Some (S (S (fresh s))))
        (set_fresh (S (S (S (fresh s))))
          (updateStyles
            (set_body (Some (lb ++ [S (fresh s)]))
              (set_head (Some (lh ++ [fresh s])) (created s))))))).
Proof.
  intros Hh Hb Hst Hc. unfold start. rewrite Hb.
  unfold createElement. cbv zeta beta iota.
  rewrite (appendChild_fresh Head _ _ lh); [|exact Hst|exact Hh].
  unfold and_then at 1.
  rewrite (appendChild_fresh Body _ _ lb); [| |exact Hb].
  { unfold and_then. cbn [boundUpdateMousePosition set_bound].
    rewrite fresh_updateStyles. reflexivity. }
  unfold attached_nodes in *. rewrite elem_of_app in *.
  change (¬ (S (fresh s) ∈ lh ++ [fresh s] ∨ S (fresh s) ∈ body_nodes s)).
  rewrite elem_of_app, list_elem_of_singleton.
  assert (head_nodes s = lh) as <- by (unfold head_nodes; by rewrite Hh).
  intros [[?|?]|?]; [tauto|lia|tauto].
Qed.

Lemma wf_set_cursor (v : option nat) (s : state) :
  (∀ c, v = Some c →
     c < fresh s ∧ is_Some (elements s !! c) ∧ is_Some (body_children s)) →
  wf s → wf (set_cursor v s).
Proof.
  intros Hv Hwf. split; frame.
  - apply (wf_fresh s Hwf).
  - apply (wf_nodup s Hwf).
  - rewrite (dots_same _ s) by done. apply (wf_body_dots s Hwf).
  - rewrite (dots_same _ s) by done. apply (wf_head_dots s Hwf).
  - exact Hv.
Qed.

Lemma created_style_element (s : state) :
  elements (created s) !! fresh s = Some (blank "style").
Proof.
  unfold created, update, createElement; simpl.
  rewrite lookup_alter_ne, lookup_insert_ne by lia.
  apply lookup_insert_eq.
Qed.

Lemma created_overlay_element (s : state) :
  elements (created s) !! S (fresh s)
    = Some (with_id "vencord-mouse-overlay" (blank "div")).
Proof.
  unfold created, update, createElement; simpl.
  by rewrite lookup_alter_eq, lookup_insert_eq.
Qed.

Lemma wf_created (s : state) : is_Some (body_children s) → wf s → wf (created s).
Proof.
  intros Hb Hwf. unfold created.
  apply wf_update_keep; [done|].
  apply wf_set_cursor.
  - intros c [= <-]. unfold createElement; simpl.
    rewrite lookup_insert_eq. repeat split; try done. lia.
  - apply wf_createElement.
    apply (wf_frame (createElement "style" s).2); try done.
    by apply wf_createElement.
Qed.

Lemma wf_listen (f g : nat) (s : state) :
  wf s → fresh s ≤ g →
  wf (addEventListener f (set_bound (Some f) (set_fresh g s))).
Proof.
  intros Hwf Hg. unfold addEventListener.
  case_decide; by apply (wf_frame s).
Qed.

Lemma wf_start (s : state) : wf s → wf (settle (start s)).
Proof.
  intros Hwf.
  destruct (body_children s) as [lb|] eqn:Hb;
    [|by rewrite start_no_body].
  assert (Hwfc : wf (created s)) by (apply wf_created; [by eexists|done]).
  destruct (head_children s) as [lh|] eqn:Hh;
    [|by rewrite (start_no_head s lb)].
  pose proof (wf_not_attached s (fresh s) Hwf (le_n _)) as Hst.
  pose proof (wf_not_attached s (S (fresh s)) Hwf (le_S _ _ (le_n _))) as Hc.
  rewrite (start_ok s lh lb) by done. cbn [settle].
  assert (Hwf1 : wf (set_head (Some (lh ++ [fresh s])) (created s))).
  { pose proof (wf_appendChild Head (fresh s) (created s) Hwfc) as P.
    rewrite (appendChild_fresh Head _ _ lh) in P; [|exact Hst|exact Hh].
    apply P; [simpl; lia|exact Hst|].
    unfold is_trail_dot. by rewrite created_style_element. }
  assert (Hwf2 : wf (set_body (Some (lb ++ [S (fresh s)]))
                       (set_head (Some (lh ++ [fresh s])) (created s)))).
  { pose proof (wf_appendChild Body (S (fresh s)) _ Hwf1) as P.
    assert (Hout : S (fresh s) ∉
              attached_nodes (set_head (Some (lh ++ [fresh s])) (created s))).
    { unfold attached_nodes in *. rewrite elem_of_app in *.
      change (¬ (S (fresh s) ∈ lh ++ [fresh s] ∨ S (fresh s) ∈ body_nodes s)).
      rewrite elem_of_app, list_elem_of_singleton.
      assert (head_nodes s = lh) as <- by (unfold head_nodes; by rewrite Hh).
      intros [[?|?]|?]; [tauto|lia|tauto]. }
    rewrite (appendChild_fresh Body _ _ lb) in P; [|exact Hout|exact Hb].
    apply P; [simpl; lia|exact Hout|].
    unfold is_trail_dot.
    change (¬ className <$> elements (created s) !! S (fresh s)
              = Some "mouse-trail").
    by rewrite created_overlay_element. }
  apply wf_updateStyles in Hwf2.
  apply wf_listen; [exact Hwf2|].
  rewrite fresh_updateStyles. simpl. lia.
Qed.


(** ** The shape of [stop] *)

Lemma parentNode_Some (n : nat) (s : state) (p : Container) :
  parentNode n s = Some p → ∃ l, children p s = Some l ∧ n ∈ l.
Proof.
  unfold parentNode, head_nodes, body_nodes.
  repeat case_decide; intros [= <-]; simpl.
  - destruct (head_children s) as [l|]; [by exists l|]. by apply elem_of_nil in H0.
  - destruct (body_children s) as [l|]; [by exists l|]. by apply elem_of_nil in H1.
Qed.

Lemma forEach_removeChild_total (dots : list nat) (s : state) :
  ∃ s', forEach_removeChild dots s = Normal s'
        ∧ trail s' = trail s ∧ style s' = style s ∧ cursor s' = cursor s
        ∧ boundUpdateMousePosition s' = boundUpdateMousePosition s.
Proof.
  revert s. induction dots as [|d dots IH]; intros s; simpl.
  - by exists s.
  - destruct (parentNode d s) as [p|] eqn:Hp.
    + apply parentNode_Some in Hp as (l & Hl & Hd).
      unfold removeChild. rewrite Hl, decide_True by done. simpl.
      destruct (IH (set_children p (without d l) s)) as (s' & -> & ? & ? & ? & ?).
      exists s'. by destruct p.
    + simpl. apply IH.
Qed.

(** [stop] returns normally from every state, with the queue empty and the
    three references released. *)
Lemma stop_total (s : state) :
  ∃ s', stop s = Normal s'
        ∧ trail s' = [] ∧ style s' = None ∧ cursor s' = None
        ∧ boundUpdateMousePosition s' = None.
Proof.
  unfold stop.
  set (s1 := match boundUpdateMousePosition s with
             | Some f => set_bound None (removeEventListener f s)
             | None => s end).
  assert (Hb1 : boundUpdateMousePosition s1 = None).
  { unfold s1. by destruct (boundUpdateMousePosition s) eqn:E. }
  set (s2 := match style s1 with Some st => detach st s1 | None => s1 end).
  assert (Hb2 : boundUpdateMousePosition s2 = None).
  { unfold s2. destruct (style s1); [|done]. by rewrite detach_remove. }
  set (s3 := match cursor s2 with Some c => detach c s2 | None => s2 end).
  assert (Hb3 : boundUpdateMousePosition s3 = None).
  { unfold s3. destruct (cursor s2); [|done]. by rewrite detach_remove. }
  destruct (forEach_removeChild_total (trail s3) s3) as (s' & -> & ? & ? & ? & Hb).
  simpl. eexists; split; [reflexivity|]. simpl. by rewrite Hb.
Qed.

Lemma remove_head_free (n : nat) (s : state) :
  n ∉ head_nodes s →
  remove n s = set_body (without n <$> body_children s) s.
Proof.
  intros Hn. unfold remove. rewrite (without_kids_notin n (head_children s)) by done.
  by destruct s.
Qed.

Lemma removeChild_body (n : nat) (s : state) :
  n ∉ head_nodes s → n ∈ body_nodes s →
  removeChild Body n s = Normal (remove n s).
Proof.
  intros Hh Hb. rewrite remove_head_free by done.
  unfold removeChild, body_nodes in *; simpl.
  destruct (body_children s) as [l|]; simpl in *; [|by apply elem_of_nil in Hb].
  by rewrite decide_True.
Qed.

Lemma forEach_removeChild_remove_all (dots : list nat) (s : state) :
  (∀ d, d ∈ dots → d ∉ head_nodes s) →
  forEach_removeChild dots s = Normal (remove_all dots s).
Proof.
  revert s. induction dots as [|d dots IH]; intros s Hd; simpl; [done|].
  assert (Hdh : d ∉ head_nodes s) by (apply Hd; left).
  assert (Hnext : ∀ d', d' ∈ dots → d' ∉ head_nodes (remove d s)).
  { intros d' Hd'. rewrite head_nodes_remove, elem_of_without.
    intros [? _]. apply (Hd d'); [by right|done]. }
  unfold parentNode. rewrite decide_False by done.
  case_decide as Hb.
  - rewrite removeChild_body by done. simpl. by apply IH.
  - simpl. rewrite <- (remove_not_attached d s) at 1.
    + by apply IH.
    + by apply hasParent_false.
Qed.

Lemma remove_all_app (l k : list nat) (s : state) :
  remove_all (l ++ k) s = remove_all k (remove_all l s).
Proof. apply foldl_app. Qed.

Lemma elem_of_nodes_remove_all (ns : list nat) (s : state) (x : nat) :
  (x ∈ head_nodes (remove_all ns s) ↔ x ∈ head_nodes s ∧ x ∉ ns)
  ∧ (x ∈ body_nodes (remove_all ns s) ↔ x ∈ body_nodes s ∧ x ∉ ns).
Proof.
  revert s. induction ns as [|n ns IH]; intros s; simpl.
  - rewrite !elem_of_nil. tauto.
  - destruct (IH (remove n s)) as [-> ->].
    rewrite head_nodes_remove, body_nodes_remove, !elem_of_without,
      !not_elem_of_cons. tauto.
Qed.

Lemma stop_shape (s : state) :
  (∀ d, d ∈ trail s → d ∉ head_nodes s) →
  stop s = Normal (set_cursor None (set_style None (set_trail []
                     (remove_all (doomed s) (unbind s))))).
Proof.
  intros Hd. unfold stop. fold (unbind s).
  assert (Hst : match style (unbind s) with
                | Some st => detach st (unbind s)
                | None => unbind s end
                = remove_all (option_list (style s)) (unbind s)).
  { replace (style (unbind s)) with (style s)
      by (unfold unbind; by destruct (boundUpdateMousePosition s)).
    destruct (style s); simpl; [|done]. apply detach_remove. }
  rewrite Hst.
  set (s2 := remove_all (option_list (style s)) (unbind s)).
  assert (Hc2 : cursor s2 = cursor s).
  { unfold s2, unbind.
    destruct (style s), (boundUpdateMousePosition s); reflexivity. }
  assert (Hc : match cursor s2 with
               | Some c => detach c s2
               | None => s2 end
               = remove_all (option_list (cursor s)) s2).
  { rewrite Hc2. destruct (cursor s); simpl; [|done]. apply detach_remove. }
  rewrite Hc.
  set (s3 := remove_all (option_list (cursor s)) s2).
  assert (Ht3 : trail s3 = trail s).
  { unfold s3, s2, unbind.
    destruct (cursor s), (style s), (boundUpdateMousePosition s); reflexivity. }
  rewrite Ht3, forEach_removeChild_remove_all.
  - simpl. unfold doomed. by rewrite !remove_all_app.
  - intros d Hin. unfold s3, s2.
    rewrite (proj1 (elem_of_nodes_remove_all _ _ d)).
    rewrite (proj1 (elem_of_nodes_remove_all _ _ d)).
    intros [[Hh _] _]. apply (Hd d Hin).
    unfold unbind in Hh. by destruct (boundUpdateMousePosition s).
Qed.


Lemma elem_of_foldl_without (ns l : list nat) (x : nat) :
  x ∈ foldl (λ l n, without n l) l ns ↔ x ∈ l ∧ x ∉ ns.
Proof.
  revert l. induction ns as [|n ns IH]; intros l; simpl.
  - rewrite elem_of_nil. tauto.
  - rewrite IH, elem_of_without, not_elem_of_cons. tauto.
Qed.

Lemma nil_of_no_elem (l : list nat) : (∀ x, x ∉ l) → l = [].
Proof. destruct l as [|x l]; [done|]. intros Hl. destruct (Hl x). by left. Qed.

Lemma remove_all_set_trail (ns v : list nat) (s : state) :
  remove_all ns (set_trail v s) = set_trail v (remove_all ns s).
Proof.
  revert s. induction ns as [|n ns IH]; intros s; simpl; [done|].
  change (remove n (set_trail v s)) with (set_trail v (remove n s)).
  apply IH.
Qed.

Lemma wf_remove_all (ns : list nat) (s : state) :
  wf s →
  wf (set_trail (foldl (λ l n, without n l) (trail s) ns) (remove_all ns s)).
Proof.
  revert s. induction ns as [|n ns IH]; intros s Hwf; simpl.
  - by rewrite set_trail_same.
  - pose proof (IH _ (wf_drop n s Hwf)) as P.
    rewrite remove_all_set_trail in P. exact P.
Qed.

Lemma wf_unbind (s : state) : wf s → wf (unbind s).
Proof.
  intros Hwf. unfold unbind. destruct (boundUpdateMousePosition s); [|done].
  by apply (wf_frame s).
Qed.

Lemma wf_stop (s : state) : wf s → wf (settle (stop s)).
Proof.
  intros Hwf.
  assert (Hd : ∀ d, d ∈ trail s → d ∉ head_nodes s).
  { intros d Hin Hh. rewrite <- (wf_body_dots s Hwf) in Hin.
    apply list_elem_of_filter in Hin as [Hdot _].
    assert (Hf : d ∈ filter (is_trail_dot s) (head_nodes s))
      by (by apply list_elem_of_filter).
    rewrite (wf_head_dots s Hwf) in Hf. by apply elem_of_nil in Hf. }
  rewrite stop_shape by done. simpl.
  pose proof (wf_remove_all (doomed s) _ (wf_unbind s Hwf)) as P.
  assert (Hnil : foldl (λ l n, without n l) (trail (unbind s)) (doomed s) = []).
  { apply nil_of_no_elem. intros x. rewrite elem_of_foldl_without.
    replace (trail (unbind s)) with (trail s)
      by (unfold unbind; by destruct (boundUpdateMousePosition s)).
    unfold doomed. rewrite !elem_of_app. tauto. }
  rewrite Hnil in P.
  apply wf_set_cursor; [done|].
  by eapply wf_frame; [..|exact P].
Qed.

Lemma wf_dispatch (e : MouseEvent) (listeners : list nat) (s : state) :
  wf s → wf (settle (dispatch e listeners s)).
Proof.
  revert s. induction listeners as [|f fs IH]; intros s Hwf; simpl; [done|].
  pose proof (wf_updateMousePosition e s Hwf) as P.
  destruct (updateMousePosition e s); simpl in *; by apply IH.
Qed.

Lemma wf_step (ev : event) (s : state) : wf s → wf (step ev s).
Proof.
  intros Hwf. unfold step. destruct ev; simpl.
  - by apply wf_start.
  - by apply wf_stop.
  - by apply wf_dispatch.
  - destruct (timeouts s !! i) as [[due dot]|]; simpl; [|done].
    apply wf_expire. by apply (wf_frame s).
  - by apply (wf_frame s).
  - by apply (wf_frame s).
  - destruct (settle_notify this k s) as [-> | ->]; [done|].
    by apply wf_updateStyles.
Qed.

Lemma exec_cons (ev : event) (evs : list event) (s : state) :
  exec (ev :: evs) s = exec evs (step ev s).
Proof. reflexivity. Qed.

Lemma step_move (e : MouseEvent) (s : state) :
  step (MouseMove e) s = settle (dispatch e (mousemove s) s).
Proof. reflexivity. Qed.

Lemma wf_exec (evs : list event) (s : state) : wf s → wf (exec evs s).
Proof.
  revert s. induction evs as [|ev evs IH]; intros s Hwf; [done|].
  simpl. apply IH. by apply wf_step.
Qed.

(** Every state the plugin can reach from its load is well formed. *)
Lemma wf_reachable evs hh hb settings : wf (exec evs (initial hh hb settings)).
Proof. apply wf_exec, wf_initial. Qed.


(** ** What the lifecycle calls leave alone *)

Lemma updateStyles_cases (s : state) :
  updateStyles s = s ∨ ∃ st f, updateStyles s = update st f s.
Proof.
  unfold updateStyles. destruct (style s) as [st|]; [|by left].
  destruct (store s); [|by left]. right. by eexists _, _.
Qed.

Lemma remove_all_frame (ns : list nat) (s : state) :
  store (remove_all ns s) = store s
  ∧ timeouts (remove_all ns s) = timeouts s
  ∧ clock (remove_all ns s) = clock s
  ∧ mousemove (remove_all ns s) = mousemove s
  ∧ fresh (remove_all ns s) = fresh s
  ∧ elements (remove_all ns s) = elements s.
Proof.
  revert s. induction ns as [|n ns IH]; intros s; simpl; [done|].
  destruct (IH (remove n s)) as (-> & -> & -> & -> & -> & ->). done.
Qed.

Lemma wf_trail_head_free (s : state) :
  wf s → ∀ d, d ∈ trail s → d ∉ head_nodes s.
Proof.
  intros Hwf d Hin Hh. rewrite <- (wf_body_dots s Hwf) in Hin.
  apply list_elem_of_filter in Hin as [Hdot _].
  assert (Hf : d ∈ filter (is_trail_dot s) (head_nodes s))
    by (by apply list_elem_of_filter).
  rewrite (wf_head_dots s Hwf) in Hf. by apply elem_of_nil in Hf.
Qed.

Lemma updateStyles_frame (s : state) :
  trail (updateStyles s) = trail s
  ∧ store (updateStyles s) = store s
  ∧ timeouts (updateStyles s) = timeouts s
  ∧ clock (updateStyles s) = clock s.
Proof. by destruct (updateStyles_cases s) as [->|(st & f & ->)]. Qed.

Lemma listen_frame (f g : nat) (s : state) :
  trail (addEventListener f (set_bound (Some f) (set_fresh g s))) = trail s
  ∧ store (addEventListener f (set_bound (Some f) (set_fresh g s))) = store s
  ∧ timeouts (addEventListener f (set_bound (Some f) (set_fresh g s)))
    = timeouts s
  ∧ clock (addEventListener f (set_bound (Some f) (set_fresh g s))) = clock s.
Proof. unfold addEventListener. by case_decide. Qed.

(** What [start] and [stop] leave alone. *)
Lemma start_frame (s : state) :
  wf s →
  trail (settle (start s)) = trail s ∧ store (settle (start s)) = store s
  ∧ timeouts (settle (start s)) = timeouts s
  ∧ clock (settle (start s)) = clock s.
Proof.
  intros Hwf.
  destruct (body_children s) as [lb|] eqn:Hb; [|by rewrite start_no_body].
  destruct (head_children s) as [lh|] eqn:Hh;
    [|by rewrite (start_no_head s lb)].
  pose proof (wf_not_attached s (fresh s) Hwf (le_n _)) as Hst.
  pose proof (wf_not_attached s (S (fresh s)) Hwf (le_S _ _ (le_n _))) as Hc.
  rewrite (start_ok s lh lb) by done. cbn [settle].
  match goal with
  | |- context [addEventListener ?f (set_bound _ (set_fresh ?g ?x))] =>
      destruct (listen_frame f g x) as (-> & -> & -> & ->)
  end.
  match goal with
  | |- context [updateStyles ?x] =>
      destruct (updateStyles_frame x) as (-> & -> & -> & ->)
  end.
  done.
Qed.

Lemma stop_frame (s : state) :
  wf s →
  trail (settle (stop s)) = [] ∧ store (settle (stop s)) = store s
  ∧ timeouts (settle (stop s)) = timeouts s
  ∧ clock (settle (stop s)) = clock s.
Proof.
  intros Hwf. rewrite stop_shape by (by apply wf_trail_head_free). simpl.
  destruct (remove_all_frame (doomed s) (unbind s)) as (-> & -> & -> & _).
  unfold unbind. by destruct (boundUpdateMousePosition s).
Qed.

(** ** Pointer moves with the trail disabled *)

Lemma transform_only_refl (s : state) : transform_only s s.
Proof. by split. Qed.

Lemma transform_only_trans (s1 s2 s3 : state) :
  transform_only s1 s2 → transform_only s2 s3 → transform_only s1 s3.
Proof.
  intros H12 H23.
  destruct H12 as [Hst Hcu Htr Hbo Hhe Hbd Hfr Hmm Hti Hcl Hsr Hot Hov].
  destruct H23 as [Hst' Hcu' Htr' Hbo' Hhe' Hbd' Hfr' Hmm' Hti' Hcl' Hsr' Hot' Hov'].
  split; try congruence.
  all: intros n;
    first [ by rewrite Hov', Hov
          | intros Hn; rewrite Hot', Hot; [done..|congruence] ].
Qed.

Lemma transform_only_update (c : nat) (t : string) (s : state) :
  cursor s = Some c → transform_only s (update c (with_transform t) s).
Proof.
  intros Hc. split; try done.
  - intros n Hn. unfold update; simpl. apply lookup_alter_ne. congruence.
  - intros n. unfold update; simpl.
    destruct (decide (c = n)) as [->|Hne].
    + rewrite lookup_alter_eq. by destruct (elements s !! n).
    + by rewrite lookup_alter_ne.
Qed.

Lemma transform_only_dots (s s' : state) :
  transform_only s s' → trail_dot_nodes s' = trail_dot_nodes s.
Proof.
  intros Hto. unfold trail_dot_nodes, attached_nodes, head_nodes, body_nodes.
  rewrite (to_head s s' Hto), (to_body s s' Hto).
  apply dots_same. intros n _. unfold is_trail_dot.
  pose proof (to_overlay s s' Hto n) as Hn.
  destruct (elements s' !! n) as [[]|], (elements s !! n) as [[]|];
    simpl in *; try done.
  injection Hn as -> -> -> -> -> ->. done.
Qed.

Lemma disabled_move (e : MouseEvent) (s : state) settings :
  store s = Some settings → truthy settings.(trailEnabled) = false →
  updateMousePosition e s = Normal s
  ∨ ∃ c t, cursor s = Some c
           ∧ updateMousePosition e s = Normal (update c (with_transform t) s).
Proof.
  intros Hs Ht. destruct (cursor s) as [c|] eqn:Hc.
  - right. exists c. eexists. split; [done|].
    by apply (updateMousePosition_plain e s c settings).
  - left. apply updateMousePosition_idle. by left.
Qed.

Lemma disabled_dispatch (e : MouseEvent) (fs : list nat) (s : state) settings :
  store s = Some settings → truthy settings.(trailEnabled) = false →
  transform_only s (settle (dispatch e fs s)).
Proof.
  intros Hs Ht. revert s Hs.
  induction fs as [|f fs IH]; intros s Hs; simpl.
  - apply transform_only_refl.
  - destruct (disabled_move e s settings Hs Ht) as [->|(c & t & Hc & ->)]; simpl.
    + by apply IH.
    + eapply transform_only_trans; [by apply transform_only_update|].
      by apply IH.
Qed.

Lemma wf_trail_dot_nodes (s : state) : wf s → trail_dot_nodes s = trail s.
Proof.
  intros Hwf. unfold trail_dot_nodes, attached_nodes.
  by rewrite filter_app, (wf_head_dots s Hwf), (wf_body_dots s Hwf).
Qed.

(** C8.  With trailEnabled false (or missing), each call of the move
    handler either does nothing or only writes the overlay node's
    transform, and a run of pointer-move events changes nothing else: no
    node is created, no timeout is set, the queue and the trail dots on
    the surface are what they were.  Right after [start] that is an empty
    queue and no trail dot. *)
Theorem no_trail_when_disabled
    (es : list MouseEvent) (s : state) (settings : MouseOverlaySettings) :
  store s = Some settings → truthy settings.(trailEnabled) = false →
  (∀ e, updateMousePosition e s = Normal s
        ∨ ∃ c t, cursor s = Some c
             ∧ updateMousePosition e s = Normal (update c (with_transform t) s))
  ∧ transform_only s (exec (MouseMove <$> es) s)
  ∧ trail (exec (MouseMove <$> es) s) = trail s
  ∧ trail_dot_nodes (exec (MouseMove <$> es) s) = trail_dot_nodes s
  ∧ (∀ hh hb, s = step Start (initial hh hb (Some settings)) →
       trail (exec (MouseMove <$> es) s) = []
       ∧ trail_dot_nodes (exec (MouseMove <$> es) s) = []).
Proof.
  intros Hs Ht.
  assert (Hto : transform_only s (exec (MouseMove <$> es) s)).
  { revert s Hs. induction es as [|e es IH]; intros s Hs; simpl.
    - apply transform_only_refl.
    - pose proof (disabled_dispatch e (mousemove s) s settings Hs Ht) as P.
      eapply transform_only_trans; [exact P|].
      apply IH. unfold step; simpl. by rewrite (to_store _ _ P). }
  split; [intros e; by apply (disabled_move e s settings)|].
  split; [exact Hto|].
  split; [apply (to_trail _ _ Hto)|].
  split; [by apply transform_only_dots|].
  intros hh hb Hstart.
  assert (Hwf : wf s) by (rewrite Hstart; apply wf_step, wf_initial).
  assert (Hnil : trail s = []).
  { rewrite Hstart.
    change (trail (settle (start (initial hh hb (Some settings)))) = []).
    by destruct (start_frame _ (wf_initial hh hb (Some settings))) as (-> & _). }
  rewrite (to_trail _ _ Hto), (transform_only_dots _ _ Hto).
  by rewrite wf_trail_dot_nodes, Hnil.
Qed.


(** ** Where a pointer move puts the overlay and the dot *)

Lemma string_app_assoc (a b c : string) : (a +:+ b) +:+ c = a +:+ (b +:+ c).
Proof.
  induction a as [|x a IH]; [done|].
  change (String x ((a +:+ b) +:+ c) = String x (a +:+ (b +:+ c))).
  by rewrite IH.
Qed.

(** The text of the transform and of a length, piece by piece. *)
Lemma css_translate_text (a b : float) :
  css_translate a b
  = "translate(" +:+ num_to_string a +:+ "px, " +:+ num_to_string b +:+ "px)".
Proof.
  unfold css_translate, px, template. cbn [foldr].
  change (")" +:+ EmptyString) with ")".
  rewrite !string_app_assoc. reflexivity.
Qed.

(** The objects after one call of the handler, trail enabled. *)
Lemma elements_after_spawn e s c settings :
  wf s → cursor s = Some c → store s = Some settings →
  truthy settings.(trailEnabled) = true →
  elements (settle (updateMousePosition e s)) = spawned_elements e settings c s.
Proof.
  intros Hwf Hc Hs Ht.
  destruct (wf_cursor s Hwf c Hc) as (_ & _ & [l Hl]).
  pose proof (wf_not_attached s (fresh s) Hwf (le_n _)) as Hout.
  rewrite (updateMousePosition_spawn e s c settings l) by done. simpl.
  match goal with |- context [evict settings ?x] =>
    destruct (evict_cases settings x) as [[-> _]|(d0 & t & _ & _ & ->)]
  end; reflexivity.
Qed.

(** The queue after one call of the handler, trail enabled: the new dot is
    in it, unless the length check emptied it. *)
Lemma new_dot_queued e s c settings :
  wf s → cursor s = Some c → store s = Some settings →
  truthy settings.(trailEnabled) = true →
  fresh s ∈ trail (settle (updateMousePosition e s))
  ∨ trail (settle (updateMousePosition e s)) = [].
Proof.
  intros Hwf Hc Hs Ht.
  destruct (wf_cursor s Hwf c Hc) as (_ & _ & [l Hl]).
  pose proof (wf_not_attached s (fresh s) Hwf (le_n _)) as Hout.
  rewrite (updateMousePosition_spawn e s c settings l) by done.
  cbn [settle]. unfold setTimeout. cbn [trail set_timeouts].
  match goal with |- context [evict settings ?x] =>
    destruct (evict_cases settings x) as [[-> _]|(d0 & t & Hq & _ & ->)]
  end.
  - left. cbn [trail set_trail]. rewrite elem_of_app, list_elem_of_singleton.
    by right.
  - cbn [trail set_trail] in Hq |- *.
    destruct (trail s) as [|d1 t1]; simpl in Hq.
    + right. congruence.
    + left. injection Hq as _ <-.
      rewrite elem_of_app, list_elem_of_singleton. by right.
Qed.

(** C4.  In a reachable state with an overlay node and settings, a call of
    the move handler for the pointer at (x, y) leaves the overlay node with
    the transform [translate(<x - S/2>px, <y - S/2>px)], S the cursor size in
    force and the arithmetic that of the language's numbers.  With the trail
    enabled the object created by the call is a [div] of class [mouse-trail]
    whose left is [<x - S/4>px] and whose top is [<y - S/4>px]; it was on the
    surface nowhere before, it is in the body exactly when it is in the
    queue, and it is in the queue unless the length check emptied the
    queue. *)
Theorem pointer_move_positions
    (evs : list event) (hh hb : bool) (cfg0 : option MouseOverlaySettings)
    (e : MouseEvent) (c : nat) (settings : MouseOverlaySettings) :
  let s := exec evs (initial hh hb cfg0) in
  let s' := settle (updateMousePosition e s) in
  let size := settings.(cursorSize) ?? defaultSettings.cursorSize in
  cursor s = Some c → store s = Some settings →
  (∃ overlay, elements s' !! c = Some overlay
     ∧ style_transform overlay
       = "translate(" +:+ num_to_string (clientX e - size / 2)%float
           +:+ "px, " +:+ num_to_string (clientY e - size / 2)%float
           +:+ "px)")
  ∧ (truthy settings.(trailEnabled) = true →
     ∃ dot, elements s' !! fresh s = Some dot
       ∧ tagName dot = "div" ∧ className dot = "mouse-trail"
       ∧ style_left dot
         = num_to_string (clientX e - size / 4)%float +:+ "px"
       ∧ style_top dot
         = num_to_string (clientY e - size / 4)%float +:+ "px"
       ∧ (fresh s ∉ attached_nodes s)
       ∧ (fresh s ∈ body_nodes s' ↔ fresh s ∈ trail s')
       ∧ (fresh s ∈ trail s' ∨ trail s' = [])).
Proof.
  intros s s' size Hc Hs.
  assert (Hwf : wf s) by apply wf_reachable.
  destruct (wf_cursor s Hwf c Hc) as (Hlt & [el Hel] & _).
  split.
  - exists (with_transform
              (css_translate (Num.sub (clientX e) (Num.div size 2))
                             (Num.sub (clientY e) (Num.div size 2))) el).
    split; [|apply css_translate_text].
    unfold s'. destruct (truthy settings.(trailEnabled)) eqn:Ht.
    + rewrite (elements_after_spawn e s c settings) by done.
      rewrite spawned_elements_other by lia.
      unfold update; simpl. by rewrite lookup_alter_eq, Hel.
    + rewrite (updateMousePosition_plain e s c settings) by done.
      unfold update; simpl. by rewrite lookup_alter_eq, Hel.
  - intros Ht.
    assert (Hdot : elements s' !! fresh s
              = Some (with_top (px (Num.sub (clientY e) (Num.div size 4)))
                     (with_left (px (Num.sub (clientX e) (Num.div size 4)))
                     (with_className "mouse-trail" (blank "div"))))).
    { unfold s'. rewrite (elements_after_spawn e s c settings) by done.
      apply spawned_elements_dot. }
    eexists. split; [exact Hdot|].
    do 4 (split; [reflexivity|]).
    split; [by apply wf_not_attached|].
    split; [|by apply (new_dot_queued e s c settings)].
    assert (Hwf' : wf s') by (by apply wf_updateMousePosition).
    rewrite <- (wf_body_dots s' Hwf'), list_elem_of_filter.
    unfold is_trail_dot. rewrite Hdot. cbn. tauto.
Qed.


(** ** The queue under pointer moves *)

Lemma gt_of_nat (a b : nat) : Num.gt (Num.of_nat a) (Num.of_nat b) = true ↔ b < a.
Proof.
  unfold Num.gt, Num.of_nat. rewrite negb_true_iff.
  rewrite <- not_true_iff_false, Qle_bool_iff, <- Zle_Qle. lia.
Qed.

Lemma trail_evict (settings : MouseOverlaySettings) (s : state) :
  trail (evict settings s) =
    if Num.gt (Num.of_nat (length (trail s)))
         (settings.(trailLength) ?? defaultSettings.trailLength)
    then tail (trail s) else trail s.
Proof.
  unfold evict. destruct (Num.gt _ _); [|done].
  destruct (trail s) as [|d0 t] eqn:Ht; simpl.
  - by rewrite Ht.
  - rewrite detach_remove. simpl. by rewrite Ht.
Qed.

Lemma settle_dispatch_cons e f fs s :
  settle (dispatch e (f :: fs) s)
    = settle (dispatch e fs (settle (updateMousePosition e s))).
Proof. simpl. by destruct (updateMousePosition e s). Qed.

(** The three ways a call of the handler ends in a well-formed state. *)
Lemma updateMousePosition_cases (e : MouseEvent) (s : state) :
  wf s →
  updateMousePosition e s = Normal s
  ∨ (∃ c t, cursor s = Some c
        ∧ updateMousePosition e s = Normal (update c (with_transform t) s))
  ∨ (∃ c settings l, cursor s = Some c ∧ store s = Some settings
        ∧ truthy settings.(trailEnabled) = true
        ∧ body_children s = Some l
        ∧ (fresh s ∉ attached_nodes s)
        ∧ updateMousePosition e s =
            Normal (setTimeout (fresh s) 100
              (evict settings
                 (set_trail (trail s ++ [fresh s])
                    (set_body (Some (l ++ [fresh s]))
                       (set_fresh (S (fresh s))
                          (set_elements (spawned_elements e settings c s) s))))))).
Proof.
  intros Hwf.
  destruct (cursor s) as [c|] eqn:Hc;
    [|left; apply updateMousePosition_idle; by left].
  destruct (store s) as [settings|] eqn:Hs;
    [|left; apply updateMousePosition_idle; by right].
  destruct (truthy settings.(trailEnabled)) eqn:Ht.
  - right; right.
    destruct (wf_cursor s Hwf c Hc) as (_ & _ & [l Hl]).
    pose proof (wf_not_attached s (fresh s) Hwf (le_n _)) as Hout.
    exists c, settings, l. repeat split; try done.
    by apply updateMousePosition_spawn.
  - right; left. exists c. eexists. split; [done|].
    by apply (updateMousePosition_plain e s c settings).
Qed.

(** What a call of the handler leaves alone. *)
Lemma updateMousePosition_frame (e : MouseEvent) (s : state) :
  wf s →
  let s' := settle (updateMousePosition e s) in
  cursor s' = cursor s ∧ store s' = store s ∧ mousemove s' = mousemove s
  ∧ style s' = style s
  ∧ boundUpdateMousePosition s' = boundUpdateMousePosition s
  ∧ clock s' = clock s.
Proof.
  intros Hwf.
  destruct (updateMousePosition_cases e s Hwf)
    as [->|[(c & t & _ & ->)|(c & settings & l & _ & _ & _ & _ & _ & ->)]];
    simpl; try done.
  match goal with |- context [evict settings ?x] =>
    destruct (evict_cases settings x) as [[-> _]|(d0 & t & _ & _ & ->)]
  end; done.
Qed.

(** The queue after one call with the trail enabled. *)
Lemma trail_after_spawn (e : MouseEvent) (s : state) c settings :
  wf s → cursor s = Some c → store s = Some settings →
  truthy settings.(trailEnabled) = true →
  trail (settle (updateMousePosition e s)) =
    if Num.gt (Num.of_nat (length (trail s ++ [fresh s])))
         (settings.(trailLength) ?? defaultSettings.trailLength)
    then tail (trail s ++ [fresh s]) else trail s ++ [fresh s].
Proof.
  intros Hwf Hc Hs Ht.
  destruct (wf_cursor s Hwf c Hc) as (_ & _ & [l Hl]).
  pose proof (wf_not_attached s (fresh s) Hwf (le_n _)) as Hout.
  rewrite (updateMousePosition_spawn e s c settings l) by done. simpl.
  by rewrite trail_evict.
Qed.

Lemma armed_move (N : nat) (e : MouseEvent) (s : state) :
  armed N s → length (trail s) ≤ N →
  armed N (settle (updateMousePosition e s))
  ∧ length (trail (settle (updateMousePosition e s)))
      = S (length (trail s)) `min` N.
Proof.
  intros (Hwf & [c Hc] & settings & Hs & Ht & HN) Hlen.
  destruct (updateMousePosition_frame e s Hwf) as (Hc' & Hs' & _).
  split.
  - split; [by apply wf_updateMousePosition|].
    split; [rewrite Hc', Hc; by eexists|].
    exists settings. by rewrite Hs'.
  - rewrite (trail_after_spawn e s c settings) by done.
    rewrite HN. unfold nullish. rewrite length_app. cbn [length].
    destruct (Num.gt _ _) eqn:Hgt.
    + apply gt_of_nat in Hgt.
      destruct (trail s) as [|d0 t]; cbn [tail app length] in *; [lia|].
      rewrite length_app. cbn [length]. lia.
    + apply not_true_iff_false in Hgt. rewrite gt_of_nat in Hgt.
      rewrite length_app. cbn [length]. lia.
Qed.

Lemma armed_dispatch (N : nat) (e : MouseEvent) (fs : list nat) (s : state) :
  armed N s → length (trail s) ≤ N →
  armed N (settle (dispatch e fs s))
  ∧ length (trail (settle (dispatch e fs s)))
      = (length (trail s) + length fs) `min` N
  ∧ mousemove (settle (dispatch e fs s)) = mousemove s.
Proof.
  revert s. induction fs as [|f fs IH]; intros s Ha Hlen.
  - simpl. split; [done|]. split; [lia|done].
  - rewrite settle_dispatch_cons.
    destruct (armed_move N e s Ha Hlen) as [Ha1 Hl1].
    destruct (IH _ Ha1) as (Ha2 & Hl2 & Hm2); [lia|].
    split; [done|]. split.
    + rewrite Hl2, Hl1. cbn [length]. lia.
    + rewrite Hm2. destruct Ha as (Hwf & _).
      by destruct (updateMousePosition_frame e s Hwf) as (_ & _ & -> & _).
Qed.

Lemma armed_moves (N : nat) (es : list MouseEvent) (s : state) :
  armed N s → length (trail s) ≤ N →
  armed N (exec (MouseMove <$> es) s)
  ∧ length (trail (exec (MouseMove <$> es) s))
      = (length (trail s) + length es * length (mousemove s)) `min` N.
Proof.
  revert s. induction es as [|e es IH]; intros s Ha Hlen.
  - simpl. split; [done|]. lia.
  - rewrite fmap_cons, exec_cons, step_move.
    destruct (armed_dispatch N e (mousemove s) s Ha Hlen) as (Ha1 & Hl1 & Hm1).
    destruct (IH _ Ha1) as (Ha2 & Hl2); [lia|].
    split; [done|]. rewrite Hl2, Hl1, Hm1. cbn [length]. nia.
Qed.

(** C3.  In a reachable state with an overlay node, a subscribed
    listener, an empty queue, trailEnabled true and trailLength N, more
    than N pointer-move events with no timeout in between leave exactly N
    dots in the queue, and the trail dots on the surface are exactly those
    N: the evicted ones are already detached. *)
Theorem queue_fills_to_trailLength
    (evs : list event) (hh hb : bool) (cfg0 : option MouseOverlaySettings)
    (es : list MouseEvent) (N : nat) (settings : MouseOverlaySettings) :
  let s := exec evs (initial hh hb cfg0) in
  let s' := exec (MouseMove <$> es) s in
  is_Some (cursor s) → mousemove s ≠ [] → trail s = [] →
  store s = Some settings →
  settings.(trailEnabled) = Some true →
  settings.(trailLength) = Some (Num.of_nat N) →
  N < length es →
  length (trail s') = N
  ∧ trail_dot_nodes s' = trail s'
  ∧ length (trail_dot_nodes s') ≤ N.
Proof.
  intros s s' Hc Hm Ht Hs Hen HN HM.
  assert (Ha : armed N s).
  { split; [apply wf_reachable|]. split; [done|].
    exists settings. by rewrite Hen. }
  destruct (armed_moves N es s Ha) as ((Hwf' & _) & Hlen); [rewrite Ht; simpl; lia|].
  fold s' in Hwf', Hlen.
  assert (Hk : 1 ≤ length (mousemove s)) by (destruct (mousemove s); simpl; [done|lia]).
  assert (HN' : length (trail s') = N).
  { rewrite Hlen, Ht. simpl. nia. }
  rewrite (wf_trail_dot_nodes s' Hwf'). repeat split; [done|lia].
Qed.


(** ** The queue and the trailLength setting *)

Lemma of_nat_le (a b : nat) : a ≤ b → (Num.of_nat a <= Num.of_nat b)%Q.
Proof. intros Hab. unfold Num.of_nat. rewrite <- Zle_Qle. lia. Qed.

Lemma gt_false_le (x y : Q) : Num.gt x y = false → (x <= y)%Q.
Proof.
  unfold Num.gt. rewrite negb_false_iff. apply Qle_bool_iff.
Qed.

Lemma within_move (B : Q) (e : MouseEvent) (s : state) :
  wf s → within B s → within B (settle (updateMousePosition e s)).
Proof.
  intros Hwf [Hcap Hlen]. unfold within.
  destruct (updateMousePosition_frame e s Hwf) as (_ & -> & _).
  split; [done|].
  destruct (updateMousePosition_cases e s Hwf)
    as [->|[(c & t & _ & ->)|(c & settings & l & Hc & Hs & Ht & _ & _ & _)]];
    try done.
  rewrite (trail_after_spawn e s c settings) by done.
  destruct (Num.gt _ _) eqn:Hgt.
  - destruct (trail s) as [|d0 t]; simpl.
    + eapply Qle_trans; [|exact Hlen]. by apply of_nat_le.
    + eapply Qle_trans; [|exact Hlen]. apply of_nat_le. rewrite length_app. simpl. lia.
  - apply gt_false_le in Hgt. eapply Qle_trans; [exact Hgt|].
    rewrite Hs in Hcap. exact Hcap.
Qed.

Lemma within_dispatch (B : Q) (e : MouseEvent) (fs : list nat) (s : state) :
  wf s → within B s → within B (settle (dispatch e fs s)).
Proof.
  revert s. induction fs as [|f fs IH]; intros s Hwf Hin; [done|].
  rewrite settle_dispatch_cons.
  apply IH; [by apply wf_updateMousePosition|by apply within_move].
Qed.

Lemma within_step (B : Q) (ev : event) (s : state) :
  (0 <= B)%Q → writes_capped B ev → wf s → within B s → within B (step ev s).
Proof.
  intros HB Hev Hwf [Hcap Hlen]. unfold step. destruct ev; simpl.
  - destruct (start_frame s Hwf) as (Ht & Hs & _).
    unfold within. by rewrite Ht, Hs.
  - destruct (stop_frame s Hwf) as (Ht & Hs & _).
    unfold within. rewrite Ht, Hs. split; [done|]. exact HB.
  - by apply within_dispatch.
  - destruct (timeouts s !! i) as [[due dot]|]; simpl; [|done].
    unfold expire. rewrite detach_remove. split; [done|]. simpl.
    eapply Qle_trans; [|exact Hlen]. apply of_nat_le, length_filter.
  - done.
  - done.
  - destruct (settle_notify this k s) as [-> | ->]; [done|].
    by destruct (updateStyles_cases s) as [->|(st & f & ->)].
Qed.

Lemma within_exec (B : Q) (evs : list event) (s : state) :
  (0 <= B)%Q → Forall (writes_capped B) evs → wf s → within B s →
  within B (exec evs s).
Proof.
  intros HB Hevs. revert s.
  induction Hevs as [|ev evs Hev _ IH]; intros s Hwf Hin; [done|].
  simpl. apply IH; [by apply wf_step|by apply within_step].
Qed.

(** C2 (amended).  Let B be a non-negative bound on every trailLength in
    force during a run from the load of the module: the initial settings
    and every settings object written.  Then the queue never holds more
    than B dots; with trailLength fixed at N this is the bound N.  When
    the length check evicts, it drops the head of the queue, the oldest
    dot, and takes it off the surface. *)
Theorem queue_within_cap
    (B : Q) (evs : list event) (hh hb : bool)
    (cfg0 : option MouseOverlaySettings) :
  (0 <= B)%Q → length_capped B cfg0 → Forall (writes_capped B) evs →
  (Num.of_nat (length (trail (exec evs (initial hh hb cfg0)))) <= B)%Q
  ∧ (∀ settings s d0 t,
       trail s = d0 :: t →
       Num.gt (Num.of_nat (length (trail s)))
         (settings.(trailLength) ?? defaultSettings.trailLength) = true →
       trail (evict settings s) = t
       ∧ (d0 ∉ attached_nodes (evict settings s))).
Proof.
  intros HB Hcfg Hevs. split.
  - apply (within_exec B evs (initial hh hb cfg0) HB Hevs (wf_initial _ _ _)).
    split; [exact Hcfg|exact HB].
  - intros settings s d0 t Ht Hgt.
    destruct (evict_cases settings s) as [[_ [Hf|Hnil]]|(d & t' & Ht' & _ & ->)].
    + congruence.
    + congruence.
    + rewrite Ht in Ht'. injection Ht' as <- <-. split; [done|].
      unfold attached_nodes. frame.
      rewrite head_nodes_remove, body_nodes_remove, elem_of_app,
        !elem_of_without. tauto.
Qed.


(** ** Timeouts *)

Ltac nodes :=
  unfold attached_nodes;
  repeat first
    [ progress frame
    | rewrite head_nodes_remove
    | rewrite body_nodes_remove
    | match goal with
      | |- context [body_nodes (set_body (Some ?l) ?s)] =>
          change (body_nodes (set_body (Some l) s)) with l
      | |- context [head_nodes (set_head (Some ?l) ?s)] =>
          change (head_nodes (set_head (Some l) s)) with l
      end ].

Lemma expire_absent (dot : nat) (s : state) :
  (dot ∉ attached_nodes (expire dot s)) ∧ (dot ∉ trail (expire dot s)).
Proof.
  unfold expire. rewrite detach_remove. simpl. split.
  - nodes. rewrite elem_of_app, !elem_of_without. tauto.
  - fold (without dot (trail s)). rewrite elem_of_without. tauto.
Qed.

Lemma expire_noop (dot : nat) (s : state) :
  dot ∉ attached_nodes s → dot ∉ trail s → expire dot s = s.
Proof.
  intros Hout Htr. unfold expire.
  rewrite detach_remove, remove_not_attached.
  - fold (without dot (trail s)). rewrite without_notin by done.
    apply set_trail_same.
  - apply not_true_is_false. by rewrite hasParent_spec.
Qed.

Lemma stop_absent (s : state) (d : nat) :
  wf s → d ∈ trail s →
  (d ∉ attached_nodes (settle (stop s))) ∧ (d ∉ trail (settle (stop s))).
Proof.
  intros Hwf Hd. rewrite stop_shape by (by apply wf_trail_head_free). simpl.
  split; [|apply not_elem_of_nil].
  nodes. rewrite elem_of_app.
  rewrite (proj1 (elem_of_nodes_remove_all _ _ d)),
          (proj2 (elem_of_nodes_remove_all _ _ d)).
  unfold doomed. rewrite !elem_of_app. tauto.
Qed.

(** C6.  When the timeout callback of a dot runs and the dot is on
    neither the surface nor the queue, the event completes normally and
    the state is the one before with that timeout gone; so the surface and
    the queue are unchanged and still lack the dot.  A dot evicted by the
    length check, or present at [stop], is in that situation. *)
Theorem timeout_after_removal :
  (∀ s i due dot,
      timeouts s !! i = Some (due, dot) →
      dot ∉ attached_nodes s → dot ∉ trail s →
      handle (Timeout i) s = Normal (set_timeouts (delete i (timeouts s)) s))
  ∧ (∀ s i, ∃ s', handle (Timeout i) s = Normal s')
  ∧ (∀ settings s d0 t,
      wf s → trail s = d0 :: t →
      Num.gt (Num.of_nat (length (trail s)))
        (settings.(trailLength) ?? defaultSettings.trailLength) = true →
      (d0 ∉ attached_nodes (evict settings s))
      ∧ (d0 ∉ trail (evict settings s)))
  ∧ (∀ s d, wf s → d ∈ trail s →
      (d ∉ attached_nodes (settle (stop s)))
      ∧ (d ∉ trail (settle (stop s)))).
Proof.
  split; [|split; [|split]].
  - intros s i due dot Hi Hout Htr. simpl. rewrite Hi.
    rewrite expire_noop; done.
  - intros s i. simpl. destruct (timeouts s !! i) as [[due dot]|]; by eexists.
  - intros settings s d0 t Hwf Ht Hgt.
    destruct (evict_cases settings s) as [[_ [Hf|Hnil]]|(d & t' & Ht' & _ & ->)];
      [congruence..|].
    rewrite Ht in Ht'. injection Ht' as <- <-. split.
    + nodes. rewrite elem_of_app, !elem_of_without. tauto.
    + simpl. pose proof (wf_trail_nodup s Hwf) as Hnd.
      rewrite Ht in Hnd. by apply NoDup_cons in Hnd as [? _].
  - intros s d. apply stop_absent.
Qed.

(** ** Steps that only add *)

Lemma grows_refl (s : state) : grows s s.
Proof. split; auto. Qed.

Lemma grows_trans (s1 s2 s3 : state) : grows s1 s2 → grows s2 s3 → grows s1 s3.
Proof.
  intros [Ha1 Ht1 Hto1 Hc1 Hf1] [Ha2 Ht2 Hto2 Hc2 Hf2]. split.
  - intros n Hn. destruct (Ha2 n Hn) as [Hn'|?]; [|right; lia].
    destruct (Ha1 n Hn'); auto.
  - intros n Hn. destruct (Ht2 n Hn) as [Hn'|?]; [|right; lia].
    destruct (Ht1 n Hn'); auto.
  - auto.
  - congruence.
  - lia.
Qed.

Lemma grows_update (m : nat) (f : Element → Element) (s : state) :
  grows s (update m f s).
Proof. split; auto. Qed.

Lemma grows_updateStyles (s : state) : grows s (updateStyles s).
Proof.
  destruct (updateStyles_cases s) as [->|(st & f & ->)];
    [apply grows_refl|apply grows_update].
Qed.

Lemma grows_move (e : MouseEvent) (s : state) :
  wf s → grows s (settle (updateMousePosition e s)).
Proof.
  intros Hwf.
  destruct (updateMousePosition_cases e s Hwf)
    as [->|[(c & t & _ & ->)|(c & settings & l & _ & _ & _ & Hl & _ & ->)]];
    [apply grows_refl|apply grows_update|].
  assert (Hbn : body_nodes s = l) by (unfold body_nodes; by rewrite Hl).
  simpl.
  match goal with |- context [evict settings ?x] =>
    destruct (evict_cases settings x) as [[-> _]|(d0 & t & Ht & _ & ->)]
  end.
  - split; simpl.
    + intros n. nodes. rewrite <- Hbn, !elem_of_app, list_elem_of_singleton.
      intros [?|[?| ->]]; auto.
    + intros n. rewrite elem_of_app, list_elem_of_singleton.
      intros [?| ->]; auto.
    + intros t Ht. apply elem_of_app. by left.
    + done.
    + lia.
  - simpl in Ht. split; simpl.
    + intros n. nodes.
      rewrite <- Hbn, !elem_of_app, !elem_of_without, elem_of_app,
        list_elem_of_singleton.
      intros [[? _]|[[?| ->] _]]; auto.
    + intros n Hn.
      assert (Hin : n ∈ trail s ++ [fresh s]) by (rewrite Ht; by right).
      apply elem_of_app in Hin as [?| ->%list_elem_of_singleton]; auto.
    + intros t' Ht'. apply elem_of_app. by left.
    + done.
    + lia.
Qed.

Lemma grows_dispatch (e : MouseEvent) (fs : list nat) (s : state) :
  wf s → grows s (settle (dispatch e fs s)).
Proof.
  revert s. induction fs as [|f fs IH]; intros s Hwf; [apply grows_refl|].
  rewrite settle_dispatch_cons.
  eapply grows_trans; [by apply grows_move|].
  apply IH. by apply wf_updateMousePosition.
Qed.

Lemma grows_listen (f g : nat) (s : state) :
  fresh s ≤ g →
  grows s (addEventListener f (set_bound (Some f) (set_fresh g s))).
Proof.
  intros Hg. unfold addEventListener.
  case_decide; (split; [by left|by left|done|done|done]).
Qed.

Lemma grows_start (s : state) : wf s → grows s (settle (start s)).
Proof.
  intros Hwf.
  destruct (body_children s) as [lb|] eqn:Hb;
    [|rewrite start_no_body by done; apply grows_refl].
  destruct (head_children s) as [lh|] eqn:Hh.
  - pose proof (wf_not_attached s (fresh s) Hwf (le_n _)) as Hst.
    pose proof (wf_not_attached s (S (fresh s)) Hwf (le_S _ _ (le_n _))) as Hc.
    rewrite (start_ok s lh lb) by done. cbn [settle].
    assert (Hhn : head_nodes s = lh) by (unfold head_nodes; by rewrite Hh).
    assert (Hbn : body_nodes s = lb) by (unfold body_nodes; by rewrite Hb).
    assert (Hg : grows s (set_body (Some (lb ++ [S (fresh s)]))
                    (set_head (Some (lh ++ [fresh s])) (created s)))).
    { split.
      - intros n. nodes.
        rewrite <- Hhn, <- Hbn, !elem_of_app, !list_elem_of_singleton.
        intros [[?| ->]|[?| ->]]; auto.
      - intros n Hn. by left.
      - done.
      - done.
      - simpl. lia. }
    eapply grows_trans; [exact Hg|].
    eapply grows_trans; [apply grows_updateStyles|].
    apply grows_listen. rewrite fresh_updateStyles. simpl. lia.
  - rewrite (start_no_head s lb) by done. cbn [settle].
    split; [by left|by left|done|done|simpl; lia].
Qed.

Lemma grows_stop (s : state) : wf s → grows s (settle (stop s)).
Proof.
  intros Hwf. rewrite stop_shape by (by apply wf_trail_head_free). simpl.
  destruct (remove_all_frame (doomed s) (unbind s)) as (_ & Hto & Hcl & _ & Hf & _).
  assert (Hu : head_nodes (unbind s) = head_nodes s
               ∧ body_nodes (unbind s) = body_nodes s
               ∧ timeouts (unbind s) = timeouts s ∧ clock (unbind s) = clock s
               ∧ fresh (unbind s) = fresh s).
  { unfold unbind. by destruct (boundUpdateMousePosition s). }
  destruct Hu as (Hh & Hb & Hto' & Hcl' & Hf').
  split; simpl.
  - intros n. nodes. rewrite !elem_of_app.
    rewrite (proj1 (elem_of_nodes_remove_all _ _ n)),
            (proj2 (elem_of_nodes_remove_all _ _ n)), Hh, Hb. tauto.
  - intros n Hn. by apply elem_of_nil in Hn.
  - intros t. by rewrite Hto, Hto'.
  - by rewrite Hcl, Hcl'.
  - rewrite Hf, Hf'. lia.
Qed.


(** ** A dot and its timeout *)

Lemma elem_of_delete_other {A} (l : list A) (i : nat) (x y : A) :
  x ∈ l → l !! i = Some y → x ≠ y → x ∈ delete i l.
Proof.
  revert i. induction l as [|a l IH]; intros i Hx Hi Hne.
  - by apply elem_of_nil in Hx.
  - destruct i as [|i]; simpl in *.
    + injection Hi as ->. apply elem_of_cons in Hx as [->|Hx]; [done|exact Hx].
    + apply elem_of_cons in Hx as [->|Hx]; [by left|].
      right. by apply (IH i).
Qed.

Lemma pending_grows (T dot : nat) (s s' : state) :
  grows s s' → pending T dot s → pending T dot s'.
Proof.
  intros [Ha Ht Hto Hc Hf] [Hlt Hp]. split; [lia|].
  intros Hin. rewrite Hc.
  assert (Hold : dot ∈ attached_nodes s ∨ dot ∈ trail s).
  { destruct Hin as [Hin|Hin].
    - destruct (Ha dot Hin); [by left|lia].
    - destruct (Ht dot Hin); [by right|lia]. }
  destruct (Hp Hold) as [Hpend Hclock]. split; [by apply Hto|done].
Qed.

Lemma pending_step (T dot : nat) (ev : event) (s : state) :
  wf s → punctual ev s = true → pending T dot s → pending T dot (step ev s).
Proof.
  intros Hwf Hpun Hp. unfold step. destruct ev; simpl.
  - eapply pending_grows; [by apply grows_start|done].
  - eapply pending_grows; [by apply grows_stop|done].
  - eapply pending_grows; [by apply grows_dispatch|done].
  - destruct (timeouts s !! i) as [[due d]|] eqn:Hi; simpl; [|done].
    destruct Hp as [Hlt Hp].
    unfold expire. rewrite detach_remove. split; [done|].
    nodes. cbn [trail set_trail timeouts clock remove set_body set_head
                set_timeouts].
    fold (without d (trail s)).
    rewrite elem_of_app, !elem_of_without. intros Hin.
    destruct Hp as [Hpend Hclock];
      [unfold attached_nodes; rewrite elem_of_app; tauto|].
    split; [|done].
    apply (elem_of_delete_other _ i _ (due, d)); [done..|].
    intros [= _ <-]. tauto.
  - destruct Hp as [Hlt Hp]. split; [done|]. simpl. intros Hin.
    destruct (Hp Hin) as [Hpend _]. split; [done|].
    simpl in Hpun. rewrite forallb_forall in Hpun.
    apply list_elem_of_In, Hpun in Hpend. simpl in Hpend.
    by apply Nat.leb_le in Hpend.
  - done.
  - destruct (settle_notify this k s) as [-> | ->]; [done|].
    eapply pending_grows; [apply grows_updateStyles|done].
Qed.

Lemma pending_exec (T dot : nat) (evs : list event) (s : state) :
  wf s → allowed punctual evs s = true → pending T dot s →
  pending T dot (exec evs s).
Proof.
  revert s. induction evs as [|ev evs IH]; intros s Hwf Hall Hp; [done|].
  simpl in *. apply andb_prop in Hall as [Hev Hall].
  apply IH; [by apply wf_step|done|by apply pending_step].
Qed.

(** C5.  In a reachable state with an overlay node and the trail enabled,
    a call of the move handler creates the dot and leaves a timeout for it
    due 100 ms later.  In every run in which the event loop lets no pending
    timeout become overdue, the dot, while it is still on the surface or in
    the queue, has that timeout pending and the clock is at most 100 ms
    past its creation; once the clock is beyond, the dot is on neither.
    Whenever the timeout runs, in whatever state, the dot is afterwards
    detached and out of the queue. *)
Theorem trail_dot_expires
    (evs0 : list event) (hh hb : bool) (cfg0 : option MouseOverlaySettings)
    (e : MouseEvent) (c : nat) (settings : MouseOverlaySettings) :
  let s := exec evs0 (initial hh hb cfg0) in
  let dot := fresh s in
  let s1 := settle (updateMousePosition e s) in
  cursor s = Some c → store s = Some settings →
  truthy settings.(trailEnabled) = true →
  is_trail_dot s1 dot
  ∧ (clock s + 100, dot) ∈ timeouts s1
  ∧ (∀ evs, allowed punctual evs s1 = true →
       ((dot ∈ attached_nodes (exec evs s1) ∨ dot ∈ trail (exec evs s1)) →
        (clock s + 100, dot) ∈ timeouts (exec evs s1)
        ∧ clock (exec evs s1) ≤ clock s + 100)
       ∧ (clock s + 100 < clock (exec evs s1) →
          (dot ∉ attached_nodes (exec evs s1))
          ∧ (dot ∉ trail (exec evs s1))))
  ∧ (∀ s2 i due, timeouts s2 !! i = Some (due, dot) →
       (dot ∉ attached_nodes (step (Timeout i) s2))
       ∧ (dot ∉ trail (step (Timeout i) s2))).
Proof.
  intros s dot s1 Hc Hs Ht.
  assert (Hwf : wf s) by apply wf_reachable.
  assert (Hwf1 : wf s1) by (by apply wf_updateMousePosition).
  destruct (wf_cursor s Hwf c Hc) as (_ & _ & [l Hl]).
  pose proof (wf_not_attached s (fresh s) Hwf (le_n _)) as Hout.
  assert (Hshape : (clock s + 100, dot) ∈ timeouts s1 ∧ clock s1 = clock s
                   ∧ fresh s1 = S (fresh s)).
  { unfold s1. rewrite (updateMousePosition_spawn e s c settings l) by done.
    simpl.
    match goal with |- context [evict settings ?x] =>
      destruct (evict_cases settings x) as [[-> _]|(d0 & t & _ & _ & ->)]
    end; simpl; (split; [|done]); apply elem_of_app; right; by left. }
  destruct Hshape as (Hin & Hclock & Hfresh).
  assert (Hp : pending (clock s + 100) dot s1).
  { split; [unfold dot; lia|]. intros _. split; [done|lia]. }
  split; [|split; [done|split]].
  - unfold is_trail_dot, s1, dot.
    rewrite (elements_after_spawn e s c settings) by done.
    by rewrite spawned_elements_dot.
  - intros evs Hall.
    destruct (pending_exec _ _ evs s1 Hwf1 Hall Hp) as [_ Hpend].
    split; [exact Hpend|].
    intros Hlate. split; intros Hin'; destruct Hpend as [_ ?]; auto; lia.
  - intros s2 i due Hi. unfold step. simpl. rewrite Hi. simpl.
    apply expire_absent.
Qed.


(** ** The invariant [tidy] under the host's pairing *)

Lemma tidy_frame (s s' : state) :
  head_children s' = head_children s →
  body_children s' = body_children s →
  style s' = style s → cursor s' = cursor s → trail s' = trail s →
  boundUpdateMousePosition s' = boundUpdateMousePosition s →
  mousemove s' = mousemove s →
  tidy s → tidy s'.
Proof.
  intros Hh Hb Hst Hc Ht Hbd Hm [T1 T2 T3 T4].
  assert (Hhn : head_nodes s' = head_nodes s) by (unfold head_nodes; by rewrite Hh).
  assert (Hbn : body_nodes s' = body_nodes s) by (unfold body_nodes; by rewrite Hb).
  split; unfold attached_nodes; rewrite ?Hhn, ?Hbn, ?Hst, ?Hc, ?Ht, ?Hbd, ?Hm;
    done.
Qed.

Lemma tidy_initial hh hb settings : tidy (initial hh hb settings).
Proof.
  split; unfold attached_nodes, head_nodes, body_nodes; simpl.
  - destruct hh; simpl; intros n Hn; by apply elem_of_nil in Hn.
  - destruct hb; simpl; intros n Hn; by apply elem_of_nil in Hn.
  - intros f Hf. by apply elem_of_nil in Hf.
  - by destruct hh, hb.
Qed.

Lemma updateStyles_same (s : state) :
  head_children (updateStyles s) = head_children s
  ∧ body_children (updateStyles s) = body_children s
  ∧ style (updateStyles s) = style s
  ∧ cursor (updateStyles s) = cursor s
  ∧ trail (updateStyles s) = trail s
  ∧ boundUpdateMousePosition (updateStyles s) = boundUpdateMousePosition s
  ∧ mousemove (updateStyles s) = mousemove s.
Proof. by destruct (updateStyles_cases s) as [->|(st & f & ->)]. Qed.

Lemma tidy_updateStyles (s : state) : tidy s → tidy (updateStyles s).
Proof.
  destruct (updateStyles_same s) as (?&?&?&?&?&?&?). by apply tidy_frame.
Qed.

Lemma tidy_idle_empty (s : state) :
  tidy s → boundUpdateMousePosition s = None →
  head_nodes s = [] ∧ body_nodes s = [] ∧ trail s = [] ∧ mousemove s = [].
Proof.
  intros [T1 T2 T3 T4] Hb. destruct (T4 Hb) as [Ha Ht].
  unfold attached_nodes in Ha. apply app_eq_nil in Ha as [Hh Hbd].
  repeat split; try done.
  apply nil_of_no_elem. intros f Hf. specialize (T3 f Hf). congruence.
Qed.

(** The first [start] in an idle state leaves exactly its own two nodes
    and its own listener. *)
Lemma tidy_start (s : state) :
  wf s → tidy s → boundUpdateMousePosition s = None → tidy (settle (start s)).
Proof.
  intros Hwf Htidy Hb.
  destruct (tidy_idle_empty s Htidy Hb) as (Hhn & Hbn & Htr & Hmm).
  destruct (body_children s) as [lb|] eqn:Hbody;
    [|by rewrite start_no_body].
  assert (lb = []) as -> by (unfold body_nodes in Hbn; by rewrite Hbody in Hbn).
  destruct (head_children s) as [lh|] eqn:Hhead.
  - assert (lh = []) as -> by (unfold head_nodes in Hhn; by rewrite Hhead in Hhn).
    pose proof (wf_not_attached s (fresh s) Hwf (le_n _)) as Hst.
    pose proof (wf_not_attached s (S (fresh s)) Hwf (le_S _ _ (le_n _))) as Hc.
    rewrite (start_ok s [] []) by done. cbn [settle app].
    set (X := set_body _ _).
    destruct (updateStyles_same X) as (Eh & Eb & Est & Ec & Et & Ebd & Em).
    unfold addEventListener.
    assert (Hnot : S (S (fresh s)) ∉ mousemove (updateStyles X)).
    { rewrite Em. unfold X; simpl. rewrite Hmm. apply not_elem_of_nil. }
    rewrite decide_False by exact Hnot.
    split; unfold attached_nodes, head_nodes, body_nodes;
      cbn [head_children body_children style cursor trail mousemove
           boundUpdateMousePosition set_mousemove set_bound set_fresh];
      rewrite ?Eh, ?Eb, ?Est, ?Ec, ?Et, ?Em; unfold X; simpl.
    + intros n ->%list_elem_of_singleton. done.
    + intros n ->%list_elem_of_singleton. by left.
    + rewrite Hmm. intros f ->%list_elem_of_singleton. done.
    + done.
  - rewrite (start_no_head s []) by done. cbn [settle].
    split; unfold attached_nodes;
      change (head_nodes (created s)) with (head_nodes s);
      change (body_nodes (created s)) with (body_nodes s);
      change (trail (created s)) with (trail s);
      change (mousemove (created s)) with (mousemove s);
      rewrite ?Hhn, ?Hbn, ?Htr, ?Hmm; try done;
      intros n Hn; by apply elem_of_nil in Hn.
Qed.

Lemma tidy_move (e : MouseEvent) (s : state) :
  wf s → tidy s → is_Some (boundUpdateMousePosition s) →
  tidy (settle (updateMousePosition e s)).
Proof.
  intros Hwf Htidy [f Hf].
  destruct (updateMousePosition_cases e s Hwf)
    as [->|[(c & t & _ & ->)|(c & settings & l & Hc & _ & _ & Hl & _ & ->)]];
    [done|by apply (tidy_frame s)|].
  destruct Htidy as [T1 T2 T3 T4].
  assert (Hbn : body_nodes s = l) by (unfold body_nodes; by rewrite Hl).
  cbn [settle].
  match goal with |- context [evict settings ?x] =>
    destruct (evict_cases settings x) as [[-> _]|(d0 & t & Ht & _ & ->)]
  end.
  - split.
    + intros n. nodes. apply T1.
    + intros n. nodes. cbn [trail setTimeout set_timeouts set_trail cursor].
      rewrite <- Hbn, !elem_of_app, list_elem_of_singleton.
      intros [Hn| ->]; [|by right; right].
      destruct (T2 n Hn); [by left|by right; left].
    + exact T3.
    + intros Hnone. simpl in Hnone. congruence.
  - cbn [trail set_trail] in Ht. split.
    + intros n. nodes. rewrite elem_of_without. intros [Hn _]. by apply T1.
    + intros n. nodes. cbn [trail setTimeout set_timeouts set_trail cursor].
      rewrite <- Hbn, elem_of_without, elem_of_app, list_elem_of_singleton.
      intros [Hn Hne].
      destruct Hn as [Hn| ->].
      * destruct (T2 n Hn) as [Hcur|Htr]; [by left|]. right.
        assert (Hin : n ∈ d0 :: t) by (rewrite <- Ht, elem_of_app; by left).
        by apply elem_of_cons in Hin as [?|?].
      * right.
        assert (Hin : fresh s ∈ d0 :: t).
        { rewrite <- Ht, elem_of_app, list_elem_of_singleton. by right. }
        by apply elem_of_cons in Hin as [?|?].
    + exact T3.
    + intros Hnone. simpl in Hnone. congruence.
Qed.

Lemma tidy_dispatch (e : MouseEvent) (fs : list nat) (s : state) :
  wf s → tidy s → is_Some (boundUpdateMousePosition s) →
  tidy (settle (dispatch e fs s)).
Proof.
  revert s. induction fs as [|f fs IH]; intros s Hwf Htidy Hb; [done|].
  rewrite settle_dispatch_cons.
  apply IH; [by apply wf_updateMousePosition|by apply tidy_move|].
  by destruct (updateMousePosition_frame e s Hwf) as (_ & _ & _ & _ & -> & _).
Qed.

Lemma tidy_expire (d : nat) (s : state) : tidy s → tidy (expire d s).
Proof.
  intros [T1 T2 T3 T4]. unfold expire. rewrite detach_remove. split.
  - intros n. nodes. rewrite elem_of_without. intros [Hn _]. by apply T1.
  - intros n. nodes. cbn [trail set_trail cursor remove set_body set_head].
    fold (without d (trail s)). rewrite !elem_of_without.
    intros [Hn Hne]. destruct (T2 n Hn); [by left|by right].
  - exact T3.
  - intros Hb. destruct (T4 Hb) as [Ha Ht].
    unfold attached_nodes in *. apply app_eq_nil in Ha as [Hh Hbd].
    nodes. cbn [trail set_trail remove set_body set_head].
    by rewrite Hh, Hbd, Ht.
Qed.

(** [stop] in a tidy state leaves nothing attached and no listener. *)
Lemma stop_clears (s : state) :
  wf s → tidy s →
  attached_nodes (settle (stop s)) = [] ∧ mousemove (settle (stop s)) = [].
Proof.
  intros Hwf [T1 T2 T3 T4].
  rewrite stop_shape by (by apply wf_trail_head_free). cbn [settle].
  assert (Hu : head_nodes (unbind s) = head_nodes s
               ∧ body_nodes (unbind s) = body_nodes s).
  { unfold unbind. by destruct (boundUpdateMousePosition s). }
  destruct Hu as [Hh Hb]. split.
  - apply nil_of_no_elem. intros n. nodes. rewrite elem_of_app.
    rewrite (proj1 (elem_of_nodes_remove_all _ _ n)),
            (proj2 (elem_of_nodes_remove_all _ _ n)), Hh, Hb.
    unfold doomed. rewrite !elem_of_app.
    intros [[Hn Hout]|[Hn Hout]]; apply Hout.
    + left. rewrite (T1 n Hn). by left.
    + destruct (T2 n Hn) as [Hc|Ht]; [|by right; right].
      right; left. rewrite Hc. by left.
  - destruct (remove_all_frame (doomed s) (unbind s)) as (_ & _ & _ & Hm & _).
    cbn [mousemove set_cursor set_style set_trail]. rewrite Hm.
    apply nil_of_no_elem. intros f. unfold unbind.
    destruct (boundUpdateMousePosition s) as [g|] eqn:Hg.
    + cbn [mousemove set_bound removeEventListener set_mousemove].
      rewrite elem_of_without. intros [Hf Hne]. specialize (T3 f Hf). congruence.
    + intros Hf. specialize (T3 f Hf). congruence.
Qed.

Lemma tidy_stop (s : state) : wf s → tidy s → tidy (settle (stop s)).
Proof.
  intros Hwf Htidy. destruct (stop_clears s Hwf Htidy) as [Ha Hm].
  destruct (stop_total s) as (s' & Hs' & Ht & _).
  rewrite Hs' in *. cbn [settle] in *.
  unfold attached_nodes in Ha. apply app_eq_nil in Ha as [Hh Hb].
  split; unfold attached_nodes; rewrite ?Hh, ?Hb, ?Hm, ?Ht; try done;
    intros n Hn; by apply elem_of_nil in Hn.
Qed.

Lemma tidy_step (ev : event) (s : state) :
  wf s → tidy s → host_allows ev s = true → tidy (step ev s).
Proof.
  intros Hwf Htidy Hok. unfold step. destruct ev; cbn [handle].
  - apply tidy_start; try done. simpl in Hok. by apply bool_decide_eq_true in Hok.
  - by apply tidy_stop.
  - destruct (mousemove s) as [|f fs] eqn:Hm; [done|].
    apply tidy_dispatch; try done.
    exists f. apply (tidy_listeners s Htidy). rewrite Hm. by left.
  - destruct (timeouts s !! i) as [[due dot]|]; cbn [settle]; [|done].
    apply tidy_expire. by apply (tidy_frame s).
  - by apply (tidy_frame s).
  - by apply (tidy_frame s).
  - destruct (settle_notify this k s) as [-> | ->]; [done|].
    by apply tidy_updateStyles.
Qed.

Lemma tidy_exec (evs : list event) (s : state) :
  wf s → tidy s → allowed host_allows evs s = true → tidy (exec evs s).
Proof.
  revert s. induction evs as [|ev evs IH]; intros s Hwf Htidy Hall; [done|].
  rewrite exec_cons. cbn [allowed] in Hall.
  apply andb_prop in Hall as [Hev Hall].
  apply IH; [by apply wf_step|by apply tidy_step|done].
Qed.

Lemma no_nodes_of_kind (P : nat → Prop) `{∀ n, Decision (P n)} (s : state) :
  attached_nodes s = [] → filter P (attached_nodes s) = [].
Proof. by intros ->. Qed.

(** C7.  [stop] returns normally from every state, with the queue empty
    and the stylesheet, overlay and listener references released.  After
    any run in which the host starts the plugin only while it holds no
    listener, [stop] moreover leaves nothing attached, so no overlay node,
    no stylesheet node and no trail dot, and no listener subscribed.
    Without a prior [start], the state after [stop] is the state before. *)
Theorem stop_reaches_inactive :
  (∀ s, ∃ s', stop s = Normal s'
        ∧ trail s' = [] ∧ style s' = None ∧ cursor s' = None
        ∧ boundUpdateMousePosition s' = None)
  ∧ (∀ evs hh hb cfg0,
       allowed host_allows evs (initial hh hb cfg0) = true →
       ∃ s', stop (exec evs (initial hh hb cfg0)) = Normal s'
         ∧ overlay_nodes s' = [] ∧ stylesheet_nodes s' = []
         ∧ trail_dot_nodes s' = [] ∧ attached_nodes s' = []
         ∧ trail s' = [] ∧ mousemove s' = []
         ∧ style s' = None ∧ cursor s' = None
         ∧ boundUpdateMousePosition s' = None)
  ∧ (∀ hh hb cfg0, stop (initial hh hb cfg0) = Normal (initial hh hb cfg0)).
Proof.
  split; [exact stop_total|split].
  - intros evs hh hb cfg0 Hall.
    set (s := exec evs (initial hh hb cfg0)).
    assert (Hwf : wf s) by apply wf_reachable.
    assert (Htidy : tidy s)
      by (apply tidy_exec; [apply wf_initial|apply tidy_initial|done]).
    destruct (stop_clears s Hwf Htidy) as [Ha Hm].
    destruct (stop_total s) as (s' & Hs' & Ht & Hst & Hc & Hb).
    rewrite Hs' in Ha, Hm. cbn [settle] in Ha, Hm.
    exists s'. split; [done|].
    unfold overlay_nodes, stylesheet_nodes, trail_dot_nodes.
    rewrite !no_nodes_of_kind by done. done.
  - intros hh hb cfg0. by destruct hh, hb.
Qed.


(** * Further properties *)

(** ** Tag, id and class of an object *)

Lemma kind_update_keep (f : Element → Element) (m n : nat) (s : state) :
  (∀ e, tagName (f e) = tagName e ∧ elem_id (f e) = elem_id e
        ∧ className (f e) = className e) →
  kind (update m f s) n = kind s n.
Proof.
  intros Hf. unfold kind, kind_of, update. cbn [elements set_elements].
  destruct (decide (m = n)) as [->|Hne].
  - rewrite lookup_alter_eq. destruct (elements s !! n) as [e|]; [|done].
    cbn. destruct (Hf e) as (-> & -> & ->). done.
  - by rewrite lookup_alter_ne.
Qed.

Lemma kind_updateStyles (s : state) (n : nat) :
  kind (updateStyles s) n = kind s n.
Proof.
  destruct (updateStyles_cases s) as [->|(st & f & Heq)]; [done|].
  unfold updateStyles in *.
  destruct (style s) as [st'|]; [|done]. destruct (store s); [|done].
  by apply kind_update_keep.
Qed.

Lemma kind_spawned_dot e settings c s :
  kind_of (spawned_elements e settings c s) (fresh s) = Some dot_kind.
Proof. unfold kind_of. by rewrite spawned_elements_dot. Qed.

Lemma kind_spawned_other e settings c s n :
  n ≠ fresh s → kind_of (spawned_elements e settings c s) n = kind s n.
Proof.
  intros Hn. unfold kind_of. rewrite spawned_elements_other by done.
  by apply (kind_update_keep _ c n s).
Qed.

Lemma created_other_element (s : state) (n : nat) :
  n < fresh s → elements (created s) !! n = elements s !! n.
Proof.
  intros Hn. unfold created, update, createElement; simpl.
  rewrite lookup_alter_ne, !lookup_insert_ne by lia. done.
Qed.

Lemma kind_created (s : state) :
  kind (created s) (fresh s) = Some style_kind
  ∧ kind (created s) (S (fresh s)) = Some overlay_kind
  ∧ ∀ n, n < fresh s → kind (created s) n = kind s n.
Proof.
  unfold kind, kind_of. rewrite created_style_element, created_overlay_element.
  repeat split; try done. intros n Hn. by rewrite created_other_element.
Qed.

(** The objects after a step, in a well-formed state. *)
Lemma elements_start (s : state) :
  wf s → is_Some (body_children s) →
  ∀ n, kind (settle (start s)) n = kind (created s) n.
Proof.
  intros Hwf [lb Hb] n.
  destruct (head_children s) as [lh|] eqn:Hh;
    [|by rewrite (start_no_head s lb)].
  pose proof (wf_not_attached s (fresh s) Hwf (le_n _)) as Hst.
  pose proof (wf_not_attached s (S (fresh s)) Hwf (le_S _ _ (le_n _))) as Hc.
  rewrite (start_ok s lh lb) by done. cbn [settle].
  set (X := set_body _ _).
  transitivity (kind (updateStyles X) n);
    [unfold addEventListener; by case_decide|].
  by rewrite kind_updateStyles.
Qed.

Lemma elements_stop (s : state) :
  wf s → elements (settle (stop s)) = elements s.
Proof.
  intros Hwf. rewrite stop_shape by (by apply wf_trail_head_free).
  cbn [settle elements set_cursor set_style set_trail].
  destruct (remove_all_frame (doomed s) (unbind s)) as (_ & _ & _ & _ & _ & ->).
  unfold unbind. by destruct (boundUpdateMousePosition s).
Qed.

Lemma elements_expire (d : nat) (s : state) : elements (expire d s) = elements s.
Proof. unfold expire. by rewrite detach_remove. Qed.

Lemma kind_move (e : MouseEvent) (s : state) (n : nat) :
  wf s → n < fresh s →
  kind (settle (updateMousePosition e s)) n = kind s n.
Proof.
  intros Hwf Hn.
  destruct (updateMousePosition_cases e s Hwf)
    as [->|[(c & t & _ & ->)|(c & settings & l & Hc & Hs & Ht & _ & _ & _)]];
    [done|by apply kind_update_keep|].
  unfold kind. rewrite (elements_after_spawn e s c settings) by done.
  apply kind_spawned_other. lia.
Qed.

Lemma fresh_move (e : MouseEvent) (s : state) :
  wf s → fresh s ≤ fresh (settle (updateMousePosition e s)).
Proof. intros Hwf. apply (grows_fresh _ _ (grows_move e s Hwf)). Qed.

Lemma kind_dispatch (e : MouseEvent) (fs : list nat) (s : state) (n : nat) :
  wf s → n < fresh s → kind (settle (dispatch e fs s)) n = kind s n.
Proof.
  revert s. induction fs as [|f fs IH]; intros s Hwf Hn; [done|].
  rewrite settle_dispatch_cons, IH.
  - by apply kind_move.
  - by apply wf_updateMousePosition.
  - pose proof (fresh_move e s Hwf). lia.
Qed.

(** An object keeps its tag, id and class through every step. *)
Lemma kind_step (ev : event) (s : state) (n : nat) :
  wf s → n < fresh s → kind (step ev s) n = kind s n.
Proof.
  intros Hwf Hn. unfold step. destruct ev; cbn [handle].
  - destruct (body_children s) as [lb|] eqn:Hb; [|by rewrite start_no_body].
    rewrite elements_start by (by rewrite ?Hb). by apply kind_created.
  - unfold kind. by rewrite elements_stop.
  - by apply kind_dispatch.
  - destruct (timeouts s !! i) as [[due d]|]; cbn [settle]; [|done].
    unfold kind. by rewrite elements_expire.
  - done.
  - done.
  - destruct (settle_notify this k s) as [-> | ->]; [done|].
    apply kind_updateStyles.
Qed.


(** ** The invariant [shaped] *)

Lemma wf_trail_fresh (s : state) (d : nat) : wf s → d ∈ trail s → d < fresh s.
Proof.
  intros Hwf Hd. pose proof (wf_fresh s Hwf) as Hf.
  rewrite Forall_forall in Hf. apply Hf.
  unfold attached_nodes. apply elem_of_app. right.
  by apply wf_trail_attached.
Qed.

Lemma elem_of_tail {A} (x : A) (l : list A) : x ∈ tail l → x ∈ l.
Proof. destruct l; simpl; [done|]. by right. Qed.

Lemma elem_of_delete_inv {A} (l : list A) (i : nat) (x : A) :
  x ∈ delete i l → x ∈ l.
Proof.
  revert i. induction l as [|a l IH]; intros i Hx; [done|].
  destruct i as [|i]; simpl in Hx; [by right|].
  apply elem_of_cons in Hx as [->|Hx]; [by left|]. right. by apply (IH i).
Qed.

(** The fields of the state after one call of the move handler. *)
Lemma move_fields (e : MouseEvent) (s : state) :
  wf s →
  let s' := settle (updateMousePosition e s) in
  (trail s' = trail s ∧ timeouts s' = timeouts s ∧ fresh s' = fresh s
   ∧ head_nodes s' = head_nodes s ∧ body_nodes s' = body_nodes s)
  ∨ (∃ c settings,
       cursor s = Some c ∧ store s = Some settings
       ∧ truthy settings.(trailEnabled) = true
       ∧ trail s' =
           (if Num.gt (Num.of_nat (length (trail s ++ [fresh s])))
                 (settings.(trailLength) ?? defaultSettings.trailLength)
            then tail (trail s ++ [fresh s]) else trail s ++ [fresh s])
       ∧ timeouts s' = timeouts s ++ [(clock s + 100, fresh s)]
       ∧ fresh s' = S (fresh s)
       ∧ kind s' (fresh s) = Some dot_kind
       ∧ ((head_nodes s' = head_nodes s
           ∧ body_nodes s' = body_nodes s ++ [fresh s])
          ∨ (∃ d0 t, trail s ++ [fresh s] = d0 :: t
               ∧ head_nodes s' = without d0 (head_nodes s)
               ∧ body_nodes s' = without d0 (body_nodes s ++ [fresh s])))).
Proof.
  intros Hwf s'. unfold s'.
  destruct (updateMousePosition_cases e s Hwf)
    as [->|[(c & t & _ & ->)|(c & settings & l & Hc & Hs & Ht & Hl & Hout & Heq)]];
    [by left|by left|].
  right. exists c, settings.
  assert (Hbn : body_nodes s = l) by (unfold body_nodes; by rewrite Hl).
  split; [done|]. split; [done|]. split; [done|].
  split; [by apply (trail_after_spawn e s c settings)|].
  assert (Hk : kind (settle (updateMousePosition e s)) (fresh s) = Some dot_kind).
  { unfold kind. rewrite (elements_after_spawn e s c settings) by done.
    apply kind_spawned_dot. }
  split; [|split; [|split; [exact Hk|]]]; rewrite Heq; cbn [settle];
    match goal with |- context [evict settings ?x] =>
      destruct (evict_cases settings x) as [[-> _]|(d0 & t & Ht0 & _ & ->)]
    end; try reflexivity.
  - left. split; [reflexivity|]. nodes. by rewrite Hbn.
  - right. exists d0, t. split; [exact Ht0|]. split; nodes; [done|].
    by rewrite Hbn.
Qed.

Lemma shaped_move (e : MouseEvent) (s : state) :
  wf s → shaped s → shaped (settle (updateMousePosition e s)).
Proof.
  intros Hwf [S1 S2 S3 S4].
  destruct (updateMousePosition_frame e s Hwf) as (Hc & _ & _ & Hst & _).
  pose proof (fresh_move e s Hwf) as Hfr.
  destruct (move_fields e s Hwf)
    as [(Ht & Hto & Hf & _)
       |(c & settings & _ & _ & _ & Ht & Hto & Hf & Hk & _)].
  - split.
    + intros d Hd. rewrite Ht in Hd.
      rewrite kind_move; [by apply S1|done|by apply wf_trail_fresh].
    + intros t Hin. rewrite Hto in Hin. destruct (S2 t Hin) as [? ?].
      rewrite kind_move by done. split; [done|lia].
    + intros st Hs. rewrite Hst in Hs. destruct (S3 st Hs) as [? ?].
      rewrite kind_move by done. split; [lia|done].
    + intros c Hcs. rewrite Hc in Hcs.
      rewrite kind_move; [by apply S4|done|].
      by destruct (wf_cursor s Hwf c Hcs).
  - split.
    + intros d Hd. rewrite Ht in Hd.
      assert (Hin : d ∈ trail s ++ [fresh s])
        by (destruct (Num.gt _ _); [by apply elem_of_tail|done]).
      apply elem_of_app in Hin as [Hin| ->%list_elem_of_singleton]; [|done].
      rewrite kind_move; [by apply S1|done|by apply wf_trail_fresh].
    + intros t Hin. rewrite Hto in Hin.
      apply elem_of_app in Hin as [Hin| ->%list_elem_of_singleton].
      * destruct (S2 t Hin) as [? ?]. rewrite kind_move by done. split; [done|lia].
      * cbn [snd]. split; [done|lia].
    + intros st Hs. rewrite Hst in Hs. destruct (S3 st Hs) as [? ?].
      rewrite kind_move by done. split; [lia|done].
    + intros c' Hcs. rewrite Hc in Hcs.
      rewrite kind_move; [by apply S4|done|].
      by destruct (wf_cursor s Hwf c' Hcs).
Qed.

Lemma shaped_dispatch (e : MouseEvent) (fs : list nat) (s : state) :
  wf s → shaped s → shaped (settle (dispatch e fs s)).
Proof.
  revert s. induction fs as [|f fs IH]; intros s Hwf Hsh; [done|].
  rewrite settle_dispatch_cons.
  apply IH; [by apply wf_updateMousePosition|by apply shaped_move].
Qed.

(** The fields of the state after [start]. *)
Lemma start_fields (s : state) :
  wf s →
  let s' := settle (start s) in
  (s' = s ∧ body_children s = None)
  ∨ (style s' = Some (fresh s) ∧ cursor s' = Some (S (fresh s))
     ∧ boundUpdateMousePosition s' = boundUpdateMousePosition s
     ∧ mousemove s' = mousemove s
     ∧ head_nodes s' = head_nodes s ∧ body_nodes s' = body_nodes s
     ∧ head_children s = None
     ∧ fresh s' = S (S (fresh s)))
  ∨ (style s' = Some (fresh s) ∧ cursor s' = Some (S (fresh s))
     ∧ boundUpdateMousePosition s' = Some (S (S (fresh s)))
     ∧ (∀ f, f ∈ mousemove s' ↔ f ∈ mousemove s ∨ f = S (S (fresh s)))
     ∧ (S (S (fresh s)) ∉ mousemove s →
        mousemove s' = mousemove s ++ [S (S (fresh s))])
     ∧ head_nodes s' = head_nodes s ++ [fresh s]
     ∧ body_nodes s' = body_nodes s ++ [S (fresh s)]
     ∧ fresh s' = S (S (S (fresh s)))).
Proof.
  intros Hwf s'. unfold s'.
  destruct (body_children s) as [lb|] eqn:Hb.
  2: { left. by rewrite start_no_body. }
  destruct (head_children s) as [lh|] eqn:Hh.
  2: { right; left. rewrite (start_no_head s lb) by done. cbn [settle].
       by split_and!. }
  pose proof (wf_not_attached s (fresh s) Hwf (le_n _)) as Hst.
  pose proof (wf_not_attached s (S (fresh s)) Hwf (le_S _ _ (le_n _))) as Hc.
  right; right. rewrite (start_ok s lh lb) by done. cbn [settle].
  assert (Hhn : head_nodes s = lh) by (unfold head_nodes; by rewrite Hh).
  assert (Hbn : body_nodes s = lb) by (unfold body_nodes; by rewrite Hb).
  set (X := set_body _ _).
  destruct (updateStyles_same X) as (Eh & Eb & Est & Ec & _ & _ & Em).
  pose proof (fresh_updateStyles X) as Ef.
  assert (Emm : mousemove (updateStyles X) = mousemove s) by (by rewrite Em).
  unfold addEventListener, head_nodes, body_nodes.
  cbn [mousemove set_bound set_fresh]. rewrite Emm.
  case_decide as Hin;
    cbn [style cursor boundUpdateMousePosition mousemove head_children
         body_children fresh set_mousemove set_bound set_fresh];
    rewrite ?Eh, ?Eb, ?Est, ?Ec, ?Emm; unfold X;
    cbn [style cursor head_children body_children set_body set_head];
    fold (head_nodes s); fold (body_nodes s); rewrite ?Hhn, ?Hbn;
    repeat split; try done;
    rewrite ?elem_of_app, ?list_elem_of_singleton; intuition congruence.
Qed.


Lemma shaped_start (s : state) : wf s → shaped s → shaped (settle (start s)).
Proof.
  intros Hwf [S1 S2 S3 S4].
  destruct (start_frame s Hwf) as (Ht & _ & Hto & _).
  pose proof (grows_fresh _ _ (grows_start s Hwf)) as Hfr.
  destruct (body_children s) as [lb|] eqn:Hb; [|by rewrite start_no_body].
  assert (Hsome : is_Some (body_children s)) by (by rewrite Hb).
  destruct (kind_created s) as (Kst & Kc & Kold).
  assert (Hnew : style (settle (start s)) = Some (fresh s)
                 ∧ cursor (settle (start s)) = Some (S (fresh s))
                 ∧ S (fresh s) < fresh (settle (start s))).
  { destruct (start_fields s Hwf)
      as [[_ Hnone]|[(?&?&_&_&_&_&_&Hf)|(?&?&_&_&_&_&_&Hf)]];
      [congruence|rewrite Hf; split_and!; [done..|lia]
      |rewrite Hf; split_and!; [done..|lia]]. }
  destruct Hnew as (Hst & Hc & Hlt).
  split.
  - intros d Hd. rewrite Ht in Hd.
    rewrite elements_start, Kold; [by apply S1|by apply wf_trail_fresh|done..].
  - intros t Hin. rewrite Hto in Hin. destruct (S2 t Hin) as [? ?].
    rewrite elements_start, Kold by done. split; [done|lia].
  - intros st Hs. rewrite Hst in Hs. injection Hs as <-.
    rewrite elements_start by done. split; [lia|done].
  - intros c Hcs. rewrite Hc in Hcs. injection Hcs as <-.
    by rewrite elements_start.
Qed.

Lemma shaped_stop (s : state) : wf s → shaped s → shaped (settle (stop s)).
Proof.
  intros Hwf [S1 S2 S3 S4].
  destruct (stop_frame s Hwf) as (Ht & _ & Hto & _).
  pose proof (grows_fresh _ _ (grows_stop s Hwf)) as Hfr.
  destruct (stop_total s) as (s' & Hs' & _ & Hst & Hc & _).
  rewrite Hs' in *. cbn [settle] in *.
  assert (He : elements s' = elements s)
    by (pose proof (elements_stop s Hwf) as P; by rewrite Hs' in P).
  split.
  - intros d Hd. rewrite Ht in Hd. by apply elem_of_nil in Hd.
  - intros t Hin. rewrite Hto in Hin. destruct (S2 t Hin) as [? ?].
    unfold kind. rewrite He. split; [done|lia].
  - intros st Hs. congruence.
  - intros c Hcs. congruence.
Qed.

Lemma shaped_expire (d : nat) (s : state) : shaped s → shaped (expire d s).
Proof.
  intros [S1 S2 S3 S4]. unfold expire. rewrite detach_remove. split.
  - intros d' Hd'. cbn [trail set_trail remove set_body set_head] in Hd'.
    apply list_elem_of_filter in Hd' as [_ Hd']. by apply S1.
  - exact S2.
  - exact S3.
  - exact S4.
Qed.

Lemma shaped_step (ev : event) (s : state) : wf s → shaped s → shaped (step ev s).
Proof.
  intros Hwf Hsh. unfold step. destruct ev; cbn [handle].
  - by apply shaped_start.
  - by apply shaped_stop.
  - by apply shaped_dispatch.
  - destruct (timeouts s !! i) as [[due d]|] eqn:Hi; cbn [settle]; [|done].
    apply shaped_expire. destruct Hsh as [S1 S2 S3 S4]. split; try done.
    intros t Hin. apply S2. cbn [timeouts set_timeouts] in Hin.
    by apply elem_of_delete_inv in Hin.
  - cbn [settle]. destruct Hsh. by split.
  - cbn [settle]. destruct Hsh. by split.
  - destruct (settle_notify this k s) as [-> | ->]; [done|].
    destruct Hsh as [S1 S2 S3 S4].
    destruct (updateStyles_same s) as (_ & _ & Est & Ec & Et & _).
    destruct (updateStyles_frame s) as (_ & _ & Eto & _).
    split.
    + intros d Hd. rewrite Et in Hd. rewrite kind_updateStyles. by apply S1.
    + intros t Hin. rewrite Eto in Hin.
      rewrite kind_updateStyles, fresh_updateStyles. by apply S2.
    + intros st Hs. rewrite Est in Hs.
      rewrite kind_updateStyles, fresh_updateStyles. by apply S3.
    + intros c Hcs. rewrite Ec in Hcs. rewrite kind_updateStyles. by apply S4.
Qed.

Lemma shaped_initial hh hb settings : shaped (initial hh hb settings).
Proof.
  split; cbn; intros x Hx; solve [by apply elem_of_nil in Hx | done].
Qed.

Lemma shaped_reachable evs hh hb settings :
  shaped (exec evs (initial hh hb settings)).
Proof.
  assert (Hgen : ∀ s, wf s → shaped s → shaped (exec evs s)).
  { induction evs as [|ev evs IH]; intros s Hwf Hsh; [done|].
    rewrite exec_cons. apply IH; [by apply wf_step|by apply shaped_step]. }
  apply Hgen; [apply wf_initial|apply shaped_initial].
Qed.


(** ** The invariant [anchored] *)

Lemma kind_is (s : state) (n : nat) (t i c : string) :
  kind s n = Some (t, i, c) →
  (is_stylesheet s n ↔ t = "style")
  ∧ (is_overlay s n ↔ i = "vencord-mouse-overlay")
  ∧ (is_trail_dot s n ↔ c = "mouse-trail").
Proof.
  unfold kind, kind_of, is_stylesheet, is_overlay, is_trail_dot.
  destruct (elements s !! n) as [e|]; [|done]. cbn. intros [= <- <- <-].
  split_and!; split; congruence.
Qed.

Lemma filter_none (P : nat → Prop) `{∀ x, Decision (P x)} (l : list nat) :
  (∀ n, n ∈ l → ¬ P n) → filter P l = [].
Proof.
  induction l as [|x l IH]; intros Hl; [done|].
  rewrite filter_cons, decide_False by (apply Hl; by left).
  apply IH. intros n Hn. apply Hl. by right.
Qed.

Lemma filter_single (P : nat → Prop) `{∀ x, Decision (P x)} (l : list nat) c :
  NoDup l → c ∈ l → P c → (∀ n, n ∈ l → n ≠ c → ¬ P n) → filter P l = [c].
Proof.
  induction l as [|x l IH]; intros Hnd Hc Hp Hl; [by apply elem_of_nil in Hc|].
  apply NoDup_cons in Hnd as [Hx Hnd]. rewrite filter_cons.
  destruct (decide (x = c)) as [->|Hne].
  - rewrite decide_True by done. f_equal. apply filter_none.
    intros n Hn. apply Hl; [by right|]. intros ->. done.
  - rewrite decide_False by (apply Hl; [by left|done]).
    apply IH; try done.
    + apply elem_of_cons in Hc as [?|?]; [congruence|done].
    + intros n Hn. apply Hl. by right.
Qed.

Lemma anchored_move (e : MouseEvent) (s : state) :
  wf s → shaped s → anchored s → anchored (settle (updateMousePosition e s)).
Proof.
  intros Hwf [S1 S2 S3 S4] Ha f Hf.
  destruct (updateMousePosition_frame e s Hwf) as (Hc & _ & Hm & Hst & Hb & _).
  rewrite Hb in Hf. destruct (Ha f Hf) as (st & c & Est & Ec & Eh & Ecb & Em).
  exists st, c. rewrite Hst, Hc, Hm. split_and!; try done.
  - destruct (move_fields e s Hwf)
      as [(_ & _ & _ & -> & _)
         |(_ & _ & _ & _ & _ & _ & _ & _ & _
           & [[-> _]|(d0 & t & Ht & -> & _)])]; try done.
    rewrite Eh. apply without_notin. intros ->%list_elem_of_singleton.
    destruct (S3 _ Est) as [Hlt Hk].
    assert (Hin : st ∈ trail s ++ [fresh s]) by (rewrite Ht; by left).
    apply elem_of_app in Hin as [Hin|Hin%list_elem_of_singleton]; [|lia].
    rewrite (S1 _ Hin) in Hk. discriminate.
  - destruct (move_fields e s Hwf)
      as [(_ & _ & _ & _ & ->)
         |(_ & _ & _ & _ & _ & _ & _ & _ & _
           & [[_ ->]|(d0 & t & Ht & _ & ->)])]; try done.
    + apply elem_of_app. by left.
    + apply elem_of_without. split; [apply elem_of_app; by left|].
      intros Heq. subst d0.
      assert (Hin : c ∈ trail s ++ [fresh s]) by (rewrite Ht; by left).
      apply elem_of_app in Hin as [Hin|Hin%list_elem_of_singleton].
      * pose proof (S4 _ Ec) as Hk. rewrite (S1 _ Hin) in Hk. discriminate.
      * destruct (wf_cursor s Hwf c Ec). lia.
Qed.

Lemma anchored_dispatch (e : MouseEvent) (fs : list nat) (s : state) :
  wf s → shaped s → anchored s → anchored (settle (dispatch e fs s)).
Proof.
  revert s. induction fs as [|f fs IH]; intros s Hwf Hsh Ha; [done|].
  rewrite settle_dispatch_cons.
  apply IH; [by apply wf_updateMousePosition|by apply shaped_move
            |by apply anchored_move].
Qed.

Lemma anchored_expire (d : nat) (s : state) :
  shaped s → kind s d = Some dot_kind → anchored s → anchored (expire d s).
Proof.
  intros [S1 S2 S3 S4] Hk Ha f Hf.
  unfold expire in *. rewrite detach_remove in *.
  cbn [boundUpdateMousePosition set_trail remove set_body set_head] in Hf.
  destruct (Ha f Hf) as (st & c & Est & Ec & Eh & Ecb & Em).
  exists st, c. split_and!; try done.
  - nodes. rewrite Eh. apply without_notin. intros ->%list_elem_of_singleton.
    destruct (S3 _ Est) as [_ Hk']. rewrite Hk in Hk'. discriminate.
  - nodes. apply elem_of_without. split; [done|]. intros ->.
    rewrite (S4 _ Ec) in Hk. discriminate.
Qed.

Lemma anchored_start (s : state) :
  wf s → tidy s → boundUpdateMousePosition s = None →
  anchored (settle (start s)).
Proof.
  intros Hwf Htidy Hb f Hf.
  destruct (tidy_idle_empty s Htidy Hb) as (Hhn & Hbn & _ & Hmm).
  destruct (start_fields s Hwf)
    as [[Heq _]|[(_ & _ & Hb' & _)|(Hst & Hc & Hb' & _ & Hm & Hh & Hbd & _)]].
  - rewrite Heq in Hf. congruence.
  - congruence.
  - exists (fresh s), (S (fresh s)).
    rewrite Hb' in Hf. injection Hf as <-.
    rewrite Hh, Hbd, Hhn, Hbn, Hm by (rewrite Hmm; apply not_elem_of_nil).
    rewrite Hmm. split_and!; try done. by left.
Qed.

Lemma anchored_step (ev : event) (s : state) :
  wf s → shaped s → tidy s → anchored s → host_allows ev s = true →
  anchored (step ev s).
Proof.
  intros Hwf Hsh Htidy Ha Hok. unfold step. destruct ev; cbn [handle].
  - apply anchored_start; try done. simpl in Hok.
    by apply bool_decide_eq_true in Hok.
  - intros f Hf. destruct (stop_total s) as (s' & Hs' & _ & _ & _ & Hnone).
    rewrite Hs' in Hf. cbn [settle] in Hf. congruence.
  - by apply anchored_dispatch.
  - destruct (timeouts s !! i) as [[due d]|] eqn:Hi; cbn [settle]; [|done].
    apply list_elem_of_lookup_2 in Hi.
    destruct (shaped_timeouts s Hsh _ Hi) as [Hk _].
    apply anchored_expire; [|exact Hk|exact Ha].
    destruct Hsh as [S1 S2 S3 S4]. split; try done.
    intros t Hin. apply S2. cbn [timeouts set_timeouts] in Hin.
    by apply elem_of_delete_inv in Hin.
  - done.
  - done.
  - destruct (settle_notify this k s) as [-> | ->]; [done|].
    destruct (updateStyles_same s) as (Eh & Eb & Est & Ec & _ & Ebd & Em).
    intros f Hf. rewrite Ebd in Hf.
    destruct (Ha f Hf) as (st & c & ? & ? & ? & ? & ?).
    exists st, c. unfold head_nodes, body_nodes in *.
    by rewrite Eh, Eb, Est, Ec, Em.
Qed.

Lemma hosted_invariants (evs : list event) (s : state) :
  wf s → shaped s → tidy s → anchored s →
  allowed host_allows evs s = true →
  tidy (exec evs s) ∧ anchored (exec evs s).
Proof.
  revert s. induction evs as [|ev evs IH]; intros s Hwf Hsh Ht Ha Hall; [done|].
  rewrite exec_cons. cbn [allowed] in Hall.
  apply andb_prop in Hall as [Hev Hall].
  apply IH; [by apply wf_step|by apply shaped_step|by apply tidy_step
            |by apply anchored_step|done].
Qed.

Lemma anchored_initial hh hb settings : anchored (initial hh hb settings).
Proof. intros f Hf. discriminate Hf. Qed.

(** With the four invariants and a held listener, the surface carries the
    stored stylesheet node, the stored overlay node and no other of either
    kind. *)
Lemma exactly_one (s : state) (f : nat) :
  wf s → shaped s → tidy s → anchored s →
  boundUpdateMousePosition s = Some f →
  ∃ st c, style s = Some st ∧ cursor s = Some c
          ∧ stylesheet_nodes s = [st] ∧ overlay_nodes s = [c]
          ∧ mousemove s = [f].
Proof.
  intros Hwf [S1 S2 S3 S4] [T1 T2 T3 T4] Ha Hf.
  destruct (Ha f Hf) as (st & c & Est & Ec & Eh & Ecb & Em).
  exists st, c. split_and!; try done.
  - unfold stylesheet_nodes, attached_nodes. rewrite filter_app, Eh.
    destruct (S3 _ Est) as [_ Hk]. apply kind_is in Hk as (Hs & _ & _).
    rewrite filter_cons, decide_True, filter_nil by (by apply Hs).
    rewrite filter_none; [done|].
    intros n Hn. destruct (T2 n Hn) as [Hcur|Htr].
    + pose proof (S4 _ Hcur) as Hk. apply kind_is in Hk as (Hs' & _ & _).
      rewrite Hs'. discriminate.
    + pose proof (S1 _ Htr) as Hk. apply kind_is in Hk as (Hs' & _ & _).
      rewrite Hs'. discriminate.
  - unfold overlay_nodes, attached_nodes. rewrite filter_app, Eh.
    destruct (S3 _ Est) as [_ Hk]. apply kind_is in Hk as (_ & Ho & _).
    rewrite filter_cons, decide_False, filter_nil
      by (rewrite Ho; discriminate).
    cbn [app]. apply filter_single; [apply (wf_nodup s Hwf)|done| |].
    + pose proof (S4 _ Ec) as Hk'. apply kind_is in Hk' as (_ & Ho' & _).
      by apply Ho'.
    + intros n Hn Hne. destruct (T2 n Hn) as [Hcur|Htr]; [congruence|].
      pose proof (S1 _ Htr) as Hk'. apply kind_is in Hk' as (_ & Ho' & _).
      rewrite Ho'. discriminate.
Qed.

(** X1.  In every run in which the host starts the plugin only while it
    holds no listener, a state with a held listener has exactly one
    stylesheet node and exactly one overlay node on the surface, the two
    the plugin stores, and the held listener is the only one subscribed:
    pointer moves, evictions, timeouts and settings changes never remove or
    duplicate them. *)
Theorem one_overlay_while_active
    (evs : list event) (hh hb : bool) (cfg0 : option MouseOverlaySettings)
    (f : nat) :
  allowed host_allows evs (initial hh hb cfg0) = true →
  boundUpdateMousePosition (exec evs (initial hh hb cfg0)) = Some f →
  ∃ st c, style (exec evs (initial hh hb cfg0)) = Some st
          ∧ cursor (exec evs (initial hh hb cfg0)) = Some c
          ∧ stylesheet_nodes (exec evs (initial hh hb cfg0)) = [st]
          ∧ overlay_nodes (exec evs (initial hh hb cfg0)) = [c]
          ∧ mousemove (exec evs (initial hh hb cfg0)) = [f].
Proof.
  intros Hall Hf.
  destruct (hosted_invariants evs (initial hh hb cfg0)) as [Ht Ha];
    [apply wf_initial|apply shaped_initial|apply tidy_initial
    |apply anchored_initial|done|].
  apply exactly_one; try done; [apply wf_reachable|apply shaped_reachable].
Qed.


Lemma start_text (s : state) :
  wf s → is_Some (head_children s) → is_Some (body_children s) →
  textContent <$> elements (settle (start s)) !! fresh s
    = Some (match store s with
            | Some settings => stylesheet settings
            | None => EmptyString
            end).
Proof.
  intros Hwf [lh Hh] [lb Hb].
  pose proof (wf_not_attached s (fresh s) Hwf (le_n _)) as Hst.
  pose proof (wf_not_attached s (S (fresh s)) Hwf (le_S _ _ (le_n _))) as Hc.
  rewrite (start_ok s lh lb) by done. cbn [settle].
  set (X := set_body _ _).
  assert (He : elements (addEventListener (S (S (fresh s)))
                 (set_bound (Some (S (S (fresh s))))
                    (set_fresh (S (S (S (fresh s)))) (updateStyles X))))
               = elements (updateStyles X))
    by (unfold addEventListener; by case_decide).
  rewrite He.
  assert (HX : elements X !! fresh s = Some (blank "style"))
    by apply created_style_element.
  unfold updateStyles.
  change (style X) with (Some (fresh s)). change (store X) with (store s).
  destruct (store s) as [settings|].
  - unfold update. cbn [elements set_elements].
    by rewrite lookup_alter_eq, HX.
  - by rewrite HX.
Qed.

(** X2.  In a run that respects the host's pairing, [start] called while no
    listener is held, in a document with a head and a body, subscribes one
    listener and leaves exactly one stylesheet node and one overlay node,
    with an empty queue; the stylesheet node holds the text built from the
    settings in force, or stays empty when there are none. *)
Theorem start_activates
    (evs : list event) (hh hb : bool) (cfg0 : option MouseOverlaySettings) :
  allowed host_allows evs (initial hh hb cfg0) = true →
  boundUpdateMousePosition (exec evs (initial hh hb cfg0)) = None →
  is_Some (head_children (exec evs (initial hh hb cfg0))) →
  is_Some (body_children (exec evs (initial hh hb cfg0))) →
  ∃ st c f,
    style (step Start (exec evs (initial hh hb cfg0))) = Some st
    ∧ cursor (step Start (exec evs (initial hh hb cfg0))) = Some c
    ∧ boundUpdateMousePosition (step Start (exec evs (initial hh hb cfg0)))
      = Some f
    ∧ stylesheet_nodes (step Start (exec evs (initial hh hb cfg0))) = [st]
    ∧ overlay_nodes (step Start (exec evs (initial hh hb cfg0))) = [c]
    ∧ mousemove (step Start (exec evs (initial hh hb cfg0))) = [f]
    ∧ trail (step Start (exec evs (initial hh hb cfg0))) = []
    ∧ textContent <$>
        elements (step Start (exec evs (initial hh hb cfg0))) !! st
      = Some (match store (exec evs (initial hh hb cfg0)) with
              | Some settings => stylesheet settings
              | None => EmptyString
              end).
Proof.
  intros Hall Hb Hhead Hbody.
  set (s := exec evs (initial hh hb cfg0)) in *.
  assert (Hwf : wf s) by apply wf_reachable.
  assert (Hsh : shaped s) by apply shaped_reachable.
  destruct (hosted_invariants evs (initial hh hb cfg0)) as [Ht Ha];
    [apply wf_initial|apply shaped_initial|apply tidy_initial
    |apply anchored_initial|done|].
  fold s in Ht, Ha.
  assert (Hok : host_allows Start s = true)
    by (cbn; by apply bool_decide_eq_true).
  assert (Hbound : boundUpdateMousePosition (step Start s) = Some (S (S (fresh s)))
                   ∧ style (step Start s) = Some (fresh s)).
  { change (step Start s) with (settle (start s)).
    destruct (start_fields s Hwf)
      as [[_ Hnone]|[(_ & _ & _ & _ & _ & _ & Hnone & _)|(? & _ & ? & _)]].
    - rewrite Hnone in Hbody. by destruct Hbody.
    - rewrite Hnone in Hhead. by destruct Hhead.
    - done. }
  destruct Hbound as [Hf Hst].
  destruct (exactly_one (step Start s) (S (S (fresh s))))
    as (st & c & Est & Ec & Ess & Eov & Em);
    [by apply wf_step|by apply shaped_step|by apply tidy_step
    |by apply anchored_step|done|].
  exists st, c, (S (S (fresh s))). split_and!; try done.
  - change (step Start s) with (settle (start s)).
    destruct (start_frame s Hwf) as (-> & _).
    by destruct (tidy_idle_empty s Ht Hb) as (_ & _ & -> & _).
  - rewrite Hst in Est. injection Est as <-.
    by apply start_text.
Qed.


(** ** The queue, the surface and the timeouts in every reachable state *)

(** X3.  In every state reachable from the load of the module, the trail
    dots on the surface are exactly the dots of the queue, in queue order,
    and no dot is queued twice. *)
Theorem surface_dots_are_queue
    (evs : list event) (hh hb : bool) (cfg0 : option MouseOverlaySettings) :
  trail_dot_nodes (exec evs (initial hh hb cfg0))
    = trail (exec evs (initial hh hb cfg0))
  ∧ NoDup (trail (exec evs (initial hh hb cfg0)))
  ∧ ∀ d, d ∈ trail (exec evs (initial hh hb cfg0)) →
         d ∈ body_nodes (exec evs (initial hh hb cfg0)).
Proof.
  pose proof (wf_reachable evs hh hb cfg0) as Hwf.
  split_and!.
  - by apply wf_trail_dot_nodes.
  - by apply wf_trail_nodup.
  - intros d. by apply wf_trail_attached.
Qed.

Lemma ascending_snoc (l : list nat) (x : nat) :
  ascending l → Forall (λ y, y < x) l → ascending (l ++ [x]).
Proof.
  induction l as [|a l IH]; intros Hasc Hall; cbn.
  - split; [constructor|done].
  - destruct Hasc as [Ha Hasc]. apply Forall_cons in Hall as [Hax Hall].
    split; [|by apply IH].
    apply Forall_app. split; [done|]. by repeat constructor.
Qed.

Lemma ascending_tail (l : list nat) : ascending l → ascending (tail l).
Proof. destruct l; cbn; [done|]. by intros [_ ?]. Qed.

Lemma ascending_filter (P : nat → Prop) `{∀ x, Decision (P x)} (l : list nat) :
  ascending l → ascending (filter P l).
Proof.
  induction l as [|a l IH]; intros Hasc; [done|].
  destruct Hasc as [Ha Hasc]. rewrite filter_cons.
  destruct (decide (P a)); [|by apply IH].
  split; [|by apply IH].
  apply Forall_forall. intros y [_ Hy]%list_elem_of_filter.
  rewrite Forall_forall in Ha. by apply Ha.
Qed.

Lemma ascending_move (e : MouseEvent) (s : state) :
  wf s → ascending (trail s) →
  ascending (trail (settle (updateMousePosition e s))).
Proof.
  intros Hwf Hasc.
  destruct (move_fields e s Hwf)
    as [(-> & _)|(_ & settings & _ & _ & _ & -> & _)]; [done|].
  assert (Hpush : ascending (trail s ++ [fresh s])).
  { apply ascending_snoc; [done|]. apply Forall_forall.
    intros d Hd. by apply wf_trail_fresh. }
  destruct (Num.gt _ _); [by apply ascending_tail|done].
Qed.

Lemma ascending_dispatch (e : MouseEvent) (fs : list nat) (s : state) :
  wf s → ascending (trail s) → ascending (trail (settle (dispatch e fs s))).
Proof.
  revert s. induction fs as [|f fs IH]; intros s Hwf Hasc; [done|].
  rewrite settle_dispatch_cons.
  apply IH; [by apply wf_updateMousePosition|by apply ascending_move].
Qed.

Lemma ascending_step (ev : event) (s : state) :
  wf s → ascending (trail s) → ascending (trail (step ev s)).
Proof.
  intros Hwf Hasc. unfold step. destruct ev; cbn [handle].
  - by destruct (start_frame s Hwf) as (-> & _).
  - by destruct (stop_frame s Hwf) as (-> & _).
  - by apply ascending_dispatch.
  - destruct (timeouts s !! i) as [[due d]|]; cbn [settle]; [|done].
    unfold expire. rewrite detach_remove.
    cbn [trail set_trail remove set_body set_head set_timeouts].
    by apply ascending_filter.
  - done.
  - done.
  - destruct (settle_notify this k s) as [-> | ->]; [done|].
    by destruct (updateStyles_frame s) as (-> & _).
Qed.

(** X4.  In every reachable state the queue is in strictly increasing order
    of creation: every dot was created after the dots before it, so the
    head, which the length check evicts, is the oldest dot. *)
Theorem queue_in_creation_order
    (evs : list event) (hh hb : bool) (cfg0 : option MouseOverlaySettings) :
  ascending (trail (exec evs (initial hh hb cfg0)))
  ∧ ∀ d0 rest, trail (exec evs (initial hh hb cfg0)) = d0 :: rest →
               Forall (λ d, d0 < d) rest.
Proof.
  assert (Hasc : ascending (trail (exec evs (initial hh hb cfg0)))).
  { assert (Hgen : ∀ s, wf s → ascending (trail s) →
                        ascending (trail (exec evs s))).
    { induction evs as [|ev evs IH]; intros s Hwf Hs; [done|].
      rewrite exec_cons. apply IH; [by apply wf_step|by apply ascending_step]. }
    apply Hgen; [apply wf_initial|done]. }
  split; [done|]. intros d0 rest Heq. rewrite Heq in Hasc. by destruct Hasc.
Qed.

Lemma scheduled_move (e : MouseEvent) (s : state) :
  wf s → scheduled s → scheduled (settle (updateMousePosition e s)).
Proof.
  intros Hwf [Hq Hdue].
  destruct (updateMousePosition_frame e s Hwf) as (_ & _ & _ & _ & _ & Hcl).
  destruct (move_fields e s Hwf)
    as [(Ht & Hto & _)|(_ & settings & _ & _ & _ & Ht & Hto & _)];
    split; rewrite ?Ht, ?Hto, ?Hcl; try done.
  - intros d Hd.
    assert (Hin : d ∈ trail s ++ [fresh s])
      by (destruct (Num.gt _ _); [by apply elem_of_tail|done]).
    apply elem_of_app in Hin as [Hin| ->%list_elem_of_singleton].
    + destruct (Hq d Hin) as [due Hd']. exists due. apply elem_of_app. by left.
    + exists (clock s + 100). apply elem_of_app. right. by left.
  - intros t [Hin| ->%list_elem_of_singleton]%elem_of_app; [by apply Hdue|].
    done.
Qed.

Lemma scheduled_dispatch (e : MouseEvent) (fs : list nat) (s : state) :
  wf s → scheduled s → scheduled (settle (dispatch e fs s)).
Proof.
  revert s. induction fs as [|f fs IH]; intros s Hwf Hs; [done|].
  rewrite settle_dispatch_cons.
  apply IH; [by apply wf_updateMousePosition|by apply scheduled_move].
Qed.

Lemma scheduled_step (ev : event) (s : state) :
  wf s → scheduled s → scheduled (step ev s).
Proof.
  intros Hwf [Hq Hdue]. unfold step. destruct ev; cbn [handle].
  - destruct (start_frame s Hwf) as (Ht & _ & Hto & Hcl).
    split; by rewrite ?Ht, ?Hto, ?Hcl.
  - destruct (stop_frame s Hwf) as (Ht & _ & Hto & Hcl).
    split; rewrite ?Ht, ?Hto, ?Hcl; [|done].
    intros d Hd. by apply elem_of_nil in Hd.
  - by apply scheduled_dispatch.
  - destruct (timeouts s !! i) as [[due d]|] eqn:Hi; cbn [settle]; [|done].
    unfold expire. rewrite detach_remove.
    cbn [trail timeouts clock set_trail remove set_body set_head set_timeouts].
    split.
    + intros d' [Hne Hd']%list_elem_of_filter.
      destruct (Hq d' Hd') as [due' Hin]. exists due'.
      apply (elem_of_delete_other _ i _ (due, d)); [done..|congruence].
    + intros t Hin. apply Hdue. by apply elem_of_delete_inv in Hin.
  - cbn [settle]. split; [done|].
    intros t Hin. cbn [clock set_clock]. specialize (Hdue t Hin). lia.
  - by split.
  - destruct (settle_notify this k s) as [-> | ->]; [done|].
    destruct (updateStyles_frame s) as (Ht & _ & Hto & Hcl).
    split; by rewrite ?Ht, ?Hto, ?Hcl.
Qed.

(** X5.  In every reachable state each trail dot on the surface has a
    pending timeout, and that timeout is due at most 100 ms from now:
    nothing ever cancels a dot's timeout while the dot is still there. *)
Theorem queued_dots_have_timeouts
    (evs : list event) (hh hb : bool) (cfg0 : option MouseOverlaySettings)
    (d : nat) :
  d ∈ trail_dot_nodes (exec evs (initial hh hb cfg0)) →
  ∃ due, (due, d) ∈ timeouts (exec evs (initial hh hb cfg0))
         ∧ due ≤ clock (exec evs (initial hh hb cfg0)) + 100.
Proof.
  assert (Hs : scheduled (exec evs (initial hh hb cfg0))).
  { assert (Hgen : ∀ s, wf s → scheduled s → scheduled (exec evs s)).
    { induction evs as [|ev evs IH]; intros s Hwf Hs; [done|].
      rewrite exec_cons. apply IH; [by apply wf_step|by apply scheduled_step]. }
    apply Hgen; [apply wf_initial|].
    split; intros x Hx; by apply elem_of_nil in Hx. }
  rewrite wf_trail_dot_nodes by apply wf_reachable.
  intros Hd. destruct Hs as [Hq Hdue]. destruct (Hq d Hd) as [due Hin].
  exists due. split; [done|]. apply (Hdue _ Hin).
Qed.

Lemma step_old_names (ev : event) (s : state) :
  wf s →
  (∀ n, n ∈ attached_nodes (step ev s) → n ∈ attached_nodes s ∨ fresh s ≤ n)
  ∧ (∀ n, n ∈ trail (step ev s) → n ∈ trail s ∨ fresh s ≤ n)
  ∧ fresh s ≤ fresh (step ev s).
Proof.
  intros Hwf.
  assert (Hg : ∀ s', grows s s' →
    (∀ n, n ∈ attached_nodes s' → n ∈ attached_nodes s ∨ fresh s ≤ n)
    ∧ (∀ n, n ∈ trail s' → n ∈ trail s ∨ fresh s ≤ n)
    ∧ fresh s ≤ fresh s') by (by intros s' []).
  unfold step. destruct ev; cbn [handle].
  - by apply Hg, grows_start.
  - by apply Hg, grows_stop.
  - by apply Hg, grows_dispatch.
  - destruct (timeouts s !! i) as [[due d]|]; cbn [settle];
      [|apply Hg, grows_refl].
    unfold expire. rewrite detach_remove. split_and!.
    + intros n. nodes. rewrite !elem_of_app, !elem_of_without. tauto.
    + intros n.
      cbn [trail set_trail remove set_body set_head set_timeouts].
      intros [_ ?]%list_elem_of_filter. by left.
    + done.
  - cbn [settle]. split_and!; [intros n Hn; by left..|done].
  - cbn [settle]. split_and!; [intros n Hn; by left..|done].
  - destruct (settle_notify this k s) as [-> | ->];
      [apply Hg, grows_refl|apply Hg, grows_updateStyles].
Qed.

(** X6.  A node that exists and is off the surface never comes back: in a
    reachable state, a name already given out that is not attached stays
    detached through every further run, and one that is not queued stays
    out of the queue.  Only freshly created nodes are ever appended or
    pushed. *)
Theorem removed_nodes_stay_removed
    (evs0 : list event) (hh hb : bool) (cfg0 : option MouseOverlaySettings)
    (n : nat) (evs : list event) :
  n < fresh (exec evs0 (initial hh hb cfg0)) →
  (n ∉ attached_nodes (exec evs0 (initial hh hb cfg0)) →
   n ∉ attached_nodes (exec evs (exec evs0 (initial hh hb cfg0))))
  ∧ (n ∉ trail (exec evs0 (initial hh hb cfg0)) →
     n ∉ trail (exec evs (exec evs0 (initial hh hb cfg0)))).
Proof.
  pose proof (wf_reachable evs0 hh hb cfg0) as Hwf.
  generalize dependent (exec evs0 (initial hh hb cfg0)).
  induction evs as [|ev evs IH]; intros s Hwf Hn; [done|].
  rewrite !exec_cons.
  destruct (step_old_names ev s Hwf) as (Ha & Ht & Hf).
  destruct (IH (step ev s)) as [IHa IHt]; [by apply wf_step|lia|].
  split; intros Hout.
  - apply IHa. intros Hin. destruct (Ha n Hin); [done|lia].
  - apply IHt. intros Hin. destruct (Ht n Hin); [done|lia].
Qed.


(** ** Lifecycle edge cases *)

Lemma stop_inactive (s : state) :
  trail s = [] → style s = None → cursor s = None →
  boundUpdateMousePosition s = None → stop s = Normal s.
Proof.
  intros Ht Hst Hc Hb. unfold stop. rewrite Hb, Hst, Hc, Ht.
  cbn [forEach_removeChild and_then]. f_equal.
  destruct s. cbn in *. by subst.
Qed.

(** X7.  [stop] is idempotent: from any state, a second [stop] right after
    the first returns normally and changes nothing. *)
Theorem stop_idempotent (s : state) :
  stop (settle (stop s)) = Normal (settle (stop s)).
Proof.
  destruct (stop_total s) as (s' & -> & Ht & Hst & Hc & Hb).
  cbn [settle]. by apply stop_inactive.
Qed.

Lemma alter_twice (f : Element → Element) (n : nat) (m : gmap nat Element) :
  (∀ e, f (f e) = f e) → alter f n (alter f n m) = alter f n m.
Proof.
  intros Hf. apply map_eq. intros i.
  destruct (decide (n = i)) as [->|Hne].
  - rewrite !lookup_alter_eq. destruct (m !! i); cbn; [|done]. by rewrite Hf.
  - by rewrite !lookup_alter_ne.
Qed.

(** X8.  [updateStyles] is idempotent, writes no object other than the
    stored stylesheet node, and changes nothing of that node but its text
    content. *)
Theorem updateStyles_idempotent (s : state) :
  updateStyles (updateStyles s) = updateStyles s
  ∧ (∀ n, style s ≠ Some n →
          elements (updateStyles s) !! n = elements s !! n)
  ∧ (∀ n, with_textContent EmptyString <$> elements (updateStyles s) !! n
          = with_textContent EmptyString <$> elements s !! n)
  ∧ set_elements (elements s) (updateStyles s) = s.
Proof.
  destruct (style s) as [st|] eqn:Hst.
  2: { assert (Hid : updateStyles s = s)
         by (unfold updateStyles; by rewrite Hst).
       rewrite !Hid. split_and!; try done. by destruct s. }
  destruct (store s) as [settings|] eqn:Hs.
  2: { assert (Hid : updateStyles s = s)
         by (unfold updateStyles; by rewrite Hst, Hs).
       rewrite !Hid. split_and!; try done. by destruct s. }
  assert (Hup : updateStyles s
                = update st (with_textContent (stylesheet settings)) s)
    by (unfold updateStyles; by rewrite Hst, Hs).
  rewrite Hup. split_and!.
  - unfold updateStyles.
    change (style (update st (with_textContent (stylesheet settings)) s))
      with (style s).
    change (store (update st (with_textContent (stylesheet settings)) s))
      with (store s).
    rewrite Hst, Hs. unfold update. cbn [elements set_elements].
    rewrite alter_twice by done. by destruct s.
  - intros n Hn. unfold update. cbn [elements set_elements].
    apply lookup_alter_ne. congruence.
  - intros n. unfold update. cbn [elements set_elements].
    destruct (decide (st = n)) as [->|Hne].
    + rewrite lookup_alter_eq. by destruct (elements s !! n).
    + by rewrite lookup_alter_ne.
  - by destruct s.
Qed.

Lemma gt_one_of_small (L : Q) :
  (L < 1)%Q → Num.gt (Num.of_nat 1) L = true.
Proof.
  intros HL. unfold Num.gt. apply negb_true_iff, not_true_iff_false.
  rewrite Qle_bool_iff. intros Hle.
  apply (Qlt_irrefl L). eapply Qlt_le_trans; [exact HL|exact Hle].
Qed.

Lemma small_length_move (e : MouseEvent) (s : state) settings :
  wf s → store s = Some settings →
  (settings.(trailLength) ?? defaultSettings.trailLength < 1)%Q →
  trail s = [] → trail (settle (updateMousePosition e s)) = [].
Proof.
  intros Hwf Hs HL Ht.
  destruct (move_fields e s Hwf)
    as [(-> & _)|(_ & settings' & _ & Hs' & _ & -> & _)]; [done|].
  rewrite Hs in Hs'. injection Hs' as <-.
  rewrite Ht. cbn [app length]. by rewrite gt_one_of_small.
Qed.

Lemma small_length_dispatch (e : MouseEvent) (fs : list nat) (s : state) settings :
  wf s → store s = Some settings →
  (settings.(trailLength) ?? defaultSettings.trailLength < 1)%Q →
  trail s = [] →
  trail (settle (dispatch e fs s)) = []
  ∧ store (settle (dispatch e fs s)) = Some settings.
Proof.
  revert s. induction fs as [|f fs IH]; intros s Hwf Hs HL Ht; [done|].
  rewrite settle_dispatch_cons.
  apply IH; [by apply wf_updateMousePosition| |done|].
  - by destruct (updateMousePosition_frame e s Hwf) as (_ & -> & _).
  - by apply (small_length_move e s settings).
Qed.

(** X9.  With trailLength below 1 (zero, negative or a fraction) the length
    check evicts every new dot in the call that created it: from a
    reachable state with an empty queue, any run of pointer moves leaves the
    queue empty and no trail dot on the surface, trail enabled or not. *)
Theorem trailLength_below_one_shows_no_dot
    (evs : list event) (hh hb : bool) (cfg0 : option MouseOverlaySettings)
    (es : list MouseEvent) (settings : MouseOverlaySettings) :
  store (exec evs (initial hh hb cfg0)) = Some settings →
  (settings.(trailLength) ?? defaultSettings.trailLength < 1)%Q →
  trail (exec evs (initial hh hb cfg0)) = [] →
  trail (exec (MouseMove <$> es) (exec evs (initial hh hb cfg0))) = []
  ∧ trail_dot_nodes
      (exec (MouseMove <$> es) (exec evs (initial hh hb cfg0))) = [].
Proof.
  intros Hs HL Ht.
  pose proof (wf_reachable evs hh hb cfg0) as Hwf.
  assert (Hgen : ∀ s, wf s → store s = Some settings → trail s = [] →
                      trail (exec (MouseMove <$> es) s) = []).
  { induction es as [|e es IH]; intros s Hwf' Hs' Ht'; [done|].
    rewrite fmap_cons, exec_cons, step_move.
    destruct (small_length_dispatch e (mousemove s) s settings) as [? ?];
      try done.
    apply IH; [by apply wf_dispatch|done..]. }
  split; [by apply Hgen|].
  rewrite wf_trail_dot_nodes by (by apply wf_exec). by apply Hgen.
Qed.

Lemma dispatch_normal (e : MouseEvent) (fs : list nat) (s : state) :
  wf s → ∃ s', dispatch e fs s = Normal s'.
Proof.
  revert s. induction fs as [|f fs IH]; intros s Hwf; [by eexists|].
  cbn [dispatch].
  pose proof (wf_updateMousePosition e s Hwf) as Hwf'.
  destruct (updateMousePosition_cases e s Hwf)
    as [Heq|[(c & t & _ & Heq)|(c & settings & l & _ & _ & _ & _ & _ & Heq)]];
    rewrite Heq in *; cbn [settle] in Hwf'; by apply IH.
Qed.

(** X10.  In a reachable state the calls that can end in an exception are
    [start] in a document that has a body and no head, and a change callback
    called on anything but the plugin object, its own descriptor included;
    there they always do, and the callback leaves the state as it was.
    Pointer moves, timeouts, [stop] and the change callbacks called on the
    plugin object always complete normally. *)
Theorem throwing_calls
    (evs : list event) (hh hb : bool) (cfg0 : option MouseOverlaySettings)
    (ev : event) :
  (∀ s', handle ev (exec evs (initial hh hb cfg0)) = Throw s' →
         (ev = Start
          ∧ head_children (exec evs (initial hh hb cfg0)) = None
          ∧ is_Some (body_children (exec evs (initial hh hb cfg0))))
         ∨ (∃ this k, ev = OptionChanged this k ∧ this ≠ ThePlugin
                      ∧ is_Some (onChange k)
                      ∧ s' = exec evs (initial hh hb cfg0)))
  ∧ (head_children (exec evs (initial hh hb cfg0)) = None →
     is_Some (body_children (exec evs (initial hh hb cfg0))) →
     handle Start (exec evs (initial hh hb cfg0))
       = Throw (created (exec evs (initial hh hb cfg0))))
  ∧ (∀ this k, this ≠ ThePlugin → is_Some (onChange k) →
     handle (OptionChanged this k) (exec evs (initial hh hb cfg0))
       = Throw (exec evs (initial hh hb cfg0))).
Proof.
  pose proof (wf_reachable evs hh hb cfg0) as Hwf.
  generalize dependent (exec evs (initial hh hb cfg0)). intros s Hwf.
  split; [|split].
  - intros s' Hthrow. destruct ev; cbn [handle] in Hthrow.
    + left.
      destruct (body_children s) as [lb|] eqn:Hb;
        [|rewrite start_no_body in Hthrow by done; discriminate].
      destruct (head_children s) as [lh|] eqn:Hh; [|by split_and!].
      rewrite (start_ok s lh lb) in Hthrow; [discriminate|done..| |].
      * by apply wf_not_attached.
      * apply wf_not_attached; [done|lia].
    + destruct (stop_total s) as (s'' & Heq & _). congruence.
    + destruct (dispatch_normal e (mousemove s) s Hwf) as [s'' Heq]. congruence.
    + destruct (timeouts s !! i) as [[due d]|]; discriminate.
    + discriminate.
    + discriminate.
    + right. exists this, k. unfold notify in Hthrow.
      destruct (onChange k) as [cb|] eqn:Hcb; [|discriminate].
      destruct (call_cases cb this s) as [[_ Heq]|[Hne Heq]];
        rewrite Heq in Hthrow; [discriminate|].
      injection Hthrow as <-. by split_and!.
  - intros Hh [lb Hb]. cbn [handle]. by apply (start_no_head s lb).
  - intros this k Hne [cb Hcb]. cbn [handle]. unfold notify. rewrite Hcb.
    by destruct (call_cases cb this s) as [[? _]|[_ ->]].
Qed.


Lemma remove_all_nothing_attached (ns : list nat) (s : state) :
  attached_nodes s = [] → remove_all ns s = s.
Proof.
  intros Ha. induction ns as [|n ns IH]; [done|].
  cbn [remove_all foldl]. rewrite remove_not_attached; [exact IH|].
  apply not_true_is_false. rewrite hasParent_spec, Ha. apply not_elem_of_nil.
Qed.

(** The state of a document without a head stays inert. *)
Lemma headless_step (ev : event) (s : state) :
  wf s →
  head_children s = None ∧ body_children s = Some []
  ∧ mousemove s = [] ∧ trail s = [] ∧ timeouts s = []
  ∧ boundUpdateMousePosition s = None →
  head_children (step ev s) = None ∧ body_children (step ev s) = Some []
  ∧ mousemove (step ev s) = [] ∧ trail (step ev s) = []
  ∧ timeouts (step ev s) = []
  ∧ boundUpdateMousePosition (step ev s) = None.
Proof.
  intros Hwf (Hh & Hb & Hm & Ht & Hto & Hbd).
  unfold step. destruct ev; cbn [handle].
  - by rewrite (start_no_head s []).
  - rewrite stop_shape by (rewrite Ht; intros d Hd; by apply elem_of_nil in Hd).
    cbn [settle]. unfold unbind. rewrite Hbd.
    rewrite remove_all_nothing_attached
      by (unfold attached_nodes, head_nodes, body_nodes; by rewrite Hh, Hb).
    done.
  - by rewrite Hm.
  - by rewrite Hto.
  - done.
  - done.
  - destruct (settle_notify this k s) as [-> | ->]; [done|].
    by destruct (updateStyles_cases s) as [->|(st & f & ->)].
Qed.

(** X11.  In a document that has a body and no head the plugin never
    becomes active: every [start] throws before it attaches anything or
    subscribes, so after any run nothing is attached, no listener is
    subscribed, the queue is empty and no timeout is pending. *)
Theorem headless_document_stays_inert
    (evs : list event) (cfg0 : option MouseOverlaySettings) :
  attached_nodes (exec evs (initial false true cfg0)) = []
  ∧ mousemove (exec evs (initial false true cfg0)) = []
  ∧ trail (exec evs (initial false true cfg0)) = []
  ∧ timeouts (exec evs (initial false true cfg0)) = []
  ∧ boundUpdateMousePosition (exec evs (initial false true cfg0)) = None
  ∧ handle Start (exec evs (initial false true cfg0))
    = Throw (created (exec evs (initial false true cfg0))).
Proof.
  assert (Hgen : ∀ s, wf s →
    head_children s = None ∧ body_children s = Some []
    ∧ mousemove s = [] ∧ trail s = [] ∧ timeouts s = []
    ∧ boundUpdateMousePosition s = None →
    head_children (exec evs s) = None ∧ body_children (exec evs s) = Some []
    ∧ mousemove (exec evs s) = [] ∧ trail (exec evs s) = []
    ∧ timeouts (exec evs s) = []
    ∧ boundUpdateMousePosition (exec evs s) = None).
  { induction evs as [|ev evs IH]; intros s Hwf Hs; [done|].
    rewrite exec_cons. apply IH; [by apply wf_step|by apply headless_step]. }
  destruct (Hgen (initial false true cfg0)) as (Hh & Hb & Hm & Ht & Hto & Hbd);
    [apply wf_initial|done|].
  split_and!; try done.
  - unfold attached_nodes, head_nodes, body_nodes. by rewrite Hh, Hb.
  - cbn [handle]. by apply (start_no_head _ []).
Qed.

Lemma bodyless_step (ev : event) (s : state) :
  body_children s = None ∧ style s = None ∧ cursor s = None
  ∧ boundUpdateMousePosition s = None ∧ mousemove s = [] ∧ trail s = []
  ∧ timeouts s = [] ∧ elements s = ∅ ∧ fresh s = 0 →
  body_children (step ev s) = None ∧ style (step ev s) = None
  ∧ cursor (step ev s) = None
  ∧ boundUpdateMousePosition (step ev s) = None
  ∧ mousemove (step ev s) = [] ∧ trail (step ev s) = []
  ∧ timeouts (step ev s) = [] ∧ elements (step ev s) = ∅
  ∧ fresh (step ev s) = 0.
Proof.
  intros (Hb & Hst & Hc & Hbd & Hm & Ht & Hto & He & Hf).
  unfold step. destruct ev; cbn [handle].
  - by rewrite start_no_body.
  - by rewrite stop_inactive.
  - by rewrite Hm.
  - by rewrite Hto.
  - done.
  - done.
  - destruct (settle_notify this k s) as [-> | ->]; [done|].
    unfold updateStyles. by rewrite Hst.
Qed.

(** X12.  In a document without a body the plugin never creates anything:
    every [start] returns at once, and after any run no element was
    created, no reference is stored, no listener is subscribed and no
    timeout is pending. *)
Theorem bodyless_document_creates_nothing
    (evs : list event) (hh : bool) (cfg0 : option MouseOverlaySettings) :
  elements (exec evs (initial hh false cfg0)) = ∅
  ∧ fresh (exec evs (initial hh false cfg0)) = 0
  ∧ style (exec evs (initial hh false cfg0)) = None
  ∧ cursor (exec evs (initial hh false cfg0)) = None
  ∧ boundUpdateMousePosition (exec evs (initial hh false cfg0)) = None
  ∧ mousemove (exec evs (initial hh false cfg0)) = []
  ∧ trail (exec evs (initial hh false cfg0)) = []
  ∧ timeouts (exec evs (initial hh false cfg0)) = []
  ∧ start (exec evs (initial hh false cfg0))
    = Normal (exec evs (initial hh false cfg0)).
Proof.
  assert (Hgen : ∀ s,
    body_children s = None ∧ style s = None ∧ cursor s = None
    ∧ boundUpdateMousePosition s = None ∧ mousemove s = [] ∧ trail s = []
    ∧ timeouts s = [] ∧ elements s = ∅ ∧ fresh s = 0 →
    body_children (exec evs s) = None ∧ style (exec evs s) = None
    ∧ cursor (exec evs s) = None
    ∧ boundUpdateMousePosition (exec evs s) = None
    ∧ mousemove (exec evs s) = [] ∧ trail (exec evs s) = []
    ∧ timeouts (exec evs s) = [] ∧ elements (exec evs s) = ∅
    ∧ fresh (exec evs s) = 0).
  { induction evs as [|ev evs IH]; intros s Hs; [done|].
    rewrite exec_cons. by apply IH, bodyless_step. }
  destruct (Hgen (initial hh false cfg0)) as (?&?&?&?&?&?&?&?&?); [done|].
  split_and!; try done. by apply start_no_body.
Qed.

(** X13.  While no settings object is available, pointer moves and change
    callbacks do nothing at all: a run of such events returns the state it
    started from. *)
Theorem missing_settings_skip
    (evs : list event) (s : state) :
  store s = None →
  Forall (λ ev, (∃ e, ev = MouseMove e)
                ∨ (∃ this k, ev = OptionChanged this k)) evs →
  exec evs s = s.
Proof.
  intros Hs Hevs. induction Hevs as [|ev evs Hev _ IH]; [done|].
  rewrite exec_cons.
  assert (Hstep : step ev s = s); [|by rewrite Hstep].
  destruct Hev as [[e ->]|(this & k & ->)].
  - rewrite step_move. generalize (mousemove s). intros fs.
    induction fs as [|f fs IHfs]; [done|].
    rewrite settle_dispatch_cons, updateMousePosition_idle by (by right).
    exact IHfs.
  - unfold step. cbn [handle].
    destruct (settle_notify this k s) as [-> | ->]; [done|].
    unfold updateStyles. rewrite Hs. by destruct (style s).
Qed.


(** ** The stylesheet text *)

Lemma string_length_app (a b : string) :
  String.length (a +:+ b) = String.length a + String.length b.
Proof.
  induction a as [|x a IH]; [done|].
  change (S (String.length (a +:+ b)) = S (String.length a + String.length b)).
  by rewrite IH.
Qed.

Lemma string_app_inj_r (x y r : string) : x +:+ r = y +:+ r → x = y.
Proof.
  revert y. induction x as [|a x IH]; intros [|b y] Heq.
  - done.
  - apply (f_equal String.length) in Heq.
    change (String.length r = S (String.length (y +:+ r))) in Heq.
    rewrite string_length_app in Heq. lia.
  - apply (f_equal String.length) in Heq.
    change (S (String.length (x +:+ r)) = String.length r) in Heq.
    rewrite string_length_app in Heq. lia.
  - change (String a (x +:+ r) = String b (y +:+ r)) in Heq.
    injection Heq as -> Heq. f_equal. by apply IH.
Qed.

Lemma template_app (l1 l2 : list string) :
  template (l1 ++ l2) = template l1 +:+ template l2.
Proof.
  induction l1 as [|p l1 IH]; [done|].
  change (p +:+ template (l1 ++ l2) = (p +:+ template l1) +:+ template l2).
  by rewrite IH, string_app_assoc.
Qed.

(** Two templates that differ in one piece only give different texts. *)
Lemma template_inj_nth (l1 l2 : list string) (k : nat) (x y : string) :
  take k l1 = take k l2 → drop (S k) l1 = drop (S k) l2 →
  l1 !! k = Some x → l2 !! k = Some y →
  template l1 = template l2 → x = y.
Proof.
  intros Htake Hdrop Hx Hy Heq.
  rewrite <- (take_drop_middle l1 k x Hx), <- (take_drop_middle l2 k y Hy) in Heq.
  rewrite !template_app, Htake, Hdrop in Heq.
  apply String.app_inj in Heq.
  change (x +:+ template (drop (S k) l2) = y +:+ template (drop (S k) l2)) in Heq.
  by apply string_app_inj_r in Heq.
Qed.

Ltac differing_piece k :=
  lazymatch k with
  | 130 => fail "no differing piece"
  | _ =>
      first
        [ solve [ match goal with
                  | Heq : template _ = template _ |- _ =>
                      refine (template_inj_nth _ _ k _ _ _ _ _ _ Heq);
                        reflexivity
                  end ]
        | differing_piece (S k) ]
  end.

Lemma circle_block_inj (c1 c2 : string) :
  circle_block c1 = circle_block c2 → c1 = c2.
Proof. unfold circle_block. intros Heq. differing_piece 0. Qed.

Lemma css_text_cursorColor_inj size c1 c2 tc :
  css_text size c1 tc "circle" = css_text size c2 tc "circle" → c1 = c2.
Proof.
  unfold css_text. intros Heq. apply circle_block_inj.
  change (overlay_visual "circle" c1 = overlay_visual "circle" c2).
  differing_piece 0.
Qed.

Lemma css_text_trailColor_inj size cc tc1 tc2 sty :
  css_text size cc tc1 sty = css_text size cc tc2 sty → tc1 = tc2.
Proof. unfold css_text. intros Heq. differing_piece 0. Qed.

(** X14.  A colour change shows in the stylesheet.  For two settings
    objects that agree on the other three effective fields: in circle style
    equal stylesheet texts force equal cursor colours, and in any style
    equal texts force equal trail colours. *)
Theorem colours_show_in_stylesheet (a b : MouseOverlaySettings) :
  a.(cursorSize) ?? defaultSettings.cursorSize
    = b.(cursorSize) ?? defaultSettings.cursorSize →
  a.(cursorStyle) ?? defaultSettings.cursorStyle
    = b.(cursorStyle) ?? defaultSettings.cursorStyle →
  stylesheet a = stylesheet b →
  (a.(cursorStyle) ?? defaultSettings.cursorStyle = "circle" →
   a.(trailColor) ?? defaultSettings.trailColor
     = b.(trailColor) ?? defaultSettings.trailColor →
   a.(cursorColor) ?? defaultSettings.cursorColor
     = b.(cursorColor) ?? defaultSettings.cursorColor)
  ∧ (a.(cursorColor) ?? defaultSettings.cursorColor
       = b.(cursorColor) ?? defaultSettings.cursorColor →
     a.(trailColor) ?? defaultSettings.trailColor
       = b.(trailColor) ?? defaultSettings.trailColor).
Proof.
  unfold stylesheet. intros Hsize Hsty Heq. rewrite <- Hsize, <- Hsty in Heq.
  split.
  - intros Hcircle Htc. rewrite <- Htc, Hcircle in Heq.
    by apply css_text_cursorColor_inj in Heq.
  - intros Hcc. rewrite <- Hcc in Heq.
    by apply css_text_trailColor_inj in Heq.
Qed.

End Facts.

(** * Worked instances *)

#[local] Existing Instance demo_runtime.

(** C1 as stated fails: trailEnabled is not trailLength, and its change is
    not followed by [updateStyles], not even when the plugin object is what
    is notified; the stylesheet of [recoloured] stays the one of the old
    settings. *)
Lemma trailEnabled_has_no_callback :
  ¬ (∀ (k : OptionKey) (s : state), k ≠ KtrailLength →
       onChange k = Some CallUpdateStyles
       ∧ notify ThePlugin k s = Normal (updateStyles s)).
Proof.
  intros Hall. destruct (Hall KtrailEnabled recoloured) as [Hcb _]; [done|].
  discriminate Hcb.
Qed.

(** C2 as stated fails: after [lowered_run] the setting in force is 1 and
    the queue still holds 3 dots, the move after the change included. *)
Lemma lowered_trailLength_leaves_queue_oversized :
  ¬ (∀ (evs : list event) (hh hb : bool) (cfg0 : option MouseOverlaySettings)
       (settings : MouseOverlaySettings),
       store (exec evs (initial hh hb cfg0)) = Some settings →
       (Num.of_nat (length (trail (exec evs (initial hh hb cfg0))))
          <= settings.(trailLength) ?? defaultSettings.trailLength)%Q).
Proof.
  intros Hall.
  assert (Hs : store (exec lowered_run (initial true true (trail_on 3)))
               = Some (demo_settings true 1 "circle"))
    by (vm_compute; reflexivity).
  specialize (Hall _ _ _ _ _ Hs).
  vm_compute in Hall. by apply Hall.
Qed.

(** Settings with the circle style are stored over a stylesheet built for
    the custom style; the callback of cursorColor, called on the plugin
    object, replaces the text. *)
Lemma change_callbacks_witness :
  ∃ s',
    handle (OptionChanged ThePlugin KcursorColor)
      (set_store (Some (demo_settings false 5 "circle")) recoloured)
      = Normal s'
    ∧ (∃ sheet', elements s' !! 0 = Some sheet'
         ∧ textContent sheet' = stylesheet (demo_settings false 5 "circle")
         ∧ tagName sheet' = "style")
    ∧ textContent <$> elements recoloured !! 0
      = Some (stylesheet (demo_settings false 5 "custom"))
    ∧ stylesheet (demo_settings false 5 "custom")
      ≠ stylesheet (demo_settings false 5 "circle").
Proof.
  pose proof (change_callbacks KcursorColor recoloured
                (demo_settings false 5 "circle") 0
                (with_textContent (stylesheet (demo_settings false 5 "custom"))
                   (blank "style"))) as W.
  cbv beta iota in W.
  destruct W as (s' & Hrun & _ & _ & (sheet' & Hel & Htext & Htag & _) & _).
  - vm_compute. reflexivity.
  - vm_compute. reflexivity.
  - exists s'. split; [exact Hrun|]. split.
    + exists sheet'. split; [exact Hel|]. split; [exact Htext|exact Htag].
    + split; [vm_compute; reflexivity|].
      vm_compute. discriminate.
Defined.

Lemma queue_within_cap_witness :
  (Num.of_nat (length (trail (exec lowered_run (initial true true (trail_on 3)))))
     <= 3)%Q.
Proof.
  apply (queue_within_cap 3 lowered_run true true (trail_on 3)).
  - by vm_compute.
  - by vm_compute.
  - repeat constructor. by vm_compute.
Defined.

Lemma queue_fills_to_trailLength_witness :
  length (trail (exec (MouseMove <$>
                   [ {| clientX := 10; clientY := 10 |};
                     {| clientX := 20; clientY := 20 |};
                     {| clientX := 30; clientY := 30 |} ])
                  (exec [Start] (initial true true (trail_on 2))))) = 2.
Proof.
  pose proof (queue_fills_to_trailLength [Start] true true (trail_on 2)
           [ {| clientX := 10; clientY := 10 |};
             {| clientX := 20; clientY := 20 |};
             {| clientX := 30; clientY := 30 |} ] 2
           (demo_settings true 2 "circle")) as W.
  cbv zeta in W. apply W.
  - vm_compute. by eexists.
  - vm_compute. discriminate.
  - vm_compute. reflexivity.
  - vm_compute. reflexivity.
  - reflexivity.
  - reflexivity.
  - simpl. lia.
Defined.

(** The instance of the specification: cursorSize 20 and a move at
    (100, 100) put the overlay at (90, 90) and the dot at (95, 95). *)
Lemma pointer_move_positions_witness :
  (∃ overlay,
     elements (settle (updateMousePosition {| clientX := 100; clientY := 100 |}
                         (exec [Start] (initial true true (trail_on 5)))))
       !! 1 = Some overlay
     ∧ style_transform overlay = "translate(90px, 90px)")
  ∧ (∃ dot,
       elements (settle (updateMousePosition {| clientX := 100; clientY := 100 |}
                           (exec [Start] (initial true true (trail_on 5)))))
         !! fresh (exec [Start] (initial true true (trail_on 5))) = Some dot
       ∧ tagName dot = "div" ∧ className dot = "mouse-trail"
       ∧ style_left dot = "95px" ∧ style_top dot = "95px"
       ∧ fresh (exec [Start] (initial true true (trail_on 5)))
         ∈ body_nodes
             (settle (updateMousePosition {| clientX := 100; clientY := 100 |}
                        (exec [Start] (initial true true (trail_on 5)))))).
Proof.
  pose proof (pointer_move_positions [Start] true true (trail_on 5)
              {| clientX := 100; clientY := 100 |} 1
              (demo_settings true 5 "circle")) as W.
  cbv zeta in W.
  destruct W as [(overlay & Hov & Htr) Hdot].
  - vm_compute. reflexivity.
  - vm_compute. reflexivity.
  - destruct Hdot as (dot & Hd & Htag & Hcl & Hl & Ht & _ & Hiff & Hq);
      [reflexivity|].
    split.
    + exists overlay. split; [exact Hov|].
      rewrite Htr. vm_compute. reflexivity.
    + exists dot. split; [exact Hd|].
      split; [exact Htag|]. split; [exact Hcl|].
      split; [rewrite Hl; vm_compute; reflexivity|].
      split; [rewrite Ht; vm_compute; reflexivity|].
      apply Hiff. destruct Hq as [Hq|Hq]; [exact Hq|].
      vm_compute in Hq. discriminate Hq.
Defined.

(** The arithmetic is the language's: 9007199254740994 - 2 / 2 is no
    binary64 value, and the transform carries the value the subtraction
    rounds to. *)
Lemma pointer_move_rounds :
  style_transform <$>
    elements
      (settle (updateMousePosition
                 {| clientX := 9007199254740994; clientY := 1 |}
                 (exec [Start]
                    (initial true true
                       (Some {| cursorSize := Some 2%float; cursorColor := None;
                                trailEnabled := None; trailColor := None;
                                trailLength := None; cursorStyle := None |})))))
      !! 1
  = Some "translate(9007199254740992px, 0px)".
Proof. vm_compute. reflexivity. Qed.

(** The scenario of the specification: one move with trailLength 100; once
    the delay has elapsed and the callback has run, the dot is gone. *)
Lemma trail_dot_expires_witness :
  (fresh (exec [Start] (initial true true (trail_on 100)))
     ∉ attached_nodes
         (exec [Elapse 100; Timeout 0; Elapse 50]
            (settle (updateMousePosition {| clientX := 7; clientY := 7 |}
                       (exec [Start] (initial true true (trail_on 100)))))))
  ∧ (fresh (exec [Start] (initial true true (trail_on 100)))
     ∉ trail
         (exec [Elapse 100; Timeout 0; Elapse 50]
            (settle (updateMousePosition {| clientX := 7; clientY := 7 |}
                       (exec [Start] (initial true true (trail_on 100))))))).
Proof.
  pose proof (trail_dot_expires [Start] true true (trail_on 100)
              {| clientX := 7; clientY := 7 |} 1
              (demo_settings true 100 "circle")) as W.
  cbv zeta in W.
  destruct W as (_ & _ & Hrun & _).
  - vm_compute. reflexivity.
  - vm_compute. reflexivity.
  - reflexivity.
  - destruct (Hrun [Elapse 100; Timeout 0; Elapse 50]) as [_ Hgone].
    + vm_compute. reflexivity.
    + apply Hgone. vm_compute. lia.
Defined.

(** The timeout of the dot evicted in [overflow_run] runs afterwards. *)
Lemma timeout_after_removal_witness :
  handle (Timeout 0) (exec overflow_run (initial true true (trail_on 2)))
    = Normal (set_timeouts
                (delete 0 (timeouts (exec overflow_run
                                       (initial true true (trail_on 2)))))
                (exec overflow_run (initial true true (trail_on 2)))).
Proof.
  apply (proj1 timeout_after_removal
           (exec overflow_run (initial true true (trail_on 2))) 0 100 3).
  - vm_compute. reflexivity.
  - apply (bool_decide_unpack _). by vm_compute.
  - apply (bool_decide_unpack _). by vm_compute.
Defined.

Lemma stop_reaches_inactive_witness :
  ∃ s', stop (exec overflow_run (initial true true (trail_on 2))) = Normal s'
        ∧ overlay_nodes s' = [] ∧ stylesheet_nodes s' = []
        ∧ trail_dot_nodes s' = [] ∧ attached_nodes s' = []
        ∧ trail s' = [] ∧ mousemove s' = []
        ∧ style s' = None ∧ cursor s' = None
        ∧ boundUpdateMousePosition s' = None.
Proof.
  apply (proj1 (proj2 stop_reaches_inactive) overflow_run true true (trail_on 2)).
  vm_compute. reflexivity.
Defined.

Lemma no_trail_when_disabled_witness :
  trail (exec (MouseMove <$> [ {| clientX := 1; clientY := 2 |};
                               {| clientX := 3; clientY := 4 |} ])
           (step Start (initial true true
                          (Some (demo_settings false 5 "circle"))))) = []
  ∧ trail_dot_nodes
      (exec (MouseMove <$> [ {| clientX := 1; clientY := 2 |};
                             {| clientX := 3; clientY := 4 |} ])
         (step Start (initial true true
                        (Some (demo_settings false 5 "circle"))))) = [].
Proof.
  pose proof (no_trail_when_disabled
                [ {| clientX := 1; clientY := 2 |};
                  {| clientX := 3; clientY := 4 |} ]
                (step Start (initial true true
                               (Some (demo_settings false 5 "circle"))))
                (demo_settings false 5 "circle")) as W.
  destruct W as (_ & _ & _ & _ & Hstart).
  - vm_compute. reflexivity.
  - reflexivity.
  - apply (Hstart true true). reflexivity.
Defined.

Lemma custom_image_ignores_cursorColor_witness :
  stylesheet (with_cursorColor (Some "#123456") (demo_settings false 5 "custom"))
    = stylesheet (with_cursorColor None (demo_settings false 5 "custom")).
Proof.
  apply (custom_image_ignores_cursorColor
           (demo_settings false 5 "custom") (Some "#123456") None recoloured).
  simpl. discriminate.
Defined.

Lemma stylesheet_depends_on_four_fields_witness :
  stylesheet (demo_settings true 7 "circle")
    = stylesheet (demo_settings false 2 "circle").
Proof.
  apply (stylesheet_depends_on_four_fields
           (demo_settings true 7 "circle") (demo_settings false 2 "circle")
           recoloured); reflexivity.
Defined.

(** Outside the host's pairing: a second [start] without a [stop] in between
    leaves the first overlay and stylesheet nodes attached for good. *)
Lemma double_start_leaks :
  let s := exec [Start; Start; Stop] (initial true true (trail_on 5)) in
  overlay_nodes s = [1] ∧ stylesheet_nodes s = [0] ∧ mousemove s = [2].
Proof. by vm_compute. Qed.

(** ** Instances of the further properties *)

Lemma one_overlay_while_active_witness :
  ∃ st c, style (exec overflow_run (initial true true (trail_on 2))) = Some st
          ∧ cursor (exec overflow_run (initial true true (trail_on 2))) = Some c
          ∧ stylesheet_nodes (exec overflow_run (initial true true (trail_on 2)))
            = [st]
          ∧ overlay_nodes (exec overflow_run (initial true true (trail_on 2)))
            = [c]
          ∧ mousemove (exec overflow_run (initial true true (trail_on 2))) = [2].
Proof.
  apply (one_overlay_while_active overflow_run true true (trail_on 2) 2).
  - vm_compute. reflexivity.
  - vm_compute. reflexivity.
Defined.

(** A restart: the plugin was started and stopped before. *)
Lemma start_activates_witness :
  ∃ st c f,
    style (step Start (exec [Start; Stop] (initial true true (trail_on 2))))
      = Some st
    ∧ cursor (step Start (exec [Start; Stop] (initial true true (trail_on 2))))
      = Some c
    ∧ boundUpdateMousePosition
        (step Start (exec [Start; Stop] (initial true true (trail_on 2))))
      = Some f
    ∧ stylesheet_nodes
        (step Start (exec [Start; Stop] (initial true true (trail_on 2))))
      = [st]
    ∧ overlay_nodes
        (step Start (exec [Start; Stop] (initial true true (trail_on 2))))
      = [c]
    ∧ mousemove
        (step Start (exec [Start; Stop] (initial true true (trail_on 2))))
      = [f]
    ∧ trail (step Start (exec [Start; Stop] (initial true true (trail_on 2))))
      = []
    ∧ textContent <$>
        elements
          (step Start (exec [Start; Stop] (initial true true (trail_on 2))))
        !! st
      = Some (match store (exec [Start; Stop] (initial true true (trail_on 2)))
              with
              | Some settings => stylesheet settings
              | None => EmptyString
              end).
Proof.
  apply (start_activates [Start; Stop] true true (trail_on 2)).
  - vm_compute. reflexivity.
  - vm_compute. reflexivity.
  - vm_compute. by eexists.
  - vm_compute. by eexists.
Defined.

Lemma queued_dots_have_timeouts_witness :
  ∃ due, (due, 4) ∈ timeouts (exec overflow_run (initial true true (trail_on 2)))
         ∧ due ≤ clock (exec overflow_run (initial true true (trail_on 2))) + 100.
Proof.
  apply (queued_dots_have_timeouts overflow_run true true (trail_on 2) 4).
  apply (bool_decide_unpack _). by vm_compute.
Defined.

(** Dot 3 was evicted in [overflow_run]; it stays away. *)
Lemma removed_nodes_stay_removed_witness :
  (3 ∉ attached_nodes (exec overflow_run (initial true true (trail_on 2))) →
   3 ∉ attached_nodes
         (exec [move 40 40; Elapse 100; Timeout 0]
            (exec overflow_run (initial true true (trail_on 2)))))
  ∧ (3 ∉ trail (exec overflow_run (initial true true (trail_on 2))) →
     3 ∉ trail
           (exec [move 40 40; Elapse 100; Timeout 0]
              (exec overflow_run (initial true true (trail_on 2))))).
Proof.
  apply (removed_nodes_stay_removed overflow_run true true (trail_on 2) 3
           [move 40 40; Elapse 100; Timeout 0]).
  vm_compute. lia.
Defined.

Lemma trailLength_below_one_shows_no_dot_witness :
  trail (exec (MouseMove <$> [ {| clientX := 1; clientY := 2 |};
                               {| clientX := 3; clientY := 4 |} ])
           (exec [Start] (initial true true (trail_on 0)))) = []
  ∧ trail_dot_nodes
      (exec (MouseMove <$> [ {| clientX := 1; clientY := 2 |};
                             {| clientX := 3; clientY := 4 |} ])
         (exec [Start] (initial true true (trail_on 0)))) = [].
Proof.
  apply (trailLength_below_one_shows_no_dot [Start] true true (trail_on 0)
           [ {| clientX := 1; clientY := 2 |}; {| clientX := 3; clientY := 4 |} ]
           (demo_settings true 0 "circle")).
  - vm_compute. reflexivity.
  - vm_compute. reflexivity.
  - vm_compute. reflexivity.
Defined.

Lemma missing_settings_skip_witness :
  exec [move 1 1; OptionChanged ThePlugin KcursorSize; move 2 2]
       (exec [Start] (initial true true None))
    = exec [Start] (initial true true None).
Proof.
  apply (missing_settings_skip
           [move 1 1; OptionChanged ThePlugin KcursorSize; move 2 2]
           (exec [Start] (initial true true None))).
  - vm_compute. reflexivity.
  - constructor; [left; by eexists|].
    constructor; [right; by do 2 eexists|].
    constructor; [left; by eexists|]. constructor.
Defined.

Lemma colours_show_in_stylesheet_witness :
  (cursorStyle (demo_settings true 7 "circle") ?? defaultSettings.cursorStyle
     = "circle" →
   trailColor (demo_settings true 7 "circle") ?? defaultSettings.trailColor
     = trailColor (demo_settings false 2 "circle") ?? defaultSettings.trailColor →
   cursorColor (demo_settings true 7 "circle") ?? defaultSettings.cursorColor
     = cursorColor (demo_settings false 2 "circle")
         ?? defaultSettings.cursorColor)
  ∧ (cursorColor (demo_settings true 7 "circle") ?? defaultSettings.cursorColor
       = cursorColor (demo_settings false 2 "circle")
           ?? defaultSettings.cursorColor →
     trailColor (demo_settings true 7 "circle") ?? defaultSettings.trailColor
       = trailColor (demo_settings false 2 "circle")
           ?? defaultSettings.trailColor).
Proof.
  apply (colours_show_in_stylesheet (demo_settings true 7 "circle")
           (demo_settings false 2 "circle")).
  - reflexivity.
  - reflexivity.
  - vm_compute. reflexivity.
Defined.
